(** * MLB WAR analysis notebook: load, prepare, regress, cluster, report

    A shallow embedding of [WAR_Analysis_and_Player_Clustering.ipynb].

    The notebook is glue around pandas and scikit-learn.  The glue (column
    renaming, [dropna], the silhouette search loop, [max(scores,
    key=scores.get)], the column assignments, the per-cluster listing) is
    embedded below as executable definitions.  [read_csv] and the numerical
    routines of scikit-learn are not code of the notebook: they are the
    fields of the record [Library].  What a property needs from them is
    stated as a hypothesis on the library ([split_rejects_small],
    [split_keeps_columns], [fit_coef_shape], [scaler_rejects_empty],
    [scaler_keeps_rows], [scaler_standardizes], [kmeans_labels_in_range],
    [silhouette_domain]); the module [Toy] is a small library that meets
    them and runs the notebook on the tables of the modules [Sample] and
    [Cases]. *)

From Stdlib Require Import ZArith QArith Ascii String List Bool Lia Floats.SpecFloat.
From stdpp Require Import base list sorting.
Import ListNotations.

Local Open Scope string_scope.
Local Open Scope list_scope.

(** ** Python strings (column labels)

    A label is UTF-8 text, one [ascii] per byte.  The methods below are
    Python's on ASCII text.  A byte of a non-ASCII character is left as it
    is, which is what Python does with a character that is not whitespace
    and has no lowercase form; text with other non-ASCII characters (an
    accented capital, a no-break space) is outside the model, and the
    properties of the renaming are stated for ASCII names. *)

Module PyStr.

(** The value of a byte; for an ASCII character, its code point. *)
Definition ord (c : ascii) : nat := nat_of_ascii c.

(** [chr(cp)] in UTF-8, for a code point below U+10000. *)
Definition chr (cp : N) : string :=
  if (cp <? 128)%N then String (ascii_of_N cp) EmptyString
  else if (cp <? 2048)%N then
    String (ascii_of_N (192 + N.shiftr cp 6))
      (String (ascii_of_N (128 + N.land cp 63)) EmptyString)
  else
    String (ascii_of_N (224 + N.shiftr cp 12))
      (String (ascii_of_N (128 + N.land (N.shiftr cp 6) 63))
         (String (ascii_of_N (128 + N.land cp 63)) EmptyString)).

(** [str.isascii]: every character is below U+0080. *)
Fixpoint isascii (s : string) : bool :=
  match s with
  | EmptyString => true
  | String c s' => (ord c <? 128)%nat && isascii s'
  end.

(** [str.isspace] on the ASCII range: TAB..CR, FS..US and SPACE. *)
Definition isspace (c : ascii) : bool :=
  let n := ord c in
  (((9 <=? n) && (n <=? 13)) || ((28 <=? n) && (n <=? 32)))%nat.

Definition isupper (c : ascii) : bool :=
  let n := ord c in ((65 <=? n) && (n <=? 90))%nat.

Definition lower_char (c : ascii) : ascii :=
  if isupper c then ascii_of_nat (ord c + 32) else c.

Fixpoint lower (s : string) : string :=
  match s with
  | EmptyString => EmptyString
  | String c s' => String (lower_char c) (lower s')
  end.

Fixpoint lstrip (s : string) : string :=
  match s with
  | EmptyString => EmptyString
  | String c s' => if isspace c then lstrip s' else s
  end.

Fixpoint rstrip (s : string) : string :=
  match s with
  | EmptyString => EmptyString
  | String c s' =>
      match rstrip s' with
      | EmptyString => if isspace c then EmptyString else String c EmptyString
      | r => String c r
      end
  end.

(** [s.strip()] with no argument. *)
Definition strip (s : string) : string := rstrip (lstrip s).

(** [s.replace(old, new)]: leftmost, non-overlapping occurrences.  [skip]
    counts the characters of a matched occurrence still to be jumped. *)
Fixpoint replace_from (old new : string) (skip : nat) (s : string) : string :=
  match s with
  | EmptyString => EmptyString
  | String c s' =>
      match skip with
      | S n => replace_from old new n s'
      | O =>
          if String.prefix old s
          then new ++ replace_from old new (String.length old - 1) s'
          else String c (replace_from old new 0 s')
      end
  end.

(** With an empty [old], Python puts [new] before every character and at
    the end. *)
Fixpoint intersperse (new s : string) : string :=
  match s with
  | EmptyString => new
  | String c s' => new ++ String c (intersperse new s')
  end.

Definition replace (old new s : string) : string :=
  match old with
  | EmptyString => intersperse new s
  | _ => replace_from old new 0 s
  end.

(** [c in s] for a one-character [c]. *)
Fixpoint contains (c : ascii) (s : string) : bool :=
  match s with
  | EmptyString => false
  | String d s' => Ascii.eqb c d || contains c s'
  end.

Fixpoint any_upper (s : string) : bool :=
  match s with
  | EmptyString => false
  | String d s' => isupper d || any_upper s'
  end.

End PyStr.

(** ** Loader: column names

    [df.columns.str.strip().str.lower().str.replace(' ', '_')
       .str.replace('+', 'plus').str.replace('%', 'percent')] *)

Definition normalize_column (name : string) : string :=
  PyStr.replace "%" "percent"
    (PyStr.replace "+" "plus"
       (PyStr.replace " " "_"
          (PyStr.lower (PyStr.strip name)))).

(** ** Python values, exceptions and cell outputs *)

(** A Python [float] is an IEEE-754 binary64 value; [a > b] is false as soon
    as one side is NaN. *)
Definition pyfloat : Type := spec_float.

Definition float_gt (a b : pyfloat) : bool := SFltb b a.

Definition float_eq (a b : pyfloat) : bool := SFeqb a b.

Definition float_isnan (a : pyfloat) : bool :=
  match a with S754_nan => true | _ => false end.

Inductive exn : Type :=
| KeyError (labels : list string)
| ValueError (msg : string)
| IndexError
| TypeError
| AttributeError
| NameError
| FileNotFoundError
| ParserError.

Inductive result (A : Type) : Type :=
| Ok (a : A)
| Raise (e : exn).

Arguments Ok {A} a.
Arguments Raise {A} e.

Definition is_ok {A} (r : result A) : bool :=
  match r with Ok _ => true | Raise _ => false end.

Definition res_bind {A B} (r : result A) (f : A -> result B) : result B :=
  match r with
  | Ok a => f a
  | Raise e => Raise e
  end.

Definition res_map {A B} (f : A -> B) (r : result A) : result B :=
  res_bind r (fun a => Ok (f a)).

Fixpoint res_mapM {A B} (f : A -> result B) (l : list A) : result (list B) :=
  match l with
  | [] => Ok []
  | x :: l' =>
      res_bind (f x) (fun y => res_bind (res_mapM f l') (fun ys => Ok (y :: ys)))
  end.

(** ** DataFrames *)

(** A cell of a table.  [CNone] and a NaN float are what pandas treats as
    missing. *)
Inductive cell : Type :=
| CFloat (f : pyfloat)
| CInt (z : Z)
| CStr (s : string)
| CNone.

Definition isna (c : cell) : bool :=
  match c with
  | CFloat f => float_isnan f
  | CNone => true
  | _ => false
  end.

(** One table row: its index label and one cell per column. *)
Record row : Type := mkRow { label : nat; cells : list cell }.

Record DataFrame : Type := mkFrame { columns : list string; rows : list row }.

Definition nrows (df : DataFrame) : nat := length (rows df).

Definition has_column (cols : list string) (name : string) : bool :=
  existsb (String.eqb name) cols.

(** The entries of [xs] that sit under a column labelled [name]; labels may
    repeat, and then every match is taken, as pandas does. *)
Definition pick {A} (cols : list string) (xs : list A) (name : string) : list A :=
  map snd (List.filter (fun p => String.eqb (fst p) name) (combine cols xs)).

Definition pick_all {A} (cols : list string) (xs : list A) (names : list string) : list A :=
  flat_map (pick cols xs) names.

(** The requested labels the table does not have. *)
Definition missing_labels (cols names : list string) : list string :=
  List.filter (fun n => negb (has_column cols n)) names.

(** [df[names]] for a list of labels: a new table. *)
Definition select (names : list string) (df : DataFrame) : result DataFrame :=
  match missing_labels (columns df) names with
  | (_ :: _) as missing => Raise (KeyError missing)
  | [] =>
      Ok {| columns := pick_all (columns df) (columns df) names;
            rows := map (fun r => mkRow (label r) (pick_all (columns df) (cells r) names))
                        (rows df) |}
  end.

(** A row is complete on [subset] when no cell under those labels is missing. *)
Definition complete (cols subset : list string) (r : row) : bool :=
  forallb (fun c => negb (isna c)) (pick_all cols (cells r) subset).

(** [df.dropna(subset=subset)]: a new table with the complete rows, in order. *)
Definition dropna (subset : list string) (df : DataFrame) : result DataFrame :=
  match missing_labels (columns df) subset with
  | (_ :: _) as missing => Raise (KeyError missing)
  | [] =>
      Ok {| columns := columns df;
            rows := List.filter (complete (columns df) subset) (rows df) |}
  end.

(** [df.columns = names] *)
Definition set_columns (names : list string) (df : DataFrame) : result DataFrame :=
  if Nat.eqb (length names) (length (columns df))
  then Ok {| columns := names; rows := rows df |}
  else Raise (ValueError "Length mismatch").

(** Writes [v] in every position of [cs] whose label is [name]. *)
Fixpoint overwrite (cols : list string) (cs : list cell) (name : string) (v : cell) : list cell :=
  match cols, cs with
  | c :: cols', x :: cs' =>
      (if String.eqb c name then v else x) :: overwrite cols' cs' name v
  | _, _ => cs
  end.

Definition set_cell (cols : list string) (name : string) (r : row) (v : cell) : row :=
  if has_column cols name
  then mkRow (label r) (overwrite cols (cells r) name v)
  else mkRow (label r) (cells r ++ [v]).

Fixpoint set_cells (cols : list string) (name : string) (rs : list row) (vs : list cell) : list row :=
  match rs, vs with
  | r :: rs', v :: vs' => set_cell cols name r v :: set_cells cols name rs' vs'
  | _, _ => []
  end.

(** The labels after an assignment to [name]: unchanged when the label
    exists, extended by it otherwise. *)
Definition add_column (cols : list string) (name : string) : list string :=
  if has_column cols name then cols else cols ++ [name].

(** [df[name] = values]: overwrites the column when the label exists, appends
    it as the last column otherwise; the array must have one value per row. *)
Definition setitem (name : string) (values : list cell) (df : DataFrame) : result DataFrame :=
  if Nat.eqb (length values) (nrows df)
  then Ok {| columns := add_column (columns df) name;
             rows := set_cells (columns df) name (rows df) values |}
  else Raise (ValueError "Length of values does not match length of index").

(** The values of a one-column selection ([df[name]] seen as a Series).  With
    a repeated label the selection is a table and has no Series methods. *)
Definition series_values (s : DataFrame) : result (list cell) :=
  match columns s with
  | [_] => Ok (map (fun r => hd CNone (cells r)) (rows s))
  | _ => Raise AttributeError
  end.

Definition as_int (c : cell) : result Z :=
  match c with
  | CInt z => Ok z
  | _ => Raise TypeError
  end.

(** [Series.unique()]: distinct values in order of first appearance. *)
Fixpoint unique_from (seen : list Z) (l : list Z) : list Z :=
  match l with
  | [] => []
  | x :: l' =>
      if existsb (Z.eqb x) seen then unique_from seen l'
      else x :: unique_from (x :: seen) l'
  end.

Definition unique (l : list Z) : list Z := unique_from [] l.

(** [sorted(...)] on integers. *)
Definition sorted (l : list Z) : list Z := merge_sort Z.le l.

(** [series == c] against an integer. *)
Definition cell_is (c : Z) (x : cell) : bool :=
  match x with
  | CInt z => Z.eqb z c
  | _ => false
  end.

Fixpoint keep_mask {A} (mask : list bool) (l : list A) : list A :=
  match mask, l with
  | b :: mask', x :: l' => if b then x :: keep_mask mask' l' else keep_mask mask' l'
  | _, _ => []
  end.

(** [df[mask]] for a boolean mask with one entry per row. *)
Definition getitem_mask (mask : list bool) (df : DataFrame) : DataFrame :=
  {| columns := columns df; rows := keep_mask mask (rows df) |}.

(** [df.head()] keeps the first five rows. *)
Definition head (df : DataFrame) : DataFrame :=
  {| columns := columns df; rows := firstn 5 (rows df) |}.

(** ** numpy arrays *)

Definition matrix : Type := list (list pyfloat).

(** [m[:, j]] *)
Definition matrix_col (j : nat) (m : matrix) : result (list pyfloat) :=
  res_mapM (fun r => match nth_error r j with
                     | Some x => Ok x
                     | None => Raise IndexError
                     end) m.

(** ** Python dict and [max]

    A dict keeps its keys in insertion order; assigning to a key that is
    already there keeps its place. *)

Definition dict (V : Type) : Type := list (nat * V).

Fixpoint dict_set {V} (k : nat) (v : V) (d : dict V) : dict V :=
  match d with
  | [] => [(k, v)]
  | (k', v') :: d' =>
      if Nat.eqb k k' then (k, v) :: d' else (k', v') :: dict_set k v d'
  end.

Fixpoint dict_get {V} (d : dict V) (k : nat) : option V :=
  match d with
  | [] => None
  | (k', v') :: d' => if Nat.eqb k k' then Some v' else dict_get d' k
  end.

Definition dict_keys {V} (d : dict V) : list nat := map fst d.

(** [a > b] on what [scores.get] returns; [None] is not ordered. *)
Definition py_gt (a b : option pyfloat) : result bool :=
  match a, b with
  | Some x, Some y => Ok (float_gt x y)
  | _, _ => Raise TypeError
  end.

(** The loop of [max(iterable, key=key)]: the running maximum is replaced
    only by an item whose key is strictly greater. *)
Fixpoint max_from (key : nat -> option pyfloat) (best : nat) (best_key : option pyfloat)
  (items : list nat) : result nat :=
  match items with
  | [] => Ok best
  | x :: items' =>
      res_bind (py_gt (key x) best_key) (fun gt =>
        if gt then max_from key x (key x) items'
        else max_from key best best_key items')
  end.

Definition py_max (key : nat -> option pyfloat) (items : list nat) : result nat :=
  match items with
  | [] => Raise (ValueError "max() arg is an empty sequence")
  | x :: items' => max_from key x (key x) items'
  end.

(** [range(a, b)] *)
Definition range (a b : nat) : list nat := seq a (b - a).

(** ** The library calls of the notebook

    pandas' [read_csv] and the scikit-learn estimators and metrics are not
    code of the notebook.  A seeded call receives the generator built from
    its seed; an unseeded one receives numpy's global generator. *)

(** A numpy array of floats with one or two axes. *)
Inductive ndarray : Type :=
| Array1 (v : list pyfloat)
| Array2 (m : list (list pyfloat)).

(** What [for x in a] yields: the entries of a one-axis array, the rows of
    a two-axis one. *)
Definition items (a : ndarray) : list (pyfloat + list pyfloat) :=
  match a with
  | Array1 v => map inl v
  | Array2 m => map inr m
  end.

(** A fitted [LinearRegression].  [coef_] has one axis when the target was
    a Series and two (one row per target) when it was a table. *)
Record LinearModel : Type := mkModel { coef_ : ndarray; intercept_ : pyfloat }.

Record Library : Type := mkLibrary {
  rng : Type;
  RandomState : Z -> rng;
  read_csv : string -> result DataFrame;
  train_test_split :
    rng -> pyfloat -> DataFrame -> DataFrame ->
    result (DataFrame * DataFrame * DataFrame * DataFrame);
  LinearRegression_fit : DataFrame -> DataFrame -> result LinearModel;
  LinearRegression_predict : LinearModel -> DataFrame -> result (list pyfloat);
  r2_score : DataFrame -> list pyfloat -> result pyfloat;
  mean_squared_error : DataFrame -> list pyfloat -> bool -> result pyfloat;
  StandardScaler_fit_transform : DataFrame -> result matrix;
  PCA_fit_transform : rng -> nat -> matrix -> result matrix;
  KMeans_fit_predict : rng -> nat -> matrix -> result (list nat);
  silhouette_score : matrix -> list nat -> result pyfloat
}.

(** [sklearn.utils.check_random_state]: an integer seed gives a fresh
    generator, [None] the global one. *)
Definition check_random_state (L : Library) (global : rng L) (random_state : option Z) : rng L :=
  match random_state with
  | Some seed => RandomState L seed
  | None => global
  end.

(** ** Notebook state and outputs *)

(** What a cell prints or displays.  The values are kept as they are; how
    an f-string or a plot renders them is not modelled. *)
Inductive output : Type :=
| ShowColumns (names : list string)
| PrintR2 (v : pyfloat)
| PrintRMSE (v : pyfloat)
| PrintImportancesTitle
| PrintCoef (col : string) (coef : pyfloat)
| PrintBestK (k : nat)
| ShowScatter (x y hue : list cell)
| PrintClusterTitle (c : Z)
| Display (df : DataFrame).

(** A cell run: what it printed, and its value or the exception that
    stopped it. *)
Definition Cell (A : Type) : Type := list output * result A.

Definition ret {A} (a : A) : Cell A := ([], Ok a).

Definition lift {A} (r : result A) : Cell A := ([], r).

Definition emit (o : output) : Cell unit := ([o], Ok tt).

Definition bind {A B} (c : Cell A) (f : A -> Cell B) : Cell B :=
  match c with
  | (o1, Ok a) => let (o2, r) := f a in (o1 ++ o2, r)
  | (o1, Raise e) => (o1, Raise e)
  end.

Declare Scope cell_scope.
Delimit Scope cell_scope with cell.

Notation "x <- c ;; k" := (bind c (fun x => k))
  (at level 100, c at next level, right associativity) : cell_scope.
Notation "c ;;; k" := (bind c (fun _ => k))
  (at level 100, right associativity) : cell_scope.

(** Objects live in a store; a notebook variable holds a reference.  Tables
    are the only objects that the notebook changes in place. *)
Abbreviation ref := nat (only parsing).

Abbreviation store := (list DataFrame) (only parsing).

Definition alloc (h : store) (df : DataFrame) : store * ref := (h ++ [df], length h).

Definition deref (h : store) (r : ref) : result DataFrame :=
  match h !! r with
  | Some df => Ok df
  | None => Raise NameError
  end.

Definition assign (h : store) (r : ref) (df : DataFrame) : store := <[r := df]> h.

(** ** The notebook, cell by cell *)

Local Open Scope cell_scope.

(** A [for] loop over a list: the turns run in order and the first
    exception ends the loop. *)
Fixpoint for_each {A} (l : list A) (body : A -> Cell unit) : Cell unit :=
  match l with
  | [] => ret tt
  | x :: l' => body x ;;; for_each l' body
  end.

(** *** Load and clean the data *)

Record Loaded : Type := mkLoaded { l_store : store; l_df : ref }.

(** [df.columns = ...] renames the columns of the table just read, in
    place; the cell ends by showing [df.columns.tolist()]. *)
Definition load (L : Library) : Cell Loaded :=
  df0 <- lift (read_csv L "WAR Stats.csv") ;;
  let (h, df) := alloc [] df0 in
  df1 <- lift (set_columns (map normalize_column (columns df0)) df0) ;;
  let h := assign h df df1 in
  emit (ShowColumns (columns df1)) ;;;
  ret (mkLoaded h df).

(** *** Feature selection and preprocessing *)

Definition features : list string :=
  [ "on_base_percent"; "slg_percent"; "isolated_power";
    "k_percent"; "bb_percent"; "exit_velocity_avg";
    "sprint_speed"; "wrcplus"; "f_fielding"; "spd" ].

Record Prepared : Type := mkPrepared { p_store : store; p_df : ref; p_X : ref; p_y : ref }.

(** [df = df.dropna(...)] rebinds [df] to a new table; [X = df[features]]
    and [y = df['war']] are new objects too.  [y] is kept as the selection
    of the columns labelled ['war'] (one column when the label is unique). *)
Definition prepare (s : Loaded) : Cell Prepared :=
  df0 <- lift (deref (l_store s) (l_df s)) ;;
  df1 <- lift (dropna (features ++ ["war"]) df0) ;;
  let (h, df) := alloc (l_store s) df1 in
  X0 <- lift (select features df1) ;;
  let (h, X) := alloc h X0 in
  y0 <- lift (select ["war"] df1) ;;
  let (h, y) := alloc h y0 in
  ret (mkPrepared h df X y).

(** *** Linear regression to estimate WAR *)

(** The literal [0.2] as a binary64 value. *)
Definition test_size : pyfloat := S754_finite false 7205759403792794 (-55).

Record Regression : Type := mkRegression {
  X_train : DataFrame; X_test : DataFrame;
  y_train : DataFrame; y_test : DataFrame;
  lr : LinearModel;
  y_pred : list pyfloat
}.

(** [f"{col}: {coef:.3f}"]: the format [.3f] is for a number; an array
    refuses it with a [TypeError]. *)
Definition format_coef (col : string) (coef : pyfloat + list pyfloat) : result output :=
  match coef with
  | inl v => Ok (PrintCoef col v)
  | inr _ => Raise TypeError
  end.

(** One turn of [for col, coef in zip(X.columns, lr.coef_)]. *)
Definition print_coef (p : string * (pyfloat + list pyfloat)) : Cell unit :=
  line <- lift (format_coef (fst p) (snd p)) ;;
  emit line.

(** [y] is a Series when one column is labelled ['war'] and a table when
    several are; [lr.coef_] then has one axis or two. *)
Definition regress (L : Library) (global : rng L) (s : Prepared) : Cell Regression :=
  X <- lift (deref (p_store s) (p_X s)) ;;
  y <- lift (deref (p_store s) (p_y s)) ;;
  parts <- lift (train_test_split L (check_random_state L global (Some 42%Z)) test_size X y) ;;
  let '(Xtr, Xte, ytr, yte) := parts in
  m <- lift (LinearRegression_fit L Xtr ytr) ;;
  pred <- lift (LinearRegression_predict L m Xte) ;;
  r2 <- lift (r2_score L yte pred) ;;
  emit (PrintR2 r2) ;;;
  rmse <- lift (mean_squared_error L yte pred false) ;;
  emit (PrintRMSE rmse) ;;;
  emit PrintImportancesTitle ;;;
  for_each (combine (columns X) (items (coef_ m))) print_coef ;;;
  ret (mkRegression Xtr Xte ytr yte m pred).

(** *** Clustering players by stat profile *)

(** The body of [for k in range(2, 10)], run over the candidates left. *)
Fixpoint silhouette_search (L : Library) (global : rng L) (X_scaled : matrix)
  (ks : list nat) (scores : dict pyfloat) : result (dict pyfloat) :=
  match ks with
  | [] => Ok scores
  | k :: ks' =>
      res_bind (KMeans_fit_predict L (check_random_state L global (Some 42%Z)) k X_scaled)
        (fun labels =>
      res_bind (silhouette_score L X_scaled labels)
        (fun s =>
      silhouette_search L global X_scaled ks' (dict_set k s scores)))
  end.

(** The same loop, keeping what each iteration bound to [labels]. *)
Fixpoint search_trace (L : Library) (global : rng L) (X_scaled : matrix)
  (ks : list nat) : result (list (nat * list nat * pyfloat)) :=
  match ks with
  | [] => Ok []
  | k :: ks' =>
      res_bind (KMeans_fit_predict L (check_random_state L global (Some 42%Z)) k X_scaled)
        (fun labels =>
      res_bind (silhouette_score L X_scaled labels)
        (fun s =>
      res_bind (search_trace L global X_scaled ks')
        (fun t => Ok ((k, labels, s) :: t))))
  end.

(** [scores] after the loop and [best_k = max(scores, key=scores.get)]. *)
Definition select_k (L : Library) (global : rng L) (X_scaled : matrix)
  : result (dict pyfloat * nat) :=
  res_bind (silhouette_search L global X_scaled (range 2 10) []) (fun sc =>
  res_bind (py_max (dict_get sc) (dict_keys sc)) (fun k => Ok (sc, k))).

Record Clustered : Type := mkClustered {
  c_store : store; c_df : ref; c_X : ref; c_y : ref;
  X_scaled : matrix;
  X_pca : matrix;
  scores : dict pyfloat;
  best_k : nat;
  cluster_labels : list nat
}.

Definition int_cells (l : list nat) : list cell := map (fun n => CInt (Z.of_nat n)) l.

Definition float_cells (l : list pyfloat) : list cell := map CFloat l.

(** The three assignments [df['cluster'] = ...], [df['PC1'] = ...],
    [df['PC2'] = ...] change the table that [df] refers to, in place. *)
Definition cluster (L : Library) (global : rng L) (s : Prepared) : Cell Clustered :=
  X <- lift (deref (p_store s) (p_X s)) ;;
  Xs <- lift (StandardScaler_fit_transform L X) ;;
  Xp <- lift (PCA_fit_transform L (check_random_state L global None) 2 Xs) ;;
  sk <- lift (select_k L global Xs) ;;
  let (sc, k) := sk in
  emit (PrintBestK k) ;;;
  labels <- lift (KMeans_fit_predict L (check_random_state L global (Some 42%Z)) k Xs) ;;
  df0 <- lift (deref (p_store s) (p_df s)) ;;
  df1 <- lift (setitem "cluster" (int_cells labels) df0) ;;
  let h := assign (p_store s) (p_df s) df1 in
  pc1 <- lift (matrix_col 0 Xp) ;;
  df2 <- lift (setitem "PC1" (float_cells pc1) df1) ;;
  let h := assign h (p_df s) df2 in
  pc2 <- lift (matrix_col 1 Xp) ;;
  df3 <- lift (setitem "PC2" (float_cells pc2) df2) ;;
  let h := assign h (p_df s) df3 in
  ret (mkClustered h (p_df s) (p_X s) (p_y s) Xs Xp sc k labels).

(** *** Cluster visualization *)

Definition column_values (name : string) (df : DataFrame) : result (list cell) :=
  res_bind (select [name] df) series_values.

(** How seaborn reads a variable given by name from [data]: a name that is
    not a column of the table, or that several columns carry, is refused
    with a [ValueError]. *)
Definition plot_variable (name : string) (df : DataFrame) : result (list cell) :=
  match column_values name df with
  | Ok values => Ok values
  | Raise _ => Raise (ValueError "Could not interpret value for a plot variable")
  end.

Definition plot (s : Clustered) : Cell unit :=
  df <- lift (deref (c_store s) (c_df s)) ;;
  x <- lift (plot_variable "PC1" df) ;;
  y <- lift (plot_variable "PC2" df) ;;
  hue <- lift (plot_variable "cluster" df) ;;
  emit (ShowScatter x y hue).

(** *** Example players by cluster *)

Definition report_columns : list string :=
  [ "first"; "last"; "on_base_percent"; "slg_percent"; "wrcplus"; "war" ].

(** One turn of [for c in ...]: the title, then the first rows of the
    cluster's members. *)
Definition report_cluster (df : DataFrame) (c : Z) : Cell unit :=
  emit (PrintClusterTitle c) ;;;
  col <- lift (column_values "cluster" df) ;;
  members <- lift (select report_columns (getitem_mask (map (cell_is c) col) df)) ;;
  emit (Display (head members)).

(** [for c in sorted(df['cluster'].unique())].  The column was assigned from
    K-Means labels, so its values are integers; any other value is refused
    here. *)
Definition report_frame (df : DataFrame) : Cell unit :=
  col <- lift (column_values "cluster" df) ;;
  ids <- lift (res_mapM as_int col) ;;
  for_each (sorted (unique ids)) (report_cluster df).

Definition report (s : Clustered) : Cell unit :=
  df <- lift (deref (c_store s) (c_df s)) ;;
  report_frame df.

(** *** Run all cells from top to bottom *)

Definition run_all (L : Library) (global : rng L) : Cell Clustered :=
  l <- load L ;;
  p <- prepare l ;;
  regress L global p ;;;
  c <- cluster L global p ;;
  plot c ;;;
  report c ;;;
  ret c.

(** ** Well-formed tables and what the notebook relies on from the library *)

(** Every row has one cell per column. *)
Definition frame_ok (df : DataFrame) : Prop :=
  Forall (fun r => length (cells r) = length (columns df)) (rows df).

(** No cell of the table is missing. *)
Definition no_missing (df : DataFrame) : Prop :=
  Forall (fun r => Forall (fun c => isna c = false) (cells r)) (rows df).

(** The values of the [j]-th column. *)
Definition column_at (j : nat) (df : DataFrame) : list cell :=
  map (fun r => nth j (cells r) CNone) (rows df).

Definition cell_same (a b : cell) : bool :=
  match a, b with
  | CFloat x, CFloat y => float_eq x y
  | CInt x, CInt y => Z.eqb x y
  | _, _ => false
  end.

Fixpoint cells_same (a b : list cell) : bool :=
  match a, b with
  | [], [] => true
  | x :: a', y :: b' => cell_same x y && cells_same a' b'
  | _, _ => false
  end.

(** Two different columns hold the same numbers row for row: the feature
    matrix is perfectly collinear, hence rank-deficient. *)
Definition duplicate_columns (df : DataFrame) : bool :=
  existsb (fun i =>
    existsb (fun j => Nat.ltb i j && cells_same (column_at i df) (column_at j df))
            (seq 0 (length (columns df))))
    (seq 0 (length (columns df))).

(** *** Exact statistics of a column

    What standardizing means is stated on the exact values of the floats:
    the mean and the (population) variance of a column are rational
    numbers. *)

(** The exact value of a finite binary64 number, [(-1)^s * m * 2^e]. *)
Definition float_value (f : pyfloat) : option Q :=
  match f with
  | S754_zero _ => Some 0%Q
  | S754_finite s m e =>
      let z := if s then Zneg m else Zpos m in
      Some match e with
           | Z0 => inject_Z z
           | Zpos p => inject_Z (z * 2 ^ Zpos p)
           | Zneg p => Qmake z (2 ^ p)
           end
  | S754_infinity _ | S754_nan => None
  end.

(** The number held by a cell, when it holds one. *)
Definition cell_value (c : cell) : option Q :=
  match c with
  | CFloat f => float_value f
  | CInt z => Some (inject_Z z)
  | CStr _ | CNone => None
  end.

Fixpoint values_of {A} (value : A -> option Q) (l : list A) : option (list Q) :=
  match l with
  | [] => Some []
  | x :: l' =>
      match value x, values_of value l' with
      | Some q, Some qs => Some (q :: qs)
      | _, _ => None
      end
  end.

Definition Qsum (l : list Q) : Q := fold_right Qplus 0%Q l.

Definition Qmean (l : list Q) : Q := (Qsum l / inject_Z (Z.of_nat (length l)))%Q.

(** The variance over the whole column (divisor [n]), the one
    [StandardScaler] uses. *)
Definition Qvariance (l : list Q) : Q :=
  Qmean (map (fun x => (x - Qmean l) * (x - Qmean l))%Q l).

(** [x] and [y] differ by [tol] at most. *)
Definition Qnear (tol x y : Q) : bool :=
  Qle_bool (x - y) tol && Qle_bool (y - x) tol.

(** Every entry of the column is the same number. *)
Definition constant (l : list Q) : bool :=
  match l with
  | [] => true
  | x :: l' => forallb (Qeq_bool x) l'
  end.

(** [zs] is [xs] standardized, within [tol]: its mean is 0 and its variance
    is 1.  A constant column has no spread to rescale: it is centred only,
    and its variance stays 0. *)
Definition standardized_column (tol : Q) (xs zs : list Q) : bool :=
  Qnear tol (Qmean zs) 0 &&
  (if constant xs then Qeq_bool (Qvariance zs) 0 else Qnear tol (Qvariance zs) 1).

(** [m[:, j]] as a list, for a matrix with more than [j] columns. *)
Definition matrix_column (j : nat) (m : matrix) : list pyfloat :=
  map (fun r => nth j r S754_nan) m.

(** The matrix [Xs] has the shape of the table [X] and each of its columns
    is the standardized form of the column of [X] at the same place. *)
Definition standardized (tol : Q) (X : DataFrame) (Xs : matrix) : bool :=
  Nat.eqb (length Xs) (nrows X) &&
  forallb (fun r => Nat.eqb (length r) (length (columns X))) Xs &&
  forallb (fun j =>
             match values_of cell_value (column_at j X),
                   values_of float_value (matrix_column j Xs) with
             | Some xs, Some zs => standardized_column tol xs zs
             | _, _ => false
             end)
          (seq 0 (length (columns X))).


(** [train_test_split] refuses a table that would leave the training part
    empty; with [test_size = 0.2] that is any table of fewer than two rows. *)
Definition split_rejects_small (L : Library) : Prop :=
  forall r X y, nrows X < 2 ->
    exists e, train_test_split L r test_size X y = Raise e.

(** The four parts of a split have the columns of the tables they come
    from. *)
Definition split_keeps_columns (L : Library) : Prop :=
  forall r ts X y Xtr Xte ytr yte,
    train_test_split L r ts X y = Ok (Xtr, Xte, ytr, yte) ->
    columns Xtr = columns X /\ columns Xte = columns X /\
    columns ytr = columns y /\ columns yte = columns y.

(** [LinearRegression.fit]: for a one-column target (a Series) [coef_] has
    one entry per feature column; for a table of several targets it has
    one row per target. *)
Definition fit_coef_shape (L : Library) : Prop :=
  forall X y m, LinearRegression_fit L X y = Ok m ->
    match columns y with
    | [_] => exists v, coef_ m = Array1 v /\ length v = length (columns X)
    | _ => exists rows, coef_ m = Array2 rows /\ length rows = length (columns y)
    end.

(** [StandardScaler] refuses an empty table, and keeps the number of rows. *)
Definition scaler_rejects_empty (L : Library) : Prop :=
  forall X, nrows X = 0 -> exists e, StandardScaler_fit_transform L X = Raise e.

Definition scaler_keeps_rows (L : Library) : Prop :=
  forall X Xs, StandardScaler_fit_transform L X = Ok Xs -> length Xs = nrows X.

(** [KMeans.fit_predict] returns one label per sample, each below
    [n_clusters]. *)
Definition kmeans_labels_in_range (L : Library) : Prop :=
  forall r k Xs labels, KMeans_fit_predict L r k Xs = Ok labels ->
    length labels = length Xs /\ Forall (fun l => l < k) labels.

(** The number of distinct labels. *)
Definition n_labels (labels : list nat) : nat := length (remove_dups labels).

(** [silhouette_score] needs [2 <= n_labels <= n_samples - 1]. *)
Definition silhouette_domain (L : Library) : Prop :=
  forall Xs labels s, silhouette_score L Xs labels = Ok s ->
    2 <= n_labels labels /\ n_labels labels <= length Xs - 1.


(** ** A small executable library

    Enough of a library to run the notebook on concrete tables: it checks
    its inputs the way the contracts above say and returns simple values
    (no shuffling, zero coefficients, features standardized in binary64
    arithmetic, the first two features as projection, round-robin labels,
    silhouette scores read from a table indexed by the number of
    clusters). *)

Module Toy.

Definition zero : pyfloat := S754_zero false.

(** The float [n / 8] for a small positive [n]. *)
Definition eighths (n : positive) : pyfloat := S754_finite false n (-3).

Definition split (r : Z) (ts : pyfloat) (X y : DataFrame)
  : result (DataFrame * DataFrame * DataFrame * DataFrame) :=
  let n := nrows X in
  let n_test := (n + 4) / 5 in
  let n_train := n - n_test in
  if Nat.eqb n_train 0 then Raise (ValueError "the resulting train set will be empty")
  else Ok (mkFrame (columns X) (firstn n_train (rows X)),
           mkFrame (columns X) (skipn n_train (rows X)),
           mkFrame (columns y) (firstn n_train (rows y)),
           mkFrame (columns y) (skipn n_train (rows y))).

Definition fit (X y : DataFrame) : result LinearModel :=
  if Nat.eqb (nrows X) 0 then Raise (ValueError "Found array with 0 sample(s)")
  else
    let zeros := map (fun _ => zero) (columns X) in
    Ok (mkModel match columns y with
                | [_] => Array1 zeros
                | targets => Array2 (map (fun _ => zeros) targets)
                end zero).

Definition predict (m : LinearModel) (X : DataFrame) : result (list pyfloat) :=
  Ok (map (fun _ => intercept_ m) (rows X)).

Definition metric (y : DataFrame) (pred : list pyfloat) : result pyfloat := Ok zero.

Definition as_float (c : cell) : result pyfloat :=
  match c with
  | CFloat f => Ok f
  | CInt z => Ok (match z with
                  | Z0 => zero
                  | Zpos p => S754_finite false p 0
                  | Zneg p => S754_finite true p 0
                  end)
  | _ => Raise (ValueError "could not convert string to float")
  end.

(** binary64 arithmetic, rounding to nearest even. *)
Definition add : pyfloat -> pyfloat -> pyfloat := SFadd 53 1024.

Definition sub : pyfloat -> pyfloat -> pyfloat := SFsub 53 1024.

Definition mul : pyfloat -> pyfloat -> pyfloat := SFmul 53 1024.

Definition div : pyfloat -> pyfloat -> pyfloat := SFdiv 53 1024.

Definition sqrt : pyfloat -> pyfloat := SFsqrt 53 1024.

Definition of_nat (n : nat) : pyfloat :=
  match n with
  | O => zero
  | S _ => S754_finite false (Pos.of_nat n) 0
  end.

Definition mean (l : list pyfloat) : pyfloat :=
  div (fold_left add l zero) (of_nat (length l)).

(** [(x - mean) / std] with the standard deviation over the whole column,
    and a divisor of 1 where the deviation is 0. *)
Definition standardize (col : list pyfloat) : list pyfloat :=
  let m := mean col in
  let sd := sqrt (mean (map (fun x => mul (sub x m) (sub x m)) col)) in
  let divisor := if SFeqb sd zero then of_nat 1 else sd in
  map (fun x => div (sub x m) divisor) col.

Definition scale (X : DataFrame) : result matrix :=
  if Nat.eqb (nrows X) 0 then Raise (ValueError "Found array with 0 sample(s)")
  else
    res_bind (res_mapM (fun r => res_mapM as_float (cells r)) (rows X)) (fun m =>
    let cols := map (fun j => standardize (matrix_column j m))
                    (seq 0 (length (columns X))) in
    Ok (map (fun i => map (fun col => nth i col S754_nan) cols) (seq 0 (length m)))).

(** The projection depends on the generator: an odd state mirrors it. *)
Definition pca (r : Z) (n : nat) (Xs : matrix) : result matrix :=
  if forallb (fun row => Nat.leb n (length row)) Xs && Nat.leb n (length Xs)
  then Ok (map (fun row => if Z.odd r then map SFopp (firstn n row) else firstn n row) Xs)
  else Raise (ValueError "n_components must be between 0 and min(n_samples, n_features)").

Definition kmeans (r : Z) (k : nat) (Xs : matrix) : result (list nat) :=
  if Nat.ltb (length Xs) k || Nat.eqb k 0
  then Raise (ValueError "n_samples should be >= n_clusters")
  else Ok (map (fun i => i mod k) (seq 0 (length Xs))).

Definition silhouette (table : nat -> pyfloat) (Xs : matrix) (labels : list nat)
  : result pyfloat :=
  if Nat.leb 2 (n_labels labels) && Nat.leb (n_labels labels) (length Xs - 1)
  then Ok (table (n_labels labels))
  else Raise (ValueError "Number of labels is invalid").

Definition lib (csv : result DataFrame) (table : nat -> pyfloat) : Library :=
  {| rng := Z;
     RandomState := fun seed => seed;
     read_csv := fun _ => csv;
     train_test_split := split;
     LinearRegression_fit := fit;
     LinearRegression_predict := predict;
     r2_score := metric;
     mean_squared_error := fun y p _ => metric y p;
     StandardScaler_fit_transform := scale;
     PCA_fit_transform := pca;
     KMeans_fit_predict := kmeans;
     silhouette_score := silhouette table |}.

End Toy.

(** A label with no uppercase letter, no space, no ['+'] and no ['%']. *)
Definition clean_name (n : string) : Prop :=
  PyStr.any_upper n = false /\
  PyStr.contains " " n = false /\
  PyStr.contains "+" n = false /\
  PyStr.contains "%" n = false.

(** ** Sample tables *)

Module Sample.

Definition header : list string :=
  [ "First"; "Last"; "On Base Percent"; "SLG Percent"; "Isolated Power";
    "K %"; "BB %"; "Exit Velocity Avg"; " Sprint Speed"; "wRC+";
    "F Fielding "; "Spd"; "WAR" ].

Definition stat (n : nat) : cell := CFloat (Toy.eighths (Pos.of_succ_nat n)).

(** Player [i]: two name cells, then eleven statistics. *)
Definition player (i : nat) : row :=
  mkRow i ([CStr "Player"; CStr (String (ascii_of_nat (65 + i)) EmptyString)]
           ++ map (fun j => stat (i * j + j)) (seq 1 11)).

Definition with_cell (j : nat) (v : cell) (r : row) : row :=
  mkRow (label r) (<[j := v]> (cells r)).

(** Twelve players; player 3 has no strikeout rate and player 7 a NaN WAR. *)
Definition raw : DataFrame :=
  mkFrame header
    (map (fun i =>
            if Nat.eqb i 3 then with_cell 5 CNone (player i)
            else if Nat.eqb i 7 then with_cell 12 (CFloat S754_nan) (player i)
            else player i)
         (seq 0 12)).

(** The same players, every one with a missing sprint speed. *)
Definition all_missing : DataFrame :=
  mkFrame header (map (fun i => with_cell 8 CNone (player i)) (seq 0 12)).

(** Ten complete players whose slugging column repeats the on-base column. *)
Definition collinear : DataFrame :=
  mkFrame header
    (map (fun i => with_cell 3 (nth 2 (cells (player i)) CNone) (player i)) (seq 0 10)).

(** Eight labelled players, all in cluster 1 but player 3, in cluster 0. *)
Definition tiny : DataFrame :=
  mkFrame (report_columns ++ ["cluster"])
    (map (fun i => mkRow i ([CStr "Player"; CStr "X"; stat i; stat i; stat i; stat i]
                            ++ [CInt (if Nat.eqb i 3 then 0 else 1)]))
         (seq 0 8)).

(** Silhouette scores by number of clusters: 3 and 4 tie for the best. *)
Definition table (k : nat) : pyfloat :=
  match k with
  | 2 => Toy.eighths 3
  | 3 => Toy.eighths 5
  | 4 => Toy.eighths 5
  | 5 => Toy.eighths 2
  | _ => Toy.eighths 1
  end.

Definition lib (csv : DataFrame) : Library := Toy.lib (Ok csv) table.

(** Ten points in the plane, as a scaled feature matrix. *)
Definition points : matrix :=
  map (fun i => [Toy.eighths (Pos.of_succ_nat i); Toy.eighths (Pos.of_succ_nat (2 * i))])
      (seq 0 10).

(** The notebook state once the Loader has run on [csv]. *)
Definition loaded (csv : DataFrame) : Loaded :=
  mkLoaded [mkFrame (map normalize_column (columns csv)) (rows csv)] 0.

(** The state after the Feature Preparer, and after the Clusterer run with
    the global generator in state [g]. *)
Definition prepared (csv : DataFrame) : Prepared :=
  match snd (prepare (loaded csv)) with
  | Ok p => p
  | Raise _ => mkPrepared [] 0 0 0
  end.

Definition clustered (csv : DataFrame) (g : Z) : Clustered :=
  match snd (cluster (lib csv) g (prepared csv)) with
  | Ok c => c
  | Raise _ => mkClustered [] 0 0 0 [] [] [] 0 []
  end.

(** The table [df] at the end of that run. *)
Definition final_table (csv : DataFrame) (g : Z) : DataFrame :=
  match c_store (clustered csv g) !! c_df (clustered csv g) with
  | Some df => df
  | None => mkFrame [] []
  end.

End Sample.

(** A cell that holds a value: neither [None] nor a NaN. *)
Definition present (c : cell) : Prop := c <> CNone /\ c <> CFloat S754_nan.

(** Row [r] holds a value at every position whose column label is one of
    [subset]. *)
Definition has_values (cols subset : list string) (r : row) : Prop :=
  forall j n c, In n subset -> cols !! j = Some n -> cells r !! j = Some c -> present c.

(** A row with no missing value under any of the labels [subset]. *)
Definition row_complete (cols subset : list string) (r : row) : Prop :=
  forall n, In n subset -> forall c, In c (pick cols (cells r) n) -> isna c = false.

(** [b] sits at a place of [l] where no key is greater, and no earlier key
    is equal to or greater than its own. *)
Definition first_max (key : nat -> option pyfloat) (l : list nat) (b : nat) : Prop :=
  exists pre post vb,
    l = pre ++ b :: post /\ key b = Some vb /\
    (forall x vx, In x pre -> key x = Some vx ->
                  float_gt vx vb = false /\ float_eq vx vb = false) /\
    (forall x vx, In x post -> key x = Some vx -> float_gt vx vb = false).

(** What one turn of the search loop computes: the labels of the fit at
    [k] and their silhouette score. *)
Definition turn (L : Library) (Xs : matrix) (e : nat * list nat * pyfloat) : Prop :=
  KMeans_fit_predict L (RandomState L 42%Z) (fst (fst e)) Xs = Ok (snd (fst e)) /\
  silhouette_score L Xs (snd (fst e)) = Ok (snd e).

(** [scores[k] = score] for the turn [e]. *)
Definition record_score (d : dict pyfloat) (e : nat * list nat * pyfloat) : dict pyfloat :=
  dict_set (fst (fst e)) (snd e) d.

(** The three tables the Feature Preparer builds from a loaded table. *)
Definition kept_frame (df0 : DataFrame) : DataFrame :=
  mkFrame (columns df0)
    (List.filter (complete (columns df0) (features ++ ["war"])) (rows df0)).

Definition feature_frame (df0 : DataFrame) : DataFrame :=
  mkFrame (pick_all (columns df0) (columns df0) features)
    (map (fun r => mkRow (label r) (pick_all (columns df0) (cells r) features))
         (rows (kept_frame df0))).

Definition target_frame (df0 : DataFrame) : DataFrame :=
  mkFrame (pick_all (columns df0) (columns df0) ["war"])
    (map (fun r => mkRow (label r) (pick_all (columns df0) (cells r) ["war"]))
         (rows (kept_frame df0))).

(** Row [r] carries the integer [c] under ['cluster']. *)
Definition member (cols : list string) (c : Z) (r : row) : bool :=
  cell_is c (hd CNone (pick cols (cells r) "cluster")).

(** The listing expected for cluster [c]: the six report columns of its
    first five members, in table order. *)
Definition cluster_sample (df : DataFrame) (c : Z) : DataFrame :=
  mkFrame (pick_all (columns df) (columns df) report_columns)
    (firstn 5
       (map (fun r => mkRow (label r) (pick_all (columns df) (cells r) report_columns))
            (List.filter (member (columns df) c) (rows df)))).

(** The lines of the coefficient listing: one for each pair of a column
    label and an entry of a one-axis [coef_]; none is printed for a
    two-axis one. *)
Definition coef_lines (cols : list string) (a : ndarray) : list output :=
  match a with
  | Array1 v => map (fun q => PrintCoef (fst q) (snd q)) (combine cols v)
  | Array2 _ => []
  end.

(** ** Edges of a label *)

(** The text does not begin with a whitespace character. *)
Definition starts_clean (s : string) : bool :=
  match s with
  | EmptyString => true
  | String c _ => negb (PyStr.isspace c)
  end.

(** The text does not end with a whitespace character. *)
Fixpoint ends_clean (s : string) : bool :=
  match s with
  | EmptyString => true
  | String c s' =>
      match s' with
      | EmptyString => negb (PyStr.isspace c)
      | _ => ends_clean s'
      end
  end.

Fixpoint no_space (s : string) : bool :=
  match s with
  | EmptyString => true
  | String c s' => negb (PyStr.isspace c) && no_space s'
  end.

(** The text is made of whitespace characters only. *)
Fixpoint all_space (s : string) : bool :=
  match s with
  | EmptyString => true
  | String c s' => PyStr.isspace c && all_space s'
  end.

(** ** The renaming, character by character

    What the Loader's chain makes of one character of a name that has no
    whitespace around it: a space becomes an underscore, ['+'] the word
    [plus], ['%'] the word [percent], a capital letter its small letter, and
    any other character stays. *)
Definition rename_char (c : ascii) : string :=
  if Ascii.eqb c " " then "_"
  else if Ascii.eqb c "+" then "plus"
  else if Ascii.eqb c "%" then "percent"
  else if PyStr.isupper c then String (ascii_of_nat (PyStr.ord c + 32)) EmptyString
  else String c EmptyString.

Fixpoint renamed (core : string) : string :=
  match core with
  | EmptyString => EmptyString
  | String c s => (rename_char c ++ renamed s)%string
  end.

(** [name'] is [name] without the whitespace around it, renamed character
    by character. *)
Definition renaming_of (name name' : string) : Prop :=
  exists before core after,
    name = (before ++ core ++ after)%string /\
    all_space before = true /\ all_space after = true /\
    starts_clean core = true /\ ends_clean core = true /\
    name' = renamed core.

(** ** More tables *)

Module Cases.

(** The letter U+2102 (code point 8450), DOUBLE-STRUCK CAPITAL C.  Unicode gives it
    the category Lu (uppercase letter) and no lowercase form:
    [str.isupper] answers [True] on it and [str.lower] returns it as it is. *)
Definition double_struck_C : string := PyStr.chr 8450.


(** A table with a single, complete player. *)
Definition one_player : DataFrame := mkFrame Sample.header [Sample.player 0].

(** The sample with one more column, headed [war], next to [WAR]. *)
Definition two_targets : DataFrame :=
  mkFrame (Sample.header ++ ["war"])
    (map (fun r => mkRow (label r) (cells r ++ [Sample.stat (label r)])) (rows Sample.collinear)).

(** The sample without its WAR column. *)
Definition no_war : DataFrame :=
  mkFrame (removelast Sample.header)
    (map (fun r => mkRow (label r) (removelast (cells r))) (rows Sample.raw)).

(** Silhouette scores with a NaN at K = 2 and larger scores afterwards. *)
Definition nan_first (k : nat) : pyfloat :=
  match k with
  | 2 => S754_nan
  | _ => Toy.eighths (Pos.of_succ_nat k)
  end.

(** Five points: enough rows for K = 2, 3, 4 and too few for K = 5. *)
Definition five_points : matrix := firstn 5 Sample.points.

(** A clustered table that has lost its two name columns. *)
Definition no_names : DataFrame :=
  mkFrame ["on_base_percent"; "slg_percent"; "wrcplus"; "war"; "cluster"]
    (map (fun i => mkRow i [Sample.stat i; Sample.stat i; Sample.stat i; Sample.stat i;
                            CInt (if Nat.even i then 1 else 0)])
         (seq 0 4)).

End Cases.

(* ===================================================================== *)
(** * Properties *)
(* ===================================================================== *)

(** ** Strings *)

Section Replace.

Variable c : ascii.
Variable new : string.

Let pat : string := String c EmptyString.

Lemma replace_char_cons d s :
  PyStr.replace pat new (String d s) =
  if Ascii.eqb c d then (new ++ PyStr.replace pat new s)%string
  else String d (PyStr.replace pat new s).
Proof.
  unfold PyStr.replace, pat. simpl.
  destruct (ascii_dec c d) as [->|Hne].
  - rewrite Ascii.eqb_refl. destruct s; reflexivity.
  - apply Ascii.eqb_neq in Hne. rewrite Hne. reflexivity.
Qed.

Lemma contains_app x s t :
  PyStr.contains x (s ++ t)%string = PyStr.contains x s || PyStr.contains x t.
Proof.
  induction s as [|d s IH]; simpl; [reflexivity|].
  rewrite IH. apply orb_assoc.
Qed.

Lemma any_upper_app s t :
  PyStr.any_upper (s ++ t)%string = PyStr.any_upper s || PyStr.any_upper t.
Proof.
  induction s as [|d s IH]; simpl; [reflexivity|].
  rewrite IH. apply orb_assoc.
Qed.

(** The replaced character is gone, provided the replacement does not
    bring it back. *)
Lemma replace_removes s :
  PyStr.contains c new = false ->
  PyStr.contains c (PyStr.replace pat new s) = false.
Proof.
  intros Hnew. induction s as [|d s IH]; [reflexivity|].
  rewrite replace_char_cons.
  destruct (Ascii.eqb c d) eqn:E.
  - rewrite contains_app, Hnew, IH. reflexivity.
  - cbn [PyStr.contains]. rewrite E, IH. reflexivity.
Qed.

(** A character absent from the text and from the replacement stays absent. *)
Lemma replace_keeps_absent x s :
  PyStr.contains x new = false ->
  PyStr.contains x s = false ->
  PyStr.contains x (PyStr.replace pat new s) = false.
Proof.
  intros Hnew. induction s as [|d s IH]; intros Hs; [reflexivity|].
  simpl in Hs. apply orb_false_iff in Hs as [Hd Hs].
  rewrite replace_char_cons.
  destruct (Ascii.eqb c d).
  - rewrite contains_app, Hnew, (IH Hs). reflexivity.
  - cbn [PyStr.contains]. rewrite Hd, (IH Hs). reflexivity.
Qed.

Lemma replace_keeps_lower s :
  PyStr.any_upper new = false ->
  PyStr.any_upper s = false ->
  PyStr.any_upper (PyStr.replace pat new s) = false.
Proof.
  intros Hnew. induction s as [|d s IH]; intros Hs; [reflexivity|].
  simpl in Hs. apply orb_false_iff in Hs as [Hd Hs].
  rewrite replace_char_cons.
  destruct (Ascii.eqb c d).
  - rewrite any_upper_app, Hnew, (IH Hs). reflexivity.
  - cbn [PyStr.any_upper]. rewrite Hd, (IH Hs). reflexivity.
Qed.

End Replace.

Lemma lower_char_not_upper c : PyStr.isupper (PyStr.lower_char c) = false.
Proof.
  destruct c as [[] [] [] [] [] [] [] []]; reflexivity.
Qed.

Lemma lower_no_upper s : PyStr.any_upper (PyStr.lower s) = false.
Proof.
  induction s as [|c s IH]; simpl; [reflexivity|].
  rewrite lower_char_not_upper, IH. reflexivity.
Qed.

Lemma normalize_column_clean name : clean_name (normalize_column name).
Proof.
  unfold normalize_column.
  set (s0 := PyStr.lower (PyStr.strip name)).
  assert (U0 : PyStr.any_upper s0 = false) by apply lower_no_upper.
  set (s1 := PyStr.replace " " "_" s0).
  assert (U1 : PyStr.any_upper s1 = false)
    by (apply replace_keeps_lower; [reflexivity | exact U0]).
  assert (S1 : PyStr.contains " " s1 = false)
    by (apply replace_removes; reflexivity).
  set (s2 := PyStr.replace "+" "plus" s1).
  assert (U2 : PyStr.any_upper s2 = false)
    by (apply replace_keeps_lower; [reflexivity | exact U1]).
  assert (S2 : PyStr.contains " " s2 = false)
    by (apply replace_keeps_absent; [reflexivity | exact S1]).
  assert (P2 : PyStr.contains "+" s2 = false)
    by (apply replace_removes; reflexivity).
  repeat split.
  - apply replace_keeps_lower; [reflexivity | exact U2].
  - apply replace_keeps_absent; [reflexivity | exact S2].
  - apply replace_keeps_absent; [reflexivity | exact P2].
  - apply replace_removes; reflexivity.
Qed.

Example normalize_wrc : normalize_column " wRC+ " = "wrcplus".
Proof. reflexivity. Qed.

Example normalize_obp : normalize_column "On Base Percent" = "on_base_percent".
Proof. reflexivity. Qed.

Example normalize_k_is : normalize_column "K%" = "kpercent".
Proof. reflexivity. Qed.

(** *** Edges of a label *)

Lemma lstrip_starts_clean s : starts_clean (PyStr.lstrip s) = true.
Proof.
  induction s as [|c s IH]; simpl; [reflexivity|].
  destruct (PyStr.isspace c) eqn:E; [exact IH|]. simpl. rewrite E. reflexivity.
Qed.

Lemma lstrip_id s : starts_clean s = true -> PyStr.lstrip s = s.
Proof.
  destruct s as [|c s]; simpl; [reflexivity|].
  intros H. apply negb_true_iff in H. rewrite H. reflexivity.
Qed.

Lemma rstrip_ends_clean s : ends_clean (PyStr.rstrip s) = true.
Proof.
  induction s as [|c s IH]; simpl; [reflexivity|].
  destruct (PyStr.rstrip s) as [|d r] eqn:E.
  - destruct (PyStr.isspace c) eqn:Ec; simpl; [reflexivity|]. rewrite Ec. reflexivity.
  - simpl. simpl in IH. exact IH.
Qed.

Lemma rstrip_id s : ends_clean s = true -> PyStr.rstrip s = s.
Proof.
  induction s as [|c s IH]; simpl; [reflexivity|].
  destruct s as [|d s'].
  - simpl. intros H. apply negb_true_iff in H. rewrite H. reflexivity.
  - intros H. rewrite (IH H). reflexivity.
Qed.

Lemma rstrip_starts_clean s : starts_clean s = true -> starts_clean (PyStr.rstrip s) = true.
Proof.
  destruct s as [|c s]; [reflexivity|]. cbn [starts_clean PyStr.rstrip]. intros H.
  destruct (PyStr.rstrip s).
  - apply negb_true_iff in H. rewrite H. simpl. rewrite H. reflexivity.
  - simpl. exact H.
Qed.

Lemma isspace_lower_char c : PyStr.isspace (PyStr.lower_char c) = PyStr.isspace c.
Proof. destruct c as [[] [] [] [] [] [] [] []]; reflexivity. Qed.

Lemma lower_starts_clean s : starts_clean (PyStr.lower s) = starts_clean s.
Proof. destruct s as [|c s]; simpl; [reflexivity|]. rewrite isspace_lower_char. reflexivity. Qed.

Lemma lower_ends_clean s : ends_clean (PyStr.lower s) = ends_clean s.
Proof.
  induction s as [|c s IH]; [reflexivity|].
  cbn [PyStr.lower ends_clean]. destruct s as [|d s'].
  - simpl. rewrite isspace_lower_char. reflexivity.
  - cbn [PyStr.lower] in *. exact IH.
Qed.

Lemma lower_id s : PyStr.any_upper s = false -> PyStr.lower s = s.
Proof.
  induction s as [|c s IH]; simpl; [reflexivity|].
  intros H. apply orb_false_iff in H as [Hc Hs].
  unfold PyStr.lower_char. rewrite Hc, (IH Hs). reflexivity.
Qed.

Lemma ends_clean_app s t :
  t <> EmptyString -> ends_clean (s ++ t)%string = ends_clean t.
Proof.
  intros Ht. induction s as [|c s IH]; [reflexivity|].
  cbn [append ends_clean]. destruct (s ++ t)%string eqn:E.
  - destruct s; [simpl in E; contradiction | discriminate E].
  - exact IH.
Qed.

Section ReplaceEdges.

Variable c : ascii.
Variable new : string.
Hypothesis new_nonempty : new <> EmptyString.
Hypothesis new_no_space : no_space new = true.

Lemma replace_id s :
  PyStr.contains c s = false -> PyStr.replace (String c EmptyString) new s = s.
Proof.
  induction s as [|d s IH]; [reflexivity|].
  simpl PyStr.contains. intros H. apply orb_false_iff in H as [Hd Hs].
  rewrite replace_char_cons, Hd, (IH Hs). reflexivity.
Qed.

Lemma replace_nonempty d s :
  PyStr.replace (String c EmptyString) new (String d s) <> EmptyString.
Proof.
  rewrite replace_char_cons. destruct (Ascii.eqb c d); [|discriminate].
  destruct new; [contradiction | discriminate].
Qed.

Lemma no_space_ends s : no_space s = true -> ends_clean s = true.
Proof.
  induction s as [|d s IH]; [reflexivity|].
  cbn [no_space ends_clean]. intros H. apply andb_true_iff in H as [Hd Hs].
  destruct s; [exact Hd | exact (IH Hs)].
Qed.

Lemma replace_starts_clean s :
  starts_clean s = true ->
  starts_clean (PyStr.replace (String c EmptyString) new s) = true.
Proof.
  destruct s as [|d s]; [reflexivity|]. intros H.
  rewrite replace_char_cons. destruct (Ascii.eqb c d); [|exact H].
  destruct new as [|n0 new']; [contradiction|].
  simpl. simpl in new_no_space. apply andb_true_iff in new_no_space. tauto.
Qed.

Lemma replace_ends_clean s :
  ends_clean s = true ->
  ends_clean (PyStr.replace (String c EmptyString) new s) = true.
Proof.
  induction s as [|d s IH]; [reflexivity|]. intros H.
  destruct s as [|d' s'].
  - rewrite replace_char_cons. cbn [ends_clean] in H.
    destruct (Ascii.eqb c d).
    + change (PyStr.replace (String c EmptyString) new EmptyString) with EmptyString.
      replace (new ++ EmptyString)%string with new
        by (clear; induction new as [|x n IHn]; simpl; [reflexivity | rewrite <- IHn; reflexivity]).
      apply no_space_ends. exact new_no_space.
    + exact H.
  - cbn [ends_clean] in H. specialize (IH H).
    rewrite replace_char_cons. destruct (Ascii.eqb c d).
    + rewrite ends_clean_app; [exact IH | apply replace_nonempty].
    + cbn [ends_clean].
      destruct (PyStr.replace (String c EmptyString) new (String d' s')) eqn:E;
        [exfalso; exact (replace_nonempty d' s' E) | exact IH].
Qed.

End ReplaceEdges.

Lemma normalize_column_edges name :
  starts_clean (normalize_column name) = true /\ ends_clean (normalize_column name) = true.
Proof.
  unfold normalize_column.
  assert (S0 : starts_clean (PyStr.lower (PyStr.strip name)) = true).
  { rewrite lower_starts_clean. unfold PyStr.strip.
    apply rstrip_starts_clean, lstrip_starts_clean. }
  assert (E0 : ends_clean (PyStr.lower (PyStr.strip name)) = true).
  { rewrite lower_ends_clean. apply rstrip_ends_clean. }
  split.
  - repeat (apply replace_starts_clean; [discriminate | reflexivity |]). exact S0.
  - repeat (apply replace_ends_clean; [discriminate | reflexivity |]). exact E0.
Qed.

(** *** The chain, character by character *)

Lemma append_assoc (a b c : string) : ((a ++ b) ++ c)%string = (a ++ (b ++ c))%string.
Proof. induction a as [|x a IH]; simpl; [reflexivity | rewrite IH; reflexivity]. Qed.

Lemma replace_char_app c new a b :
  PyStr.replace (String c EmptyString) new (a ++ b) =
  (PyStr.replace (String c EmptyString) new a ++ PyStr.replace (String c EmptyString) new b)%string.
Proof.
  induction a as [|d a IH]; [reflexivity|].
  cbn [append]. rewrite !replace_char_cons, IH.
  destruct (Ascii.eqb c d); [rewrite append_assoc|]; reflexivity.
Qed.

Lemma chain_char c :
  PyStr.replace "%" "percent"
    (PyStr.replace "+" "plus"
       (PyStr.replace " " "_" (String (PyStr.lower_char c) EmptyString))) = rename_char c.
Proof. destruct c as [[] [] [] [] [] [] [] []]; reflexivity. Qed.

Lemma chain_renamed s :
  PyStr.replace "%" "percent"
    (PyStr.replace "+" "plus" (PyStr.replace " " "_" (PyStr.lower s))) = renamed s.
Proof.
  induction s as [|c s IH]; [reflexivity|].
  cbn [PyStr.lower renamed].
  change (String (PyStr.lower_char c) (PyStr.lower s))
    with (String (PyStr.lower_char c) EmptyString ++ PyStr.lower s)%string.
  rewrite !replace_char_app, chain_char, IH. reflexivity.
Qed.

Lemma lstrip_split s :
  exists before, s = (before ++ PyStr.lstrip s)%string /\ all_space before = true.
Proof.
  induction s as [|c s [before [Hs Hb]]]; [exists EmptyString; auto|].
  cbn [PyStr.lstrip]. destruct (PyStr.isspace c) eqn:E.
  - exists (String c before). cbn [append all_space]. rewrite E, Hb, <- Hs. auto.
  - exists EmptyString. auto.
Qed.

Lemma rstrip_split s :
  exists after, s = (PyStr.rstrip s ++ after)%string /\ all_space after = true.
Proof.
  induction s as [|c s [after [Hs Ha]]]; [exists EmptyString; auto|].
  cbn [PyStr.rstrip]. destruct (PyStr.rstrip s) as [|d r] eqn:E.
  - cbn [append] in Hs. subst after. destruct (PyStr.isspace c) eqn:Ec.
    + exists (String c s). cbn [append all_space]. rewrite Ec, Ha. auto.
    + exists s. auto.
  - exists after. cbn [append] in *. rewrite <- Hs. auto.
Qed.

Lemma normalize_column_renaming name : renaming_of name (normalize_column name).
Proof.
  destruct (lstrip_split name) as [before [Hn Hb]].
  destruct (rstrip_split (PyStr.lstrip name)) as [after [Hl Ha]].
  exists before, (PyStr.strip name), after. unfold PyStr.strip.
  split; [rewrite <- Hl; exact Hn|]. split; [exact Hb|]. split; [exact Ha|].
  split; [apply rstrip_starts_clean, lstrip_starts_clean|].
  split; [apply rstrip_ends_clean|].
  unfold normalize_column. apply chain_renamed.
Qed.

Lemma isascii_app a b : PyStr.isascii (a ++ b) = PyStr.isascii a && PyStr.isascii b.
Proof.
  induction a as [|c a IH]; [reflexivity|].
  cbn [append PyStr.isascii]. rewrite IH. apply andb_assoc.
Qed.

Lemma rename_char_ascii c :
  (PyStr.ord c <? 128)%nat = true -> PyStr.isascii (rename_char c) = true.
Proof. destruct c as [[] [] [] [] [] [] [] []]; intros H; try reflexivity; discriminate H. Qed.

Lemma renamed_ascii s : PyStr.isascii s = true -> PyStr.isascii (renamed s) = true.
Proof.
  induction s as [|c s IH]; [reflexivity|].
  cbn [PyStr.isascii renamed]. intros H. apply andb_true_iff in H as [Hc Hs].
  rewrite isascii_app, (rename_char_ascii c Hc), (IH Hs). reflexivity.
Qed.

Lemma normalize_column_ascii name :
  PyStr.isascii name = true -> PyStr.isascii (normalize_column name) = true.
Proof.
  intros H. destruct (normalize_column_renaming name) as (b & core & a & Hn & _ & _ & _ & _ & ->).
  apply renamed_ascii. rewrite Hn, !isascii_app in H.
  apply andb_true_iff in H as [_ H]. apply andb_true_iff in H as [H _]. exact H.
Qed.

(** ** Running cells *)

Lemma bind_lift {A B} (r : result A) (f : A -> Cell B) :
  bind (lift r) f = match r with Ok a => f a | Raise e => ([], Raise e) end.
Proof.
  destruct r as [a|e]; simpl; [|reflexivity].
  destruct (f a); reflexivity.
Qed.

Ltac lift_step H :=
  rewrite bind_lift in H;
  match type of H with
  | context [match ?r with Ok _ => _ | Raise _ => _ end] =>
      let E := fresh "E" in destruct r eqn:E; [|discriminate H]
  end.

Lemma bind_emit {B} (o : output) (f : unit -> Cell B) :
  bind (emit o) f = (o :: fst (f tt), snd (f tt)).
Proof. simpl. destruct (f tt); reflexivity. Qed.

Lemma bind_ok_inv {A B} (c : Cell A) (f : A -> Cell B) o b :
  bind c f = (o, Ok b) ->
  exists o1 a o2, c = (o1, Ok a) /\ f a = (o2, Ok b) /\ o = o1 ++ o2.
Proof.
  destruct c as [o1 [a|e]]; simpl; [|discriminate].
  destruct (f a) as [o2 r] eqn:E. intros [= <- ->].
  exists o1, a, o2. auto.
Qed.

Lemma res_bind_ok_inv {A B} (r : result A) (f : A -> result B) b :
  res_bind r f = Ok b -> exists a, r = Ok a /\ f a = Ok b.
Proof. destruct r as [a|e]; simpl; [eauto | discriminate]. Qed.

Lemma deref_assign_same (h : store) r df :
  r < length h -> deref (assign h r df) r = Ok df.
Proof.
  intros Hr. unfold deref, assign. rewrite list_lookup_insert_eq by exact Hr. reflexivity.
Qed.

Lemma deref_Some (h : store) r df : deref h r = Ok df <-> h !! r = Some df.
Proof.
  unfold deref. destruct (h !! r); split; congruence.
Qed.

(** ** Loader *)

Lemma set_columns_same_length names df :
  length names = length (columns df) ->
  set_columns names df = Ok {| columns := names; rows := rows df |}.
Proof. intros H. unfold set_columns. rewrite H, Nat.eqb_refl. reflexivity. Qed.

(** C3, as the code has it.  Whenever [read_csv] returns a table whose
    header names are ASCII text, the Loader completes; the table it leaves
    in [df] has the same rows, and its column names are the raw ones put
    through strip, lower and the three replacements, in that order.  Each
    new name is the raw name without the whitespace around it, renamed
    character by character (a space to an underscore, ['+'] to [plus],
    ['%'] to [percent], a capital to its small letter); it is ASCII text,
    has no whitespace at either end and contains no uppercase letter, no
    space, no ['+'] and no ['%']. *)
Theorem loader_normalizes_header (L : Library) (raw : DataFrame) :
  read_csv L "WAR Stats.csv" = Ok raw ->
  Forall (fun n => PyStr.isascii n = true) (columns raw) ->
  exists l df,
    load L = ([ShowColumns (columns df)], Ok l) /\
    deref (l_store l) (l_df l) = Ok df /\
    rows df = rows raw /\
    columns df =
      map (fun n => PyStr.replace "%" "percent"
                      (PyStr.replace "+" "plus"
                         (PyStr.replace " " "_"
                            (PyStr.lower (PyStr.strip n))))) (columns raw) /\
    Forall2 renaming_of (columns raw) (columns df) /\
    Forall (fun n => PyStr.isascii n = true /\
                     starts_clean n = true /\ ends_clean n = true) (columns df) /\
    Forall clean_name (columns df).
Proof.
  intros Hcsv Hascii.
  exists (mkLoaded [ {| columns := map normalize_column (columns raw); rows := rows raw |} ] 0).
  exists {| columns := map normalize_column (columns raw); rows := rows raw |}.
  split; [|split; [|split; [|split; [|split; [|split]]]]].
  - unfold load. rewrite Hcsv, bind_lift. cbn [alloc app].
    rewrite set_columns_same_length by (rewrite length_map; reflexivity).
    rewrite bind_lift. reflexivity.
  - reflexivity.
  - reflexivity.
  - reflexivity.
  - cbn [columns]. clear. induction (columns raw) as [|n ns IH]; constructor;
      [apply normalize_column_renaming | exact IH].
  - cbn [columns]. apply List.Forall_forall. intros n Hn.
    apply in_map_iff in Hn as [raw_n [<- Hraw]].
    rewrite List.Forall_forall in Hascii.
    split; [exact (normalize_column_ascii raw_n (Hascii raw_n Hraw))|].
    apply normalize_column_edges.
  - cbn [columns]. apply List.Forall_forall. intros n Hn.
    apply in_map_iff in Hn as [raw_n [<- _]]. apply normalize_column_clean.
Qed.

Lemma loader_normalizes_header_witness :
  Forall (fun n => PyStr.isascii n = true) (columns Sample.raw) /\
  exists l df,
    load (Sample.lib Sample.raw) = ([ShowColumns (columns df)], Ok l) /\
    deref (l_store l) (l_df l) = Ok df /\
    rows df = rows Sample.raw /\
    columns df =
      map (fun n => PyStr.replace "%" "percent"
                      (PyStr.replace "+" "plus"
                         (PyStr.replace " " "_"
                            (PyStr.lower (PyStr.strip n))))) (columns Sample.raw) /\
    Forall2 renaming_of (columns Sample.raw) (columns df) /\
    Forall (fun n => PyStr.isascii n = true /\
                     starts_clean n = true /\ ends_clean n = true) (columns df) /\
    Forall clean_name (columns df).
Proof.
  assert (H : Forall (fun n => PyStr.isascii n = true) (columns Sample.raw))
    by (repeat constructor).
  split; [exact H|].
  apply (loader_normalizes_header (Sample.lib Sample.raw) Sample.raw); [reflexivity | exact H].
Defined.

(** A header made of the letter U+2102 alone.  It is not ASCII text; strip,
    lower and the replacements leave it as it is, so the Loader's table has
    a column name that is an uppercase letter. *)
Lemma loader_keeps_capital_without_small_form :
  PyStr.isascii Cases.double_struck_C = false /\
  normalize_column Cases.double_struck_C = Cases.double_struck_C /\
  load (Sample.lib (mkFrame [Cases.double_struck_C] [])) =
    ([ShowColumns [Cases.double_struck_C]],
     Ok (mkLoaded [mkFrame [Cases.double_struck_C] []] 0)).
Proof. split; [|split]; reflexivity. Qed.

Example sample_columns :
  map normalize_column Sample.header =
  [ "first"; "last"; "on_base_percent"; "slg_percent"; "isolated_power";
    "k_percent"; "bb_percent"; "exit_velocity_avg"; "sprint_speed"; "wrcplus";
    "f_fielding"; "spd"; "war" ].
Proof. reflexivity. Qed.

(** ** Feature Preparer *)

Lemma missing_labels_app cols a b :
  missing_labels cols (a ++ b) = [] <->
  missing_labels cols a = [] /\ missing_labels cols b = [].
Proof.
  unfold missing_labels. rewrite List.filter_app. split.
  - intros H. apply app_eq_nil in H. exact H.
  - intros [-> ->]. reflexivity.
Qed.

Lemma pick_all_app {A} cols (xs : list A) a b :
  pick_all cols xs (a ++ b) = pick_all cols xs a ++ pick_all cols xs b.
Proof. unfold pick_all. apply flat_map_app. Qed.

Lemma pick_all_single {A} cols (xs : list A) n : pick_all cols xs [n] = pick cols xs n.
Proof. unfold pick_all. simpl. apply app_nil_r. Qed.

Lemma complete_iff cols subset r :
  complete cols subset r = true <-> row_complete cols subset r.
Proof.
  unfold complete, row_complete, pick_all.
  rewrite forallb_forall. split.
  - intros H n Hn c Hc.
    specialize (H c). rewrite in_flat_map in H.
    apply negb_true_iff. apply H. exists n. auto.
  - intros H c Hc. apply in_flat_map in Hc as [n [Hn Hc]].
    apply negb_true_iff. eapply H; eauto.
Qed.

Lemma complete_no_missing cols a b r :
  complete cols (a ++ b) r = true ->
  Forall (fun c => isna c = false) (pick_all cols (cells r) a) /\
  Forall (fun c => isna c = false) (pick_all cols (cells r) b).
Proof.
  unfold complete. rewrite pick_all_app, forallb_app.
  intros [Ha Hb]%andb_true_iff.
  split; apply List.Forall_forall; intros c Hc; apply negb_true_iff;
    [ exact (proj1 (forallb_forall _ _) Ha c Hc)
    | exact (proj1 (forallb_forall _ _) Hb c Hc) ].
Qed.

Lemma filter_length_le {A} (f : A -> bool) l : length (List.filter f l) <= length l.
Proof.
  induction l as [|x l IH]; simpl; [lia|]. destruct (f x); simpl; lia.
Qed.

Lemma prepare_run (l : Loaded) (df0 : DataFrame) :
  deref (l_store l) (l_df l) = Ok df0 ->
  missing_labels (columns df0) (features ++ ["war"]) = [] ->
  prepare l =
    ([], Ok (mkPrepared
               (((l_store l ++ [kept_frame df0]) ++ [feature_frame df0])
                ++ [target_frame df0])
               (length (l_store l)) (S (length (l_store l)))
               (S (S (length (l_store l)))))).
Proof.
  intros Hdf Hmiss.
  pose proof Hmiss as Hboth. apply missing_labels_app in Hboth as [Hf Hw].
  unfold prepare. rewrite Hdf, bind_lift.
  unfold dropna. rewrite Hmiss, bind_lift. cbn [alloc].
  unfold select. cbn [columns rows]. rewrite Hf, bind_lift, Hw, bind_lift.
  unfold ret. do 2 f_equal.
  f_equal; rewrite ?length_app; simpl; lia.
Qed.

Lemma prepare_inv (l : Loaded) o p :
  prepare l = (o, Ok p) ->
  exists df0,
    deref (l_store l) (l_df l) = Ok df0 /\
    missing_labels (columns df0) (features ++ ["war"]) = [].
Proof.
  unfold prepare. intros H. lift_step H.
  exists a. split; [reflexivity|].
  unfold dropna in H.
  destruct (missing_labels (columns a) (features ++ ["war"])); [reflexivity|].
  rewrite bind_lift in H. discriminate.
Qed.

Lemma has_column_In cols name : has_column cols name = true <-> In name cols.
Proof.
  unfold has_column. rewrite existsb_exists. split.
  - intros [x [Hx Heq]]. apply String.eqb_eq in Heq. subst x. exact Hx.
  - intros H. exists name. split; [exact H | apply String.eqb_refl].
Qed.

Lemma pick_cons {A} c cols (x : A) xs name :
  pick (c :: cols) (x :: xs) name =
  (if String.eqb c name then [x] else []) ++ pick cols xs name.
Proof. unfold pick. simpl. destruct (String.eqb c name); reflexivity. Qed.

Lemma pick_length {A} cols : forall (xs : list A) name,
  length xs = length cols -> length (pick cols xs name) = length (pick cols cols name).
Proof.
  induction cols as [|c cols IH]; intros [|x xs] name H; simpl in H; try discriminate.
  - reflexivity.
  - rewrite !pick_cons, !length_app, (IH xs name) by lia.
    destruct (String.eqb c name); reflexivity.
Qed.

Lemma pick_no_column {A} cols : forall (xs : list A) name,
  has_column cols name = false -> pick cols xs name = [].
Proof.
  unfold pick, has_column.
  induction cols as [|c cols IH]; intros [|x xs] name Hhas; simpl in *;
    try reflexivity.
  rewrite String.eqb_sym in Hhas.
  destruct (String.eqb c name); simpl in *; [discriminate|].
  apply IH. exact Hhas.
Qed.

Lemma map_lookup {A B} (f : A -> B) : forall l i x,
  l !! i = Some x -> map f l !! i = Some (f x).
Proof.
  induction l as [|y l IH]; intros [|i] x H; simpl in *; try discriminate.
  - injection H as <-. reflexivity.
  - exact (IH i x H).
Qed.

Lemma missing_labels_In cols names n :
  In n (missing_labels cols names) <-> In n names /\ ~ In n cols.
Proof.
  unfold missing_labels. rewrite filter_In, negb_true_iff.
  split; intros [H1 H2]; (split; [exact H1|]).
  - intros Hin. apply has_column_In in Hin. congruence.
  - destruct (has_column cols n) eqn:E; [|reflexivity].
    apply has_column_In in E. contradiction.
Qed.

Lemma missing_labels_nil_In cols names n :
  missing_labels cols names = [] -> In n names -> In n cols.
Proof.
  intros Hmiss Hn. destruct (has_column cols n) eqn:E; [apply has_column_In; exact E|].
  assert (Hin : In n (missing_labels cols names)).
  { apply missing_labels_In. split; [exact Hn|]. intros H.
    apply has_column_In in H. congruence. }
  rewrite Hmiss in Hin. contradiction.
Qed.

Lemma pick_label_unique cols name :
  List.NoDup cols -> In name cols -> pick cols cols name = [name].
Proof.
  induction cols as [|c cols IH]; intros Hnd Hin; [contradiction|].
  apply NoDup_cons_iff in Hnd as [Hc Hnd]. rewrite pick_cons.
  destruct (String.eqb_spec c name) as [->|Hne].
  - rewrite pick_no_column; [reflexivity|].
    destruct (has_column cols name) eqn:E; [|reflexivity].
    apply has_column_In in E. contradiction.
  - destruct Hin as [->|Hin]; [contradiction|]. exact (IH Hnd Hin).
Qed.

Lemma pick_all_labels cols names :
  List.NoDup cols -> missing_labels cols names = [] -> pick_all cols cols names = names.
Proof.
  intros Hnd. induction names as [|n names IH]; intros Hmiss; [reflexivity|].
  change (n :: names) with ([n] ++ names) in Hmiss.
  apply missing_labels_app in Hmiss as [Hn Hrest].
  assert (Hin : In n cols).
  { destruct (has_column cols n) eqn:E; [apply has_column_In; exact E|].
    unfold missing_labels in Hn. simpl in Hn. rewrite E in Hn. discriminate. }
  unfold pick_all in *. cbn [flat_map].
  rewrite (pick_label_unique cols n Hnd Hin), (IH Hrest). reflexivity.
Qed.

(** [pick] by position: the cells under a label are the cells at the
    positions that carry the label. *)
Lemma pick_In {A} cols : forall (xs : list A) n c,
  In c (pick cols xs n) <-> exists j, cols !! j = Some n /\ xs !! j = Some c.
Proof.
  induction cols as [|d cols IH]; intros [|x xs] n c.
  - split; [intros [] | intros [j [H _]]; destruct j; discriminate H].
  - split; [intros [] | intros [j [H _]]; destruct j; discriminate H].
  - split; [intros [] | intros [j [_ H]]; destruct j; discriminate H].
  - rewrite pick_cons, in_app_iff, IH. split.
    + intros [H|[j Hj]]; [|exists (S j); exact Hj].
      destruct (String.eqb_spec d n) as [->|]; [|destruct H].
      destruct H as [<-|[]]. exists 0. auto.
    + intros [[|j] [Hc Hx]]; simpl in Hc, Hx.
      * injection Hc as ->. injection Hx as ->. left. rewrite String.eqb_refl. left. reflexivity.
      * right. exists j. auto.
Qed.

Lemma pick_at {A} cols : forall (xs : list A) j n,
  List.NoDup cols -> cols !! j = Some n ->
  pick cols xs n = match xs !! j with Some x => [x] | None => [] end.
Proof.
  induction cols as [|d cols IH]; intros xs j n Hnd Hj; [destruct j; discriminate Hj|].
  apply NoDup_cons_iff in Hnd as [Hd Hnd].
  destruct xs as [|x xs]; [destruct j; reflexivity|].
  rewrite pick_cons. destruct j as [|j]; simpl in Hj.
  - injection Hj as ->. rewrite String.eqb_refl. cbn [lookup list_lookup].
    rewrite pick_no_column; [reflexivity|].
    destruct (has_column cols n) eqn:E; [|reflexivity].
    apply has_column_In in E. contradiction.
  - destruct (String.eqb_spec d n) as [->|_].
    + exfalso. apply Hd. apply list_elem_of_In. eapply list_elem_of_lookup_2. exact Hj.
    + exact (IH xs j n Hnd Hj).
Qed.

Lemma pick_all_In {A} cols (xs : list A) names c :
  In c (pick_all cols xs names) <->
  exists j n, In n names /\ cols !! j = Some n /\ xs !! j = Some c.
Proof.
  unfold pick_all. rewrite in_flat_map. split.
  - intros [n [Hn Hc]]. apply pick_In in Hc as [j Hj]. exists j, n. tauto.
  - intros [j [n [Hn Hj]]]. exists n. split; [exact Hn|]. apply pick_In. exists j. exact Hj.
Qed.

(** With distinct labels and one cell per column, the projection on
    [names] holds at place [k] the cell that sat under the [k]-th name. *)
Lemma pick_all_lookup {A} cols (xs : list A) : forall names k n j,
  List.NoDup cols -> length xs = length cols ->
  missing_labels cols names = [] ->
  names !! k = Some n -> cols !! j = Some n ->
  pick_all cols xs names !! k = xs !! j /\
  length (pick_all cols xs names) = length names.
Proof.
  intros names k n j Hnd Hlen. revert k n j.
  assert (Hone : forall m, In m cols -> exists i x,
            cols !! i = Some m /\ xs !! i = Some x /\ pick cols xs m = [x]).
  { intros m Hm. apply list_elem_of_In, list_elem_of_lookup_1 in Hm as [i Hi].
    destruct (xs !! i) as [x|] eqn:Hx.
    - exists i, x. rewrite (pick_at cols xs i m Hnd Hi), Hx. auto.
    - apply lookup_ge_None in Hx. apply lookup_lt_Some in Hi. lia. }
  induction names as [|m names IH]; intros k n j Hmiss Hk Hj; [destruct k; discriminate Hk|].
  change (m :: names) with ([m] ++ names) in Hmiss.
  apply missing_labels_app in Hmiss as [Hm Hrest].
  assert (Hmin : In m cols).
  { destruct (has_column cols m) eqn:E; [apply has_column_In; exact E|].
    unfold missing_labels in Hm. simpl in Hm. rewrite E in Hm. discriminate Hm. }
  destruct (Hone m Hmin) as (i & x & Hi & Hx & Hpick).
  assert (Hlen' : length (pick_all cols xs names) = length names).
  { clear IH Hk. induction names as [|m' names' IH']; [reflexivity|].
    change (m' :: names') with ([m'] ++ names') in Hrest.
    apply missing_labels_app in Hrest as [Hm' Hrest'].
    assert (Hin' : In m' cols).
    { destruct (has_column cols m') eqn:E; [apply has_column_In; exact E|].
      unfold missing_labels in Hm'. simpl in Hm'. rewrite E in Hm'. discriminate Hm'. }
    destruct (Hone m' Hin') as (i' & x' & _ & _ & Hp').
    unfold pick_all in *. cbn [flat_map]. rewrite Hp'. simpl. rewrite (IH' Hrest'). reflexivity. }
  unfold pick_all in *. cbn [flat_map]. rewrite Hpick. cbn [app].
  split; [|simpl; rewrite Hlen'; reflexivity].
  destruct k as [|k]; simpl in Hk.
  - injection Hk as ->. cbn [lookup list_lookup].
    assert (i = j) by (eapply NoDup_lookup; [apply NoDup_ListNoDup; exact Hnd | exact Hi | exact Hj]).
    subst i. symmetry. exact Hx.
  - exact (proj1 (IH k n j Hrest Hk Hj)).
Qed.

Lemma isna_present c : isna c = false <-> present c.
Proof.
  unfold present. destruct c as [f| | |]; simpl; try (split; [split; discriminate | reflexivity]).
  - destruct f; simpl; split; try (intros _; split; discriminate); try reflexivity.
    + discriminate.
    + intros [_ H]. contradiction H. reflexivity.
  - split; [discriminate | intros [H _]; contradiction H; reflexivity].
Qed.

Lemma complete_has_values cols subset r :
  complete cols subset r = true <-> has_values cols subset r.
Proof.
  rewrite complete_iff. unfold row_complete, has_values. split.
  - intros H j n c Hn Hj Hc. apply isna_present. apply (H n Hn).
    apply pick_In. exists j. auto.
  - intros H n Hn c Hc. apply pick_In in Hc as [j [Hj Hc]].
    apply isna_present. exact (H j n c Hn Hj Hc).
Qed.

(** C2.  When the table has the ten feature columns and ['war'], the
    Feature Preparer completes.  The rows it keeps are exactly the input
    rows that hold a value (neither [None] nor NaN) at every position whose
    column label is one of those eleven, in their input order, so their
    number is the number of such rows.  [X] and [y] have one row for each
    kept row, in the same order and with the same index label; the cells of
    a row of [X] are the kept row's cells at the positions labelled by a
    feature, those of [y] its cells at the positions labelled ['war'], and
    none of them is missing.  On a rectangular table with distinct labels,
    the [k]-th cell of a row of [X] is the kept row's cell under the [k]-th
    feature, and the row of [y] holds its ['war'] cell. *)
Theorem prepare_keeps_complete_rows (l : Loaded) (df0 : DataFrame) :
  deref (l_store l) (l_df l) = Ok df0 ->
  missing_labels (columns df0) (features ++ ["war"]) = [] ->
  exists p df X y,
    prepare l = ([], Ok p) /\
    deref (p_store p) (p_df p) = Ok df /\
    deref (p_store p) (p_X p) = Ok X /\
    deref (p_store p) (p_y p) = Ok y /\
    columns df = columns df0 /\
    rows df = List.filter (complete (columns df0) (features ++ ["war"])) (rows df0) /\
    (forall r, complete (columns df0) (features ++ ["war"]) r = true <->
               has_values (columns df0) (features ++ ["war"]) r) /\
    (forall r, In r (rows df) <->
               In r (rows df0) /\ has_values (columns df0) (features ++ ["war"]) r) /\
    (forall r, In r (rows df) <->
               In r (rows df0) /\ row_complete (columns df0) (features ++ ["war"]) r) /\
    nrows df = length (List.filter (complete (columns df0) (features ++ ["war"])) (rows df0)) /\
    nrows df <= nrows df0 /\
    rows X = map (fun r => mkRow (label r) (pick_all (columns df0) (cells r) features))
                 (rows df) /\
    rows y = map (fun r => mkRow (label r) (pick (columns df0) (cells r) "war"))
                 (rows df) /\
    nrows X = nrows df /\ nrows y = nrows df /\
    (forall i r, rows df !! i = Some r ->
       exists x t,
         rows X !! i = Some x /\ rows y !! i = Some t /\
         label x = label r /\ label t = label r /\
         (forall c, In c (cells x) <->
                    exists j n, In n features /\ columns df0 !! j = Some n /\
                                cells r !! j = Some c) /\
         (forall c, In c (cells t) <->
                    exists j, columns df0 !! j = Some "war" /\ cells r !! j = Some c) /\
         Forall present (cells x) /\ Forall present (cells t)) /\
    (frame_ok df0 -> List.NoDup (columns df0) ->
     forall i r x t,
       rows df !! i = Some r -> rows X !! i = Some x -> rows y !! i = Some t ->
       length (cells x) = 10 /\
       (forall k n j, features !! k = Some n -> columns df0 !! j = Some n ->
                      cells x !! k = cells r !! j) /\
       (forall j, columns df0 !! j = Some "war" ->
                  exists c, cells r !! j = Some c /\ cells t = [c])) /\
    no_missing X /\ no_missing y.
Proof.
  intros Hdf Hmiss.
  pose proof Hmiss as Hboth. apply missing_labels_app in Hboth as [Hf Hw].
  set (kept := List.filter (complete (columns df0) (features ++ ["war"])) (rows df0)).
  set (df := mkFrame (columns df0) kept).
  set (X := mkFrame (pick_all (columns df0) (columns df0) features)
              (map (fun r => mkRow (label r) (pick_all (columns df0) (cells r) features)) kept)).
  set (y := mkFrame (pick_all (columns df0) (columns df0) ["war"])
              (map (fun r => mkRow (label r) (pick_all (columns df0) (cells r) ["war"])) kept)).
  set (n := length (l_store l)).
  exists (mkPrepared (((l_store l ++ [df]) ++ [X]) ++ [y]) n (S n) (S (S n))), df, X, y.
  pose proof (prepare_run l df0 Hdf Hmiss) as Hrun.
  change (kept_frame df0) with df in Hrun.
  change (feature_frame df0) with X in Hrun.
  change (target_frame df0) with y in Hrun.
  assert (Hkept : forall r, In r kept -> complete (columns df0) (features ++ ["war"]) r = true).
  { intros r Hr. apply filter_In in Hr. tauto. }
  assert (Hpresent : forall r, In r kept ->
            Forall present (pick_all (columns df0) (cells r) features) /\
            Forall present (pick_all (columns df0) (cells r) ["war"])).
  { intros r Hr. destruct (complete_no_missing _ _ _ _ (Hkept r Hr)) as [H1 H2].
    split; (eapply Forall_impl; [eassumption|]); intros c Hc; apply isna_present; exact Hc. }
  assert (Hwide : frame_ok df0 -> forall r, In r kept -> length (cells r) = length (columns df0)).
  { intros Hok r Hr. apply filter_In in Hr as [Hr _].
    unfold frame_ok in Hok. rewrite List.Forall_forall in Hok. exact (Hok r Hr). }
  split; [exact Hrun|].
  split; [|split; [|split]].
  - apply deref_Some. cbn [p_store p_df].
    rewrite lookup_app_l by (rewrite !length_app; simpl; lia).
    rewrite lookup_app_l by (rewrite !length_app; simpl; lia).
    rewrite lookup_app_r by (unfold n; lia).
    unfold n. rewrite Nat.sub_diag. reflexivity.
  - apply deref_Some. cbn [p_store p_X].
    rewrite lookup_app_l by (rewrite !length_app; simpl; unfold n; lia).
    rewrite lookup_app_r by (rewrite !length_app; simpl; unfold n; lia).
    rewrite length_app. simpl. unfold n.
    replace (S (length (l_store l)) - (length (l_store l) + 1)) with 0 by lia.
    reflexivity.
  - apply deref_Some. cbn [p_store p_y].
    rewrite lookup_app_r by (rewrite !length_app; simpl; unfold n; lia).
    rewrite !length_app. simpl. unfold n.
    replace (S (S (length (l_store l))) - (length (l_store l) + 1 + 1)) with 0 by lia.
    reflexivity.
  - split; [reflexivity|]. split; [reflexivity|].
    split; [intros r; apply complete_has_values|].
    split.
    { intros r. cbn [rows df]. unfold kept. rewrite filter_In, complete_has_values. tauto. }
    split.
    { intros r. cbn [rows df]. unfold kept. rewrite filter_In, complete_iff. tauto. }
    split; [reflexivity|].
    split; [apply filter_length_le|].
    split; [reflexivity|].
    split.
    { cbn [rows y df]. apply map_ext. intros r. rewrite pick_all_single. reflexivity. }
    split; [apply length_map|]. split; [apply length_map|].
    split; [|split; [|split]].
    + intros i r Hi. cbn [rows df] in Hi.
      assert (Hr : In r kept)
        by (apply list_elem_of_In; eapply list_elem_of_lookup_2; exact Hi).
      eexists _, _.
      split; [cbn [rows X]; apply map_lookup; exact Hi|].
      split; [cbn [rows y]; apply map_lookup; exact Hi|].
      cbn [label cells]. split; [reflexivity|]. split; [reflexivity|].
      split; [intros c; apply pick_all_In|].
      split; [|exact (Hpresent r Hr)].
      intros c. rewrite pick_all_single. apply pick_In.
    + intros Hok Hnd i r x t Hi Hx Ht. cbn [rows df] in Hi.
      assert (Hr : In r kept)
        by (apply list_elem_of_In; eapply list_elem_of_lookup_2; exact Hi).
      cbn [rows X] in Hx. rewrite (map_lookup _ _ _ _ Hi) in Hx. injection Hx as <-.
      cbn [rows y] in Ht. rewrite (map_lookup _ _ _ _ Hi) in Ht. injection Ht as <-.
      cbn [cells].
      split; [|split].
      * assert (Hin : In "on_base_percent" (columns df0))
          by (apply (missing_labels_nil_In _ _ _ Hf); left; reflexivity).
        apply list_elem_of_In, list_elem_of_lookup_1 in Hin as [j Hj].
        apply (pick_all_lookup (columns df0) (cells r) features 0 "on_base_percent" j
                 Hnd (Hwide Hok r Hr) Hf eq_refl Hj).
      * intros k m j Hk Hj.
        apply (pick_all_lookup (columns df0) (cells r) features k m j Hnd
                 (Hwide Hok r Hr) Hf Hk Hj).
      * intros j Hj.
        change (pick_all (columns df0) (cells r) ["war"])
          with (pick (columns df0) (cells r) "war" ++ []).
        rewrite app_nil_r, (pick_at _ _ j "war" Hnd Hj).
        destruct (cells r !! j) as [c|] eqn:Hc; [exists c; auto|].
        apply lookup_ge_None in Hc. apply lookup_lt_Some in Hj.
        rewrite (Hwide Hok r Hr) in Hc. lia.
    + unfold no_missing. cbn [rows X]. apply List.Forall_forall. intros r Hr.
      apply in_map_iff in Hr as [r0 [<- Hr0]]. cbn [cells].
      apply (complete_no_missing _ _ _ _ (Hkept r0 Hr0)).
    + unfold no_missing. cbn [rows y]. apply List.Forall_forall. intros r Hr.
      apply in_map_iff in Hr as [r0 [<- Hr0]]. cbn [cells].
      apply (complete_no_missing _ _ _ _ (Hkept r0 Hr0)).
Qed.

Lemma prepare_keeps_complete_rows_witness :
  let l := Sample.loaded Sample.raw in
  let df0 := mkFrame (map normalize_column Sample.header) (rows Sample.raw) in
  exists p df X y,
    prepare l = ([], Ok p) /\
    deref (p_store p) (p_df p) = Ok df /\
    deref (p_store p) (p_X p) = Ok X /\
    deref (p_store p) (p_y p) = Ok y /\
    columns df = columns df0 /\
    rows df = List.filter (complete (columns df0) (features ++ ["war"])) (rows df0) /\
    (forall r, complete (columns df0) (features ++ ["war"]) r = true <->
               has_values (columns df0) (features ++ ["war"]) r) /\
    (forall r, In r (rows df) <->
               In r (rows df0) /\ has_values (columns df0) (features ++ ["war"]) r) /\
    (forall r, In r (rows df) <->
               In r (rows df0) /\ row_complete (columns df0) (features ++ ["war"]) r) /\
    nrows df = length (List.filter (complete (columns df0) (features ++ ["war"])) (rows df0)) /\
    nrows df <= nrows df0 /\
    rows X = map (fun r => mkRow (label r) (pick_all (columns df0) (cells r) features))
                 (rows df) /\
    rows y = map (fun r => mkRow (label r) (pick (columns df0) (cells r) "war"))
                 (rows df) /\
    nrows X = nrows df /\ nrows y = nrows df /\
    (forall i r, rows df !! i = Some r ->
       exists x t,
         rows X !! i = Some x /\ rows y !! i = Some t /\
         label x = label r /\ label t = label r /\
         (forall c, In c (cells x) <->
                    exists j n, In n features /\ columns df0 !! j = Some n /\
                                cells r !! j = Some c) /\
         (forall c, In c (cells t) <->
                    exists j, columns df0 !! j = Some "war" /\ cells r !! j = Some c) /\
         Forall present (cells x) /\ Forall present (cells t)) /\
    (frame_ok df0 -> List.NoDup (columns df0) ->
     forall i r x t,
       rows df !! i = Some r -> rows X !! i = Some x -> rows y !! i = Some t ->
       length (cells x) = 10 /\
       (forall k n j, features !! k = Some n -> columns df0 !! j = Some n ->
                      cells x !! k = cells r !! j) /\
       (forall j, columns df0 !! j = Some "war" ->
                  exists c, cells r !! j = Some c /\ cells t = [c])) /\
    no_missing X /\ no_missing y.
Proof.
  apply (prepare_keeps_complete_rows (Sample.loaded Sample.raw)
           (mkFrame (map normalize_column Sample.header) (rows Sample.raw)));
    reflexivity.
Defined.

(** On the sample, players 3 and 7 are dropped and ten rows remain. *)
Example sample_prepare_labels :
  match snd (prepare (Sample.loaded Sample.raw)) with
  | Ok p => option_map (fun df => map label (rows df)) (p_store p !! p_df p)
  | Raise _ => None
  end = Some [0; 1; 2; 4; 5; 6; 8; 9; 10; 11].
Proof. vm_compute. reflexivity. Qed.

(** ** Order on floats

    The comparison of [SpecFloat] is lexicographic on sign, exponent and
    mantissa, and answers nothing when a NaN is involved. *)

Ltac cmp_cases :=
  repeat match goal with
  | |- context [Pos.compare_cont Eq ?x ?y] =>
      change (Pos.compare_cont Eq x y) with (Pos.compare x y)
  | H : context [Pos.compare_cont Eq ?x ?y] |- _ =>
      change (Pos.compare_cont Eq x y) with (Pos.compare x y) in H
  end;
  repeat match goal with
  | H : context [Z.compare ?x ?y] |- _ =>
      destruct (Z.compare_spec x y); simpl in H; try discriminate H
  | H : context [Pos.compare ?x ?y] |- _ =>
      destruct (Pos.compare_spec x y); simpl in H; try discriminate H
  end;
  subst;
  repeat match goal with
  | |- context [Z.compare ?x ?y] =>
      destruct (Z.compare_spec x y); simpl; try lia
  | |- context [Pos.compare ?x ?y] =>
      destruct (Pos.compare_spec x y); simpl; try lia
  end;
  try reflexivity; try lia.

Lemma SFcompare_lt_trans a b c :
  SFcompare a b = Some Lt -> SFcompare b c = Some Lt -> SFcompare a c = Some Lt.
Proof.
  destruct a as [sa|sa| |sa ma ea], b as [sb|sb| |sb mb eb], c as [sc|sc| |sc mc ec];
    simpl; try discriminate; try reflexivity;
    try destruct sa; try destruct sb; try destruct sc;
    simpl; try discriminate; try reflexivity;
    intros H1 H2; injection H1 as H1; injection H2 as H2; f_equal; cmp_cases.
Qed.

Lemma SFcompare_eq_lt a b c :
  SFcompare a b = Some Eq -> SFcompare c b = Some Lt -> SFcompare c a = Some Lt.
Proof.
  destruct a as [sa|sa| |sa ma ea], b as [sb|sb| |sb mb eb], c as [sc|sc| |sc mc ec];
    simpl; try discriminate; try reflexivity;
    try destruct sa; try destruct sb; try destruct sc;
    simpl; try discriminate; try reflexivity;
    intros H1 H2; injection H1 as H1; injection H2 as H2; f_equal; cmp_cases.
Qed.

Lemma SFcompare_refl_not_lt a : SFcompare a a <> Some Lt.
Proof.
  destruct a as [s|s| |s m e]; simpl; try discriminate.
  - destruct s; discriminate.
  - destruct s; rewrite Z.compare_refl;
      change (Pos.compare_cont Eq m m) with (Pos.compare m m);
      rewrite Pos.compare_refl; discriminate.
Qed.

Lemma float_gt_irrefl a : float_gt a a = false.
Proof.
  unfold float_gt, SFltb. pose proof (SFcompare_refl_not_lt a) as H.
  destruct (SFcompare a a) as [[]|]; congruence.
Qed.

Lemma float_gt_spec a b : float_gt a b = true <-> SFcompare b a = Some Lt.
Proof.
  unfold float_gt, SFltb. destruct (SFcompare b a) as [[]|]; split; congruence.
Qed.

Lemma float_eq_spec a b : float_eq a b = true <-> SFcompare a b = Some Eq.
Proof.
  unfold float_eq, SFeqb. destruct (SFcompare a b) as [[]|]; split; congruence.
Qed.

Lemma float_gt_trans a b c :
  float_gt a b = true -> float_gt b c = true -> float_gt a c = true.
Proof.
  rewrite !float_gt_spec. intros H1 H2. exact (SFcompare_lt_trans _ _ _ H2 H1).
Qed.

Lemma float_eq_gt a b c :
  float_eq a b = true -> float_gt b c = true -> float_gt a c = true.
Proof.
  rewrite float_eq_spec, !float_gt_spec. apply SFcompare_eq_lt.
Qed.

(** ** [max] with a key *)

Section MaxKey.

Variable key : nat -> option pyfloat.

Lemma max_from_first_max items :
  forall pre best mid vb,
    key best = Some vb ->
    (forall x, In x items -> exists v, key x = Some v) ->
    (forall x vx, In x pre -> key x = Some vx ->
                  float_gt vx vb = false /\ float_eq vx vb = false) ->
    (forall x vx, In x mid -> key x = Some vx -> float_gt vx vb = false) ->
    exists r, max_from key best (key best) items = Ok r /\
              first_max key (pre ++ best :: mid ++ items) r.
Proof.
  induction items as [|x items IH]; intros pre best mid vb Hb Hall Hpre Hmid.
  - exists best. split; [reflexivity|].
    exists pre, mid, vb. rewrite app_nil_r. auto.
  - destruct (Hall x (or_introl eq_refl)) as [vx Hx].
    assert (Hall' : forall z, In z items -> exists v, key z = Some v)
      by (intros z Hz; apply Hall; right; exact Hz).
    cbn [max_from]. rewrite Hx, Hb. cbn [py_gt res_bind].
    destruct (float_gt vx vb) eqn:Hgt.
    + (* x becomes the running maximum *)
      destruct (IH (pre ++ best :: mid) x [] vx Hx Hall') as [r [Hr Hfm]].
      * intros z vz Hz Hkz.
        assert (Hz_le : float_gt vz vb = false).
        { apply in_app_or in Hz as [Hz|[<-|Hz]].
          - exact (proj1 (Hpre z vz Hz Hkz)).
          - assert (vz = vb) by congruence. subst vz. apply float_gt_irrefl.
          - exact (Hmid z vz Hz Hkz). }
        split.
        -- destruct (float_gt vz vx) eqn:E; [|reflexivity].
           rewrite (float_gt_trans _ _ _ E Hgt) in Hz_le. discriminate.
        -- destruct (float_eq vz vx) eqn:E; [|reflexivity].
           rewrite (float_eq_gt _ _ _ E Hgt) in Hz_le. discriminate.
      * intros z vz [].
      * exists r. rewrite Hx in Hr. split; [exact Hr|].
        replace (pre ++ best :: mid ++ x :: items)
          with ((pre ++ best :: mid) ++ x :: [] ++ items)
          by (rewrite <- app_assoc; reflexivity).
        exact Hfm.
    + (* the running maximum stays *)
      destruct (IH pre best (mid ++ [x]) vb Hb Hall' Hpre) as [r [Hr Hfm]].
      * intros z vz Hz Hkz. apply in_app_or in Hz as [Hz|[<-|[]]].
        -- exact (Hmid z vz Hz Hkz).
        -- assert (vz = vx) by congruence. subst vz. exact Hgt.
      * exists r. rewrite Hb in Hr. split; [exact Hr|].
        replace (pre ++ best :: mid ++ x :: items)
          with (pre ++ best :: (mid ++ [x]) ++ items)
          by (rewrite <- (app_assoc mid); reflexivity).
        exact Hfm.
Qed.

(** [max(items, key=key)] returns, and what it returns is the first item
    with a maximal key. *)
Lemma py_max_first_max items :
  items <> [] ->
  (forall x, In x items -> exists v, key x = Some v) ->
  exists r, py_max key items = Ok r /\ first_max key items r.
Proof.
  destruct items as [|x items]; [congruence|]. intros _ Hall.
  destruct (Hall x (or_introl eq_refl)) as [vx Hx].
  destruct (max_from_first_max items [] x [] vx Hx) as [r [Hr Hfm]].
  - intros z Hz. apply Hall. right. exact Hz.
  - intros z vz [].
  - intros z vz [].
  - exists r. split; [exact Hr | exact Hfm].
Qed.

End MaxKey.

Lemma seq_split_lt pre : forall a n b post,
  seq a n = pre ++ b :: post ->
  (forall x, In x pre -> x < b) /\ (forall x, In x post -> b < x) /\ In b (seq a n).
Proof.
  induction pre as [|p pre IH]; intros a n b post H.
  - destruct n as [|n]; [discriminate|]. simpl in H. injection H as <- <-.
    split; [intros x []|]. split.
    + intros x Hx. apply in_seq in Hx. lia.
    + left. reflexivity.
  - destruct n as [|n]; [discriminate|]. simpl in H. injection H as <- H.
    destruct (IH _ _ _ _ H) as [H1 [H2 H3]].
    split; [|split].
    + intros x [<-|Hx]; [|auto]. apply in_seq in H3. lia.
    + exact H2.
    + right. exact H3.
Qed.

(** ** The [scores] dict *)

Lemma dict_set_fresh {V} k (v : V) d :
  ~ In k (dict_keys d) -> dict_set k v d = d ++ [(k, v)].
Proof.
  induction d as [|[k' v'] d IH]; simpl; intros Hk; [reflexivity|].
  destruct (Nat.eqb_spec k k') as [->|Hne]; [tauto|].
  rewrite IH by tauto. reflexivity.
Qed.

Lemma dict_keys_app {V} (d1 d2 : dict V) : dict_keys (d1 ++ d2) = dict_keys d1 ++ dict_keys d2.
Proof. apply map_app. Qed.

Lemma dict_get_In {V} (d : dict V) k v : dict_get d k = Some v -> In (k, v) d.
Proof.
  induction d as [|[k' v'] d IH]; simpl; [discriminate|].
  destruct (Nat.eqb_spec k k') as [->|Hne].
  - intros [= ->]. left. reflexivity.
  - intros H. right. exact (IH H).
Qed.

Lemma In_dict_get {V} (d : dict V) k v :
  List.NoDup (dict_keys d) -> In (k, v) d -> dict_get d k = Some v.
Proof.
  induction d as [|[k' v'] d IH]; simpl; intros Hnd Hin; [contradiction|].
  apply NoDup_cons_iff in Hnd as [Hk' Hnd].
  destruct Hin as [[= -> ->]|Hin].
  - rewrite Nat.eqb_refl. reflexivity.
  - destruct (Nat.eqb_spec k k') as [->|Hne]; [|exact (IH Hnd Hin)].
    exfalso. apply Hk'. apply in_map_iff. exists (k', v). auto.
Qed.

(** ** The silhouette search *)

Section Search.

Variable L : Library.
Variable global : rng L.
Variable Xs : matrix.

Lemma search_trace_total ks :
  (forall k, In k ks -> exists labels s,
      KMeans_fit_predict L (RandomState L 42%Z) k Xs = Ok labels /\
      silhouette_score L Xs labels = Ok s) ->
  exists t, search_trace L global Xs ks = Ok t.
Proof.
  induction ks as [|k ks IH]; intros H; [exists []; reflexivity|].
  destruct (H k (or_introl eq_refl)) as [labels [s [Hk Hs]]].
  destruct IH as [t Ht]; [intros k' Hk'; apply H; right; exact Hk'|].
  exists ((k, labels, s) :: t). cbn [search_trace check_random_state].
  rewrite Hk. cbn [res_bind]. rewrite Hs. cbn [res_bind]. rewrite Ht. reflexivity.
Qed.

Lemma search_trace_turns ks : forall t,
  search_trace L global Xs ks = Ok t ->
  map (fun e => fst (fst e)) t = ks /\ Forall (turn L Xs) t.
Proof.
  induction ks as [|k ks IH]; intros t H.
  - injection H as <-. split; [reflexivity | constructor].
  - cbn [search_trace check_random_state] in H.
    apply res_bind_ok_inv in H as [labels [Hk H]].
    apply res_bind_ok_inv in H as [s [Hs H]].
    apply res_bind_ok_inv in H as [t' [Ht' H]].
    injection H as <-. destruct (IH t' Ht') as [Hks Hturns].
    split; [simpl; rewrite Hks; reflexivity|].
    constructor; [split; assumption | exact Hturns].
Qed.

(** The loop fills [scores] with the score of each turn, in turn order. *)
Lemma silhouette_search_trace ks : forall d,
  silhouette_search L global Xs ks d =
  res_bind (search_trace L global Xs ks) (fun t => Ok (fold_left record_score t d)).
Proof.
  induction ks as [|k ks IH]; intros d; [reflexivity|].
  cbn [silhouette_search search_trace].
  destruct (KMeans_fit_predict L _ k Xs) as [labels|e]; [|reflexivity].
  cbn [res_bind].
  destruct (silhouette_score L Xs labels) as [s|e]; [|reflexivity].
  cbn [res_bind]. rewrite IH.
  destruct (search_trace L global Xs ks) as [t|e]; reflexivity.
Qed.

Lemma fold_record_score_fresh t : forall d,
  List.NoDup (dict_keys d ++ map (fun e => fst (fst e)) t) ->
  fold_left record_score t d = d ++ map (fun e => (fst (fst e), snd e)) t.
Proof.
  induction t as [|e t IH]; intros d Hnd; simpl.
  - symmetry. apply app_nil_r.
  - unfold record_score at 2. rewrite dict_set_fresh.
    + rewrite IH.
      * rewrite <- app_assoc. reflexivity.
      * rewrite dict_keys_app. simpl. rewrite <- app_assoc. exact Hnd.
    + intros Hin. apply NoDup_remove_2 in Hnd. apply Hnd.
      apply in_or_app. left. exact Hin.
Qed.

End Search.

(** ** Clusterer: what a completed run went through *)

Lemma cluster_inv (L : Library) (global : rng L) (p : Prepared) o c :
  cluster L global p = (o, Ok c) ->
  exists X df0 df1 pc1 df2 pc2 df3,
    deref (p_store p) (p_X p) = Ok X /\
    StandardScaler_fit_transform L X = Ok (X_scaled c) /\
    PCA_fit_transform L global 2 (X_scaled c) = Ok (X_pca c) /\
    select_k L global (X_scaled c) = Ok (scores c, best_k c) /\
    KMeans_fit_predict L (RandomState L 42%Z) (best_k c) (X_scaled c)
      = Ok (cluster_labels c) /\
    deref (p_store p) (p_df p) = Ok df0 /\
    setitem "cluster" (int_cells (cluster_labels c)) df0 = Ok df1 /\
    matrix_col 0 (X_pca c) = Ok pc1 /\
    setitem "PC1" (float_cells pc1) df1 = Ok df2 /\
    matrix_col 1 (X_pca c) = Ok pc2 /\
    setitem "PC2" (float_cells pc2) df2 = Ok df3 /\
    c_store c = assign (assign (assign (p_store p) (p_df p) df1) (p_df p) df2) (p_df p) df3 /\
    c_df c = p_df p /\ c_X c = p_X p /\ c_y c = p_y p /\
    o = [PrintBestK (best_k c)].
Proof.
  unfold cluster. intros H.
  lift_step H. lift_step H. lift_step H. lift_step H.
  destruct a2 as [sc k].
  rewrite bind_emit in H. cbn [fst snd] in H.
  destruct (bind (lift (KMeans_fit_predict L _ k a0)) _) as [o' r'] eqn:Hrest.
  cbn [fst snd] in H. injection H as <- ->.
  lift_step Hrest. lift_step Hrest. lift_step Hrest. lift_step Hrest.
  lift_step Hrest. lift_step Hrest. lift_step Hrest.
  unfold ret in Hrest. injection Hrest as <- <-.
  cbn [X_scaled X_pca scores best_k cluster_labels c_store c_df c_X c_y].
  do 7 eexists.
  repeat (split; [first [eassumption | reflexivity]|]). reflexivity.
Qed.

Lemma cluster_intro (L : Library) (global : rng L) (p : Prepared)
  X Xs Xp sc k labels df0 df1 pc1 df2 pc2 df3 :
  deref (p_store p) (p_X p) = Ok X ->
  StandardScaler_fit_transform L X = Ok Xs ->
  PCA_fit_transform L global 2 Xs = Ok Xp ->
  select_k L global Xs = Ok (sc, k) ->
  KMeans_fit_predict L (RandomState L 42%Z) k Xs = Ok labels ->
  deref (p_store p) (p_df p) = Ok df0 ->
  setitem "cluster" (int_cells labels) df0 = Ok df1 ->
  matrix_col 0 Xp = Ok pc1 ->
  setitem "PC1" (float_cells pc1) df1 = Ok df2 ->
  matrix_col 1 Xp = Ok pc2 ->
  setitem "PC2" (float_cells pc2) df2 = Ok df3 ->
  cluster L global p =
    ([PrintBestK k],
     Ok (mkClustered
           (assign (assign (assign (p_store p) (p_df p) df1) (p_df p) df2) (p_df p) df3)
           (p_df p) (p_X p) (p_y p) Xs Xp sc k labels)).
Proof.
  intros H1 H2 H3 H4 H5 H6 H7 H8 H9 H10 H11. unfold cluster.
  rewrite H1, bind_lift, H2, bind_lift. cbn [check_random_state].
  rewrite H3, bind_lift, H4, bind_lift, bind_emit.
  rewrite H5, bind_lift, H6, bind_lift, H7, bind_lift, H8, bind_lift.
  rewrite H9, bind_lift, H10, bind_lift, H11, bind_lift.
  reflexivity.
Qed.

Lemma scores_of_trace (L : Library) (global : rng L) (Xs : matrix) t :
  search_trace L global Xs (range 2 10) = Ok t ->
  let sc := map (fun e => (fst (fst e), snd e)) t in
  silhouette_search L global Xs (range 2 10) [] = Ok sc /\
  dict_keys sc = range 2 10 /\
  List.NoDup (dict_keys sc).
Proof.
  intros Ht sc. destruct (search_trace_turns L global Xs _ _ Ht) as [Hks _].
  assert (Hkeys : dict_keys sc = range 2 10).
  { unfold sc, dict_keys. rewrite map_map. exact Hks. }
  split; [|split].
  - rewrite silhouette_search_trace, Ht. cbn [res_bind].
    rewrite fold_record_score_fresh; [reflexivity|].
    cbn [dict_keys map app]. rewrite Hks. apply seq_NoDup.
  - exact Hkeys.
  - rewrite Hkeys. apply seq_NoDup.
Qed.

(** C1.  Whenever the K-Means fit and the silhouette score return for each
    of K = 2, ..., 9, the search returns: [scores] has exactly the keys
    2, ..., 9 in that order, each with the silhouette score of the K-Means
    fit at that K; [best_k] is one of them, no candidate has a strictly
    greater score, and every candidate whose score equals that of [best_k]
    is at least [best_k] (the smallest wins a tie).  A completed Clusterer
    run on the same scaled matrix holds these [scores] and this [best_k]
    and prints it. *)
Theorem clusterer_selects_first_best_k (L : Library) (global : rng L) (Xs : matrix) :
  (forall k, In k [2; 3; 4; 5; 6; 7; 8; 9] ->
     exists labels s,
       KMeans_fit_predict L (RandomState L 42%Z) k Xs = Ok labels /\
       silhouette_score L Xs labels = Ok s) ->
  exists sc best,
    select_k L global Xs = Ok (sc, best) /\
    dict_keys sc = [2; 3; 4; 5; 6; 7; 8; 9] /\
    (forall k s,
       dict_get sc k = Some s <->
       In k [2; 3; 4; 5; 6; 7; 8; 9] /\
       exists labels,
         KMeans_fit_predict L (RandomState L 42%Z) k Xs = Ok labels /\
         silhouette_score L Xs labels = Ok s) /\
    In best [2; 3; 4; 5; 6; 7; 8; 9] /\
    (forall k s sb,
       dict_get sc k = Some s -> dict_get sc best = Some sb -> float_gt s sb = false) /\
    (forall k s sb,
       dict_get sc k = Some s -> dict_get sc best = Some sb ->
       float_eq s sb = true -> best <= k) /\
    (forall p o c,
       cluster L global p = (o, Ok c) -> X_scaled c = Xs ->
       scores c = sc /\ best_k c = best /\ o = [PrintBestK best]).
Proof.
  intros Hcalls.
  change [2; 3; 4; 5; 6; 7; 8; 9] with (range 2 10) in *.
  destruct (search_trace_total L global Xs _ Hcalls) as [t Ht].
  destruct (search_trace_turns L global Xs _ _ Ht) as [Hks Hturns].
  destruct (scores_of_trace L global Xs t Ht) as [Hsearch [Hkeys Hnd]].
  set (sc := map (fun e => (fst (fst e), snd e)) t) in *.
  assert (Hget : forall k, In k (dict_keys sc) -> exists v, dict_get sc k = Some v).
  { intros k Hk. apply in_map_iff in Hk as [[k' v] [<- Hin]].
    exists v. apply In_dict_get; assumption. }
  destruct (py_max_first_max (dict_get sc) (dict_keys sc)) as [best [Hmax Hfm]].
  { rewrite Hkeys. discriminate. }
  { exact Hget. }
  destruct Hfm as [pre [post [vb [Hsplit [Hvb [Hpre Hpost]]]]]].
  rewrite Hkeys in Hsplit. unfold range in Hsplit.
  destruct (seq_split_lt _ _ _ _ _ Hsplit) as [Hlt_pre [Hlt_post Hbest]].
  assert (Hselect : select_k L global Xs = Ok (sc, best)).
  { unfold select_k. rewrite Hsearch. cbn [res_bind]. rewrite Hmax. reflexivity. }
  assert (Hwhere : forall k s, dict_get sc k = Some s -> In k pre \/ k = best \/ In k post).
  { intros k s Hk. apply dict_get_In in Hk.
    assert (Hin : In k (dict_keys sc)) by (apply in_map_iff; exists (k, s); auto).
    rewrite Hkeys in Hin. unfold range in Hin. rewrite Hsplit in Hin.
    apply in_app_or in Hin as [Hin|[<-|Hin]]; auto. }
  exists sc, best.
  split; [exact Hselect|]. split; [exact Hkeys|].
  split; [|split; [exact Hbest|split; [|split]]].
  - intros k s. split.
    + intros Hk. apply dict_get_In in Hk.
      split.
      * rewrite <- Hkeys. apply in_map_iff. exists (k, s). auto.
      * apply in_map_iff in Hk as [e [[= <- <-] He]].
        rewrite List.Forall_forall in Hturns. destruct (Hturns e He) as [Hfit Hsil].
        exists (snd (fst e)). auto.
    + intros [Hk [labels [Hfit Hsil]]].
      rewrite <- Hks in Hk. apply in_map_iff in Hk as [e [<- He]].
      rewrite List.Forall_forall in Hturns. destruct (Hturns e He) as [Hfit' Hsil'].
      assert (labels = snd (fst e)) by congruence. subst labels.
      assert (s = snd e) by congruence. subst s.
      apply In_dict_get; [exact Hnd|].
      apply in_map_iff. exists e. auto.
  - intros k s sb Hk Hb. assert (sb = vb) by congruence. subst sb.
    destruct (Hwhere k s Hk) as [Hin|[->|Hin]].
    + exact (proj1 (Hpre k s Hin Hk)).
    + assert (s = vb) by congruence. subst s. apply float_gt_irrefl.
    + exact (Hpost k s Hin Hk).
  - intros k s sb Hk Hb Heq. assert (sb = vb) by congruence. subst sb.
    destruct (Hwhere k s Hk) as [Hin|[->|Hin]].
    + rewrite (proj2 (Hpre k s Hin Hk)) in Heq. discriminate.
    + lia.
    + specialize (Hlt_post k Hin). lia.
  - intros p o c Hc HXs.
    destruct (cluster_inv L global p o c Hc)
      as (X & df0 & df1 & pc1 & df2 & pc2 & df3 & _ & _ & _ & Hsel & _ & _ & _ & _ & _ & _ & _ & _ & _ & _ & _ & Ho).
    rewrite HXs, Hselect in Hsel. injection Hsel as Hsc Hbk.
    subst o. rewrite <- Hsc, <- Hbk. auto.
Qed.

Lemma clusterer_selects_first_best_k_witness :
  let L := Sample.lib Sample.raw in
  let Xs := Sample.points in
  exists sc best,
    select_k L 0%Z Xs = Ok (sc, best) /\
    dict_keys sc = [2; 3; 4; 5; 6; 7; 8; 9] /\
    (forall k s,
       dict_get sc k = Some s <->
       In k [2; 3; 4; 5; 6; 7; 8; 9] /\
       exists labels,
         KMeans_fit_predict L (RandomState L 42%Z) k Xs = Ok labels /\
         silhouette_score L Xs labels = Ok s) /\
    In best [2; 3; 4; 5; 6; 7; 8; 9] /\
    (forall k s sb,
       dict_get sc k = Some s -> dict_get sc best = Some sb -> float_gt s sb = false) /\
    (forall k s sb,
       dict_get sc k = Some s -> dict_get sc best = Some sb ->
       float_eq s sb = true -> best <= k) /\
    (forall p o c,
       cluster L 0%Z p = (o, Ok c) -> X_scaled c = Xs ->
       scores c = sc /\ best_k c = best /\ o = [PrintBestK best]).
Proof.
  apply (clusterer_selects_first_best_k (Sample.lib Sample.raw) 0%Z Sample.points).
  intros k Hk.
  repeat (destruct Hk as [<-|Hk];
          [eexists; eexists; split; vm_compute; reflexivity|]).
  destruct Hk.
Defined.

(** On the sample scores, 3 and 4 tie for the best and 3 is selected. *)
Example sample_select_k :
  res_map snd (select_k (Sample.lib Sample.raw) 0%Z Sample.points) = Ok 3.
Proof. vm_compute. reflexivity. Qed.

Example sample_run_all :
  res_map (fun c => (best_k c, cluster_labels c)) (snd (run_all (Sample.lib Sample.raw) 0%Z))
  = Ok (3, [0; 1; 2; 0; 1; 2; 0; 1; 2; 0]).
Proof. vm_compute. reflexivity. Qed.

(** ** Column assignment *)

Lemma overwrite_length cols : forall cs name v,
  length (overwrite cols cs name v) = length cs.
Proof.
  induction cols as [|c cols IH]; intros [|x cs] name v; simpl; auto.
Qed.

Lemma pick_overwrite_other cols : forall cs name v other,
  other <> name -> pick cols (overwrite cols cs name v) other = pick cols cs other.
Proof.
  unfold pick. induction cols as [|c cols IH]; intros [|x cs] name v other Hne;
    simpl; try reflexivity.
  destruct (String.eqb_spec c name) as [->|Hc].
  - apply String.eqb_neq in Hne. rewrite String.eqb_sym in Hne.
    rewrite Hne. apply IH. apply String.eqb_neq. rewrite String.eqb_sym. exact Hne.
  - destruct (String.eqb c other); simpl; [f_equal|]; apply IH; exact Hne.
Qed.

Lemma pick_overwrite_same cols : forall cs name v,
  Forall (eq v) (pick cols (overwrite cols cs name v) name).
Proof.
  unfold pick. induction cols as [|c cols IH]; intros [|x cs] name v; simpl;
    try constructor.
  destruct (String.eqb c name) eqn:E; simpl.
  - constructor; [reflexivity | apply IH].
  - apply IH.
Qed.

Lemma pick_has_column {A} cols : forall (xs : list A) name,
  length xs = length cols -> has_column cols name = true -> pick cols xs name <> [].
Proof.
  unfold pick, has_column.
  induction cols as [|c cols IH]; intros [|x xs] name Hlen Hhas; simpl in *;
    try discriminate.
  rewrite String.eqb_sym in Hhas.
  destruct (String.eqb c name); simpl; [discriminate|].
  apply IH; [lia | exact Hhas].
Qed.

Lemma pick_app {A} cols : forall (xs : list A) cols' xs' name,
  length xs = length cols ->
  pick (cols ++ cols') (xs ++ xs') name = pick cols xs name ++ pick cols' xs' name.
Proof.
  unfold pick.
  induction cols as [|c cols IH]; intros [|x xs] cols' xs' name Hlen; simpl in *;
    try discriminate; [reflexivity|].
  destruct (String.eqb c name); simpl; rewrite IH by lia; reflexivity.
Qed.

(** One row after [df[name] = values]: the cells under [name] all hold the
    row's value, there is at least one, and the cells under any other label
    are what they were. *)
Lemma set_cell_spec cols name r v :
  length (cells r) = length cols ->
  let cols' := add_column cols name in
  let r' := set_cell cols name r v in
  label r' = label r /\
  length (cells r') = length cols' /\
  pick cols' (cells r') name <> [] /\
  Forall (eq v) (pick cols' (cells r') name) /\
  (forall other, other <> name ->
     pick cols' (cells r') other = pick cols (cells r) other).
Proof.
  intros Hlen. unfold set_cell, add_column. cbv zeta.
  destruct (has_column cols name) eqn:Hhas; cbn [label cells].
  - split; [reflexivity|]. split; [rewrite overwrite_length; exact Hlen|].
    split; [apply pick_has_column; [rewrite overwrite_length; exact Hlen | exact Hhas]|].
    split; [apply pick_overwrite_same|].
    intros other Hne. apply pick_overwrite_other. exact Hne.
  - split; [reflexivity|]. split; [rewrite !length_app; simpl; lia|].
    rewrite (pick_app cols (cells r) [name] [v] name Hlen).
    rewrite (pick_no_column cols (cells r) name Hhas).
    unfold pick at 1 2. simpl. rewrite String.eqb_refl. simpl.
    split; [discriminate|]. split; [repeat constructor|].
    intros other Hne. rewrite (pick_app cols (cells r) [name] [v] other Hlen).
    unfold pick at 2. simpl.
    apply String.eqb_neq in Hne. rewrite String.eqb_sym in Hne. rewrite Hne.
    apply app_nil_r.
Qed.

Lemma set_cells_lookup cols name : forall rs vs i r',
  length vs = length rs ->
  set_cells cols name rs vs !! i = Some r' ->
  exists r v, rs !! i = Some r /\ vs !! i = Some v /\ r' = set_cell cols name r v.
Proof.
  induction rs as [|r rs IH]; intros [|v vs] i r' Hlen H; simpl in *;
    try discriminate.
  destruct i as [|i]; simpl in *.
  - injection H as <-. eauto.
  - apply IH; [lia | exact H].
Qed.

Lemma set_cells_length cols name : forall rs vs,
  length vs = length rs -> length (set_cells cols name rs vs) = length rs.
Proof.
  induction rs as [|r rs IH]; intros [|v vs] Hlen; simpl in *; try discriminate;
    [reflexivity|].
  rewrite IH by lia. reflexivity.
Qed.

Lemma set_cells_labels cols name : forall rs vs,
  length vs = length rs -> map label (set_cells cols name rs vs) = map label rs.
Proof.
  induction rs as [|r rs IH]; intros [|v vs] Hlen; simpl in *; try discriminate;
    [reflexivity|].
  rewrite IH by lia. f_equal. unfold set_cell. destruct (has_column cols name); reflexivity.
Qed.

(** [df[name] = values] on a well-formed table. *)
Lemma setitem_spec name values df df' :
  frame_ok df ->
  setitem name values df = Ok df' ->
  frame_ok df' /\
  length values = nrows df /\
  nrows df' = nrows df /\
  map label (rows df') = map label (rows df) /\
  columns df' = add_column (columns df) name /\
  has_column (columns df') name = true /\
  (forall i r', rows df' !! i = Some r' ->
     exists r v,
       rows df !! i = Some r /\ values !! i = Some v /\
       pick (columns df') (cells r') name <> [] /\
       Forall (eq v) (pick (columns df') (cells r') name) /\
       (forall other, other <> name ->
          pick (columns df') (cells r') other = pick (columns df) (cells r) other)).
Proof.
  intros Hok. unfold setitem.
  destruct (Nat.eqb_spec (length values) (nrows df)) as [Hlen|]; [|discriminate].
  intros [= <-]. cbn [columns rows]. unfold nrows in *. cbn [rows].
  assert (Hrow : forall i r', set_cells (columns df) name (rows df) values !! i = Some r' ->
            exists r v, rows df !! i = Some r /\ values !! i = Some v /\
                        r' = set_cell (columns df) name r v /\
                        length (cells r) = length (columns df)).
  { intros i r' H. destruct (set_cells_lookup _ _ _ _ _ _ Hlen H) as [r [v [Hr [Hv ->]]]].
    exists r, v. repeat split; try assumption.
    unfold frame_ok in Hok. rewrite List.Forall_forall in Hok. apply Hok.
    apply list_elem_of_In. eapply list_elem_of_lookup_2. exact Hr. }
  split; [|split; [exact Hlen|split; [apply set_cells_length; exact Hlen|
           split; [apply set_cells_labels; exact Hlen|split; [reflexivity|split]]]]].
  - unfold frame_ok. cbn [columns rows]. apply List.Forall_forall. intros r' Hr'.
    apply list_elem_of_In, list_elem_of_lookup in Hr' as [i Hi].
    destruct (Hrow i r' Hi) as [r [v [_ [_ [-> Hl]]]]].
    apply (set_cell_spec (columns df) name r v Hl).
  - unfold add_column. destruct (has_column (columns df) name) eqn:Hhas; [exact Hhas|].
    unfold has_column. rewrite existsb_app. simpl. rewrite String.eqb_refl.
    apply orb_true_iff. right. reflexivity.
  - intros i r' Hi. destruct (Hrow i r' Hi) as [r [v [Hr [Hv [-> Hl]]]]].
    exists r, v. split; [exact Hr|]. split; [exact Hv|].
    apply (set_cell_spec (columns df) name r v Hl).
Qed.

(** ** What the search leaves behind *)

Lemma select_k_inv (L : Library) (global : rng L) (Xs : matrix) sc best :
  select_k L global Xs = Ok (sc, best) ->
  exists t,
    search_trace L global Xs (range 2 10) = Ok t /\
    sc = map (fun e => (fst (fst e), snd e)) t /\
    In best (range 2 10).
Proof.
  unfold select_k. intros H.
  apply res_bind_ok_inv in H as [sc' [Hsearch H]].
  apply res_bind_ok_inv in H as [k [Hmax [= -> ->]]].
  rewrite silhouette_search_trace in Hsearch.
  apply res_bind_ok_inv in Hsearch as [t [Ht Hfold]].
  destruct (scores_of_trace L global Xs t Ht) as [Hsearch' [Hkeys Hnd]].
  rewrite silhouette_search_trace, Ht in Hsearch'. cbn [res_bind] in Hsearch'.
  assert (Hsc : sc = map (fun e => (fst (fst e), snd e)) t) by congruence.
  exists t. split; [exact Ht|]. split; [exact Hsc|].
  destruct (py_max_first_max (dict_get sc) (dict_keys sc)) as [r [Hr Hfm]].
  - rewrite Hsc, Hkeys. discriminate.
  - intros k Hk. apply in_map_iff in Hk as [[k' v] [<- Hin]].
    exists v. apply In_dict_get; [rewrite Hsc; exact Hnd | exact Hin].
  - assert (r = best) by congruence. subst r.
    destruct Hfm as [pre [post [vb [Hsplit _]]]].
    rewrite Hsc, Hkeys in Hsplit. rewrite Hsplit.
    apply in_or_app. right. left. reflexivity.
Qed.

(** C10.  In a completed Clusterer run, the turn of the search loop for
    K = [best_k] bound [labels] to exactly the labels that the final re-fit
    assigns: the loop's fits and scores are the list [t], [scores] holds its
    scores, and [t] has the entry ([best_k], final labels, score). *)
Theorem refit_repeats_search_fit (L : Library) (global : rng L) (p : Prepared) o c :
  cluster L global p = (o, Ok c) ->
  exists t s,
    search_trace L global (X_scaled c) (range 2 10) = Ok t /\
    scores c = map (fun e => (fst (fst e), snd e)) t /\
    In (best_k c, cluster_labels c, s) t /\
    dict_get (scores c) (best_k c) = Some s.
Proof.
  intros Hc.
  destruct (cluster_inv L global p o c Hc)
    as (X & df0 & df1 & pc1 & df2 & pc2 & df3 & _ & _ & _ & Hsel & Hfit & _).
  destruct (select_k_inv L global _ _ _ Hsel) as [t [Ht [Hsc Hbest]]].
  destruct (search_trace_turns L global _ _ _ Ht) as [Hks Hturns].
  destruct (scores_of_trace L global _ t Ht) as [_ [_ Hnd]].
  rewrite <- Hks in Hbest. apply in_map_iff in Hbest as [[[k labels] s] [Hk He]].
  cbn [fst] in Hk. subst k.
  rewrite List.Forall_forall in Hturns. destruct (Hturns _ He) as [Hfit' _].
  cbn [fst snd] in Hfit'.
  assert (labels = cluster_labels c) by congruence. subst labels.
  exists t, s. split; [exact Ht|]. split; [exact Hsc|]. split; [exact He|].
  rewrite Hsc. apply In_dict_get; [exact Hnd|].
  apply in_map_iff. exists (best_k c, cluster_labels c, s). auto.
Qed.

Lemma refit_repeats_search_fit_witness :
  let L := Sample.lib Sample.raw in
  let c := Sample.clustered Sample.raw 0 in
  exists t s,
    search_trace L 0%Z (X_scaled c) (range 2 10) = Ok t /\
    scores c = map (fun e => (fst (fst e), snd e)) t /\
    In (best_k c, cluster_labels c, s) t /\
    dict_get (scores c) (best_k c) = Some s.
Proof.
  apply (refit_repeats_search_fit (Sample.lib Sample.raw) 0%Z
           (Sample.prepared Sample.raw) [PrintBestK 3] (Sample.clustered Sample.raw 0)).
  vm_compute. reflexivity.
Defined.

(** ** Reproducibility *)

Lemma run_all_inv (L : Library) (global : rng L) o c :
  run_all L global = (o, Ok c) ->
  exists ol l op p oc,
    load L = (ol, Ok l) /\ prepare l = (op, Ok p) /\
    is_ok (snd (regress L global p)) = true /\
    cluster L global p = (oc, Ok c).
Proof.
  unfold run_all. intros H.
  apply bind_ok_inv in H as (ol & l & o' & Hl & H & _).
  apply bind_ok_inv in H as (op & p & o'' & Hp & H & _).
  apply bind_ok_inv in H as (og & rg & o3 & Hr & H & _).
  apply bind_ok_inv in H as (oc & c' & o4 & Hc & H & _).
  apply bind_ok_inv in H as (opl & [] & o5 & _ & H & _).
  apply bind_ok_inv in H as (orp & [] & o6 & _ & H & _).
  injection H as _ <-.
  exists ol, l, op, p, oc. rewrite Hr. auto.
Qed.

(** C5.  The global generator state is the only thing that differs between
    two runs on the same input.  The Regressor (its train/test partition,
    model, metrics and prints) is the same for any two states, and so is
    the search for K on any matrix; two Clusterer runs that complete select
    the same K, hold the same scores, assign the same labels and print the
    same line, and so do two complete runs of the whole notebook. *)
Theorem seeded_runs_agree (L : Library) (g1 g2 : rng L) :
  (forall p, regress L g1 p = regress L g2 p) /\
  (forall Xs, select_k L g1 Xs = select_k L g2 Xs) /\
  (forall p o1 c1 o2 c2,
     cluster L g1 p = (o1, Ok c1) -> cluster L g2 p = (o2, Ok c2) ->
     best_k c1 = best_k c2 /\ cluster_labels c1 = cluster_labels c2 /\
     scores c1 = scores c2 /\ X_scaled c1 = X_scaled c2 /\ o1 = o2) /\
  (forall o1 c1 o2 c2,
     run_all L g1 = (o1, Ok c1) -> run_all L g2 = (o2, Ok c2) ->
     best_k c1 = best_k c2 /\ cluster_labels c1 = cluster_labels c2 /\
     scores c1 = scores c2).
Proof.
  assert (Hcluster : forall p o1 c1 o2 c2,
     cluster L g1 p = (o1, Ok c1) -> cluster L g2 p = (o2, Ok c2) ->
     best_k c1 = best_k c2 /\ cluster_labels c1 = cluster_labels c2 /\
     scores c1 = scores c2 /\ X_scaled c1 = X_scaled c2 /\ o1 = o2).
  { intros p o1 c1 o2 c2 H1 H2.
    destruct (cluster_inv L g1 p o1 c1 H1)
      as (X1 & ? & ? & ? & ? & ? & ? & HX1 & Hs1 & _ & Hk1 & Hf1 & _ & _ & _ & _ & _ & _ & _ & _ & _ & _ & Ho1).
    destruct (cluster_inv L g2 p o2 c2 H2)
      as (X2 & ? & ? & ? & ? & ? & ? & HX2 & Hs2 & _ & Hk2 & Hf2 & _ & _ & _ & _ & _ & _ & _ & _ & _ & _ & Ho2).
    assert (X1 = X2) by congruence. subst X2.
    assert (HXs : X_scaled c1 = X_scaled c2) by congruence.
    rewrite HXs in Hk1, Hf1.
    change (select_k L g1 (X_scaled c2)) with (select_k L g2 (X_scaled c2)) in Hk1.
    assert (Hsk : (scores c1, best_k c1) = (scores c2, best_k c2)) by congruence.
    injection Hsk as Hsc Hbk. rewrite Hbk in Hf1.
    assert (Hl : cluster_labels c1 = cluster_labels c2) by congruence.
    subst o1 o2. rewrite Hbk. auto. }
  split; [intros p; reflexivity|]. split; [intros Xs; reflexivity|].
  split; [exact Hcluster|].
  intros o1 c1 o2 c2 H1 H2.
  apply run_all_inv in H1 as (ol1 & l1 & op1 & p1 & oc1 & Hl1 & Hp1 & _ & Hc1).
  apply run_all_inv in H2 as (ol2 & l2 & op2 & p2 & oc2 & Hl2 & Hp2 & _ & Hc2).
  assert (l1 = l2) by congruence. subst l2.
  assert (p1 = p2) by congruence. subst p2.
  destruct (Hcluster p1 oc1 c1 oc2 c2 Hc1 Hc2) as (? & ? & ? & _). auto.
Qed.

(** On the sample the projection differs with the generator state, the
    clusters do not. *)
Example sample_pca_differs :
  X_pca (Sample.clustered Sample.raw 0) <> X_pca (Sample.clustered Sample.raw 1).
Proof. vm_compute. discriminate. Qed.

Example sample_clusters_agree :
  cluster_labels (Sample.clustered Sample.raw 0) = cluster_labels (Sample.clustered Sample.raw 1)
  /\ best_k (Sample.clustered Sample.raw 0) = best_k (Sample.clustered Sample.raw 1).
Proof. vm_compute. split; reflexivity. Qed.

(** ** The table after the Clusterer *)

Lemma frame_ok_kept df0 : frame_ok df0 -> frame_ok (kept_frame df0).
Proof.
  unfold frame_ok, kept_frame. cbn [columns rows]. intros H.
  apply List.Forall_forall. intros r Hr. apply filter_In in Hr as [Hr _].
  rewrite List.Forall_forall in H. exact (H r Hr).
Qed.

Lemma map_lookup_Some {A B} (f : A -> B) : forall l i y,
  map f l !! i = Some y -> exists x, l !! i = Some x /\ y = f x.
Proof.
  induction l as [|x l IH]; intros [|i] y H; simpl in *; try discriminate.
  - injection H as <-. eauto.
  - exact (IH i y H).
Qed.

Lemma add_column_In cols name x :
  In x (add_column cols name) <-> In x cols \/ x = name.
Proof.
  unfold add_column. destruct (has_column cols name) eqn:Hhas.
  - apply has_column_In in Hhas. split; [auto | intros [H| ->]; assumption].
  - rewrite in_app_iff. simpl. intuition.
Qed.


Lemma cluster_table (L : Library) (global : rng L) (p : Prepared) o c df :
  deref (p_store p) (p_df p) = Ok df ->
  frame_ok df ->
  cluster L global p = (o, Ok c) ->
  exists df3,
    deref (c_store c) (c_df c) = Ok df3 /\
    length (c_store c) = length (p_store p) /\
    (forall r, r <> p_df p -> c_store c !! r = p_store p !! r) /\
    frame_ok df3 /\
    length (cluster_labels c) = nrows df /\
    map label (rows df3) = map label (rows df) /\
    columns df3 = add_column (add_column (add_column (columns df) "cluster") "PC1") "PC2" /\
    (forall i r3, rows df3 !! i = Some r3 ->
       exists r n,
         rows df !! i = Some r /\ cluster_labels c !! i = Some n /\
         pick (columns df3) (cells r3) "cluster" <> [] /\
         Forall (eq (CInt (Z.of_nat n))) (pick (columns df3) (cells r3) "cluster") /\
         (forall name, ~ In name ["cluster"; "PC1"; "PC2"] ->
            pick (columns df3) (cells r3) name = pick (columns df) (cells r) name)).
Proof.
  intros Hdf Hok Hc.
  destruct (cluster_inv L global p o c Hc)
    as (X & df0 & df1 & pc1 & df2 & pc2 & df3 & _ & _ & _ & _ & _ & Hdf0 & H1 & _ & H2 & _ & H3
        & Hstore & Hcdf & _ & _ & _).
  assert (df0 = df) by congruence. subst df0.
  assert (Hlt : p_df p < length (p_store p)).
  { apply deref_Some in Hdf. eapply lookup_lt_Some. exact Hdf. }
  destruct (setitem_spec _ _ _ _ Hok H1) as (Hok1 & Hlen1 & Hn1 & Hlab1 & Hcols1 & _ & Hrows1).
  destruct (setitem_spec _ _ _ _ Hok1 H2) as (Hok2 & Hlen2 & Hn2 & Hlab2 & Hcols2 & _ & Hrows2).
  destruct (setitem_spec _ _ _ _ Hok2 H3) as (Hok3 & Hlen3 & Hn3 & Hlab3 & Hcols3 & _ & Hrows3).
  exists df3. rewrite Hstore, Hcdf.
  split; [apply deref_assign_same; unfold assign; rewrite !length_insert; exact Hlt|].
  split; [unfold assign; rewrite !length_insert; reflexivity|].
  split; [intros r Hr; unfold assign; rewrite !list_lookup_insert_ne by congruence;
          reflexivity|].
  split; [exact Hok3|].
  split; [unfold int_cells in Hlen1; rewrite length_map in Hlen1; exact Hlen1|].
  split; [congruence|].
  split; [congruence|].
  intros i r3 Hr3.
  destruct (Hrows3 i r3 Hr3) as (r2 & v3 & Hr2 & _ & _ & _ & Hoth3).
  destruct (Hrows2 i r2 Hr2) as (r1 & v2 & Hr1 & _ & _ & _ & Hoth2).
  destruct (Hrows1 i r1 Hr1) as (r & v1 & Hr & Hv1 & Hne1 & Hall1 & Hoth1).
  apply map_lookup_Some in Hv1 as [n [Hn ->]].
  exists r, n. split; [exact Hr|]. split; [exact Hn|].
  assert (Hcl : pick (columns df3) (cells r3) "cluster" = pick (columns df1) (cells r1) "cluster").
  { rewrite Hoth3 by discriminate. apply Hoth2. discriminate. }
  rewrite Hcl. split; [exact Hne1|]. split; [exact Hall1|].
  intros name Hname. simpl in Hname.
  rewrite Hoth3, Hoth2, Hoth1; [reflexivity| | |]; intros ->; tauto.
Qed.

Lemma prepare_shape (l : Loaded) (df0 : DataFrame) o p :
  deref (l_store l) (l_df l) = Ok df0 ->
  prepare l = (o, Ok p) ->
  p_store p = l_store l ++ [kept_frame df0; feature_frame df0; target_frame df0] /\
  p_df p = length (l_store l) /\
  p_X p = S (length (l_store l)) /\
  p_y p = S (S (length (l_store l))) /\
  deref (p_store p) (p_df p) = Ok (kept_frame df0) /\
  deref (p_store p) (p_X p) = Ok (feature_frame df0) /\
  deref (p_store p) (p_y p) = Ok (target_frame df0).
Proof.
  intros Hdf Hp.
  destruct (prepare_inv l o p Hp) as [df0' [Hdf' Hmiss]].
  assert (df0' = df0) by congruence. subst df0'.
  rewrite (prepare_run l df0 Hdf Hmiss) in Hp. injection Hp as _ <-.
  cbn [p_store p_df p_X p_y]. rewrite <- !app_assoc. cbn [app].
  repeat split; apply deref_Some.
  - rewrite lookup_app_r by lia. rewrite Nat.sub_diag. reflexivity.
  - rewrite lookup_app_r by lia.
    replace (S (length (l_store l)) - length (l_store l)) with 1 by lia. reflexivity.
  - rewrite lookup_app_r by lia.
    replace (S (S (length (l_store l))) - length (l_store l)) with 2 by lia. reflexivity.
Qed.


(** ** The small library meets the contracts *)

Lemma res_mapM_length {A B} (f : A -> result B) : forall l ys,
  res_mapM f l = Ok ys -> length ys = length l.
Proof.
  induction l as [|x l IH]; intros ys H; simpl in H.
  - injection H as <-. reflexivity.
  - apply res_bind_ok_inv in H as [y [_ H]].
    apply res_bind_ok_inv in H as [ys' [Hys H]].
    injection H as <-. simpl. rewrite (IH ys' Hys). reflexivity.
Qed.

Lemma toy_split_rejects_small csv table : split_rejects_small (Toy.lib csv table).
Proof.
  intros r X y Hn. cbn [train_test_split Toy.lib]. unfold Toy.split.
  assert (Hz : Nat.eqb (nrows X - (nrows X + 4) / 5) 0 = true).
  { destruct (nrows X) as [|[|n]]; [reflexivity | reflexivity | lia]. }
  rewrite Hz. eexists. reflexivity.
Qed.

Lemma toy_scaler_rejects_empty csv table : scaler_rejects_empty (Toy.lib csv table).
Proof.
  intros X Hn. cbn [StandardScaler_fit_transform Toy.lib]. unfold Toy.scale.
  rewrite Hn. eexists. reflexivity.
Qed.

Lemma toy_scaler_keeps_rows csv table : scaler_keeps_rows (Toy.lib csv table).
Proof.
  intros X Xs. cbn [StandardScaler_fit_transform Toy.lib]. unfold Toy.scale.
  destruct (Nat.eqb (nrows X) 0); [discriminate|].
  intros H. apply res_bind_ok_inv in H as [m [Hm H]]. injection H as <-.
  rewrite length_map, length_seq. exact (res_mapM_length _ _ _ Hm).
Qed.

Lemma toy_kmeans_labels_in_range csv table : kmeans_labels_in_range (Toy.lib csv table).
Proof.
  intros r k Xs labels. cbn [KMeans_fit_predict Toy.lib]. unfold Toy.kmeans.
  destruct (Nat.ltb (length Xs) k || Nat.eqb k 0) eqn:E; [discriminate|].
  apply orb_false_iff in E as [_ Hk]. apply Nat.eqb_neq in Hk.
  intros [= <-]. split.
  - rewrite length_map, length_seq. reflexivity.
  - apply List.Forall_forall. intros n Hn. apply in_map_iff in Hn as [i [<- _]].
    apply Nat.mod_upper_bound. exact Hk.
Qed.

Lemma toy_silhouette_domain csv table : silhouette_domain (Toy.lib csv table).
Proof.
  intros Xs labels s. cbn [silhouette_score Toy.lib]. unfold Toy.silhouette.
  destruct (Nat.leb 2 (n_labels labels) && Nat.leb (n_labels labels) (length Xs - 1)) eqn:E;
    [|discriminate].
  apply andb_true_iff in E as [H1 H2].
  apply Nat.leb_le in H1. apply Nat.leb_le in H2. auto.
Qed.

Lemma sample_frame_ok :
  frame_ok (mkFrame (map normalize_column Sample.header) (rows Sample.raw)).
Proof. unfold frame_ok. vm_compute. repeat constructor. Qed.

Lemma sample_labels_NoDup : List.NoDup (map normalize_column Sample.header).
Proof.
  vm_compute. repeat (apply List.NoDup_cons; [simpl; intuition discriminate|]). apply List.NoDup_nil.
Qed.



(** In binary64 arithmetic the scaled sample is standardized within
    [10^-9], not exactly. *)
Example sample_standardized_within_rounding :
  let X := feature_frame (mkFrame (map normalize_column Sample.header) (rows Sample.raw)) in
  standardized (1 # 1000000000) X (X_scaled (Sample.clustered Sample.raw 0)) = true /\
  standardized 0 X (X_scaled (Sample.clustered Sample.raw 0)) = false.
Proof. cbv zeta. split; vm_compute; reflexivity. Qed.

(** ** The Clusterer completes when its library calls do *)

Lemma matrix_col_total j (m : matrix) :
  Forall (fun r => j < length r) m ->
  exists col, matrix_col j m = Ok col /\ length col = length m.
Proof.
  unfold matrix_col. induction m as [|r m IH]; intros H.
  - exists []. split; reflexivity.
  - apply Forall_cons in H as [Hr Hm]. destruct (IH Hm) as [col [Hcol Hlen]].
    destruct (nth_error r j) as [x|] eqn:E.
    + exists (x :: col). cbn [res_mapM]. rewrite E. cbn [res_bind].
      rewrite Hcol. cbn [res_bind]. split; [reflexivity | simpl; lia].
    + apply nth_error_None in E. lia.
Qed.

Lemma setitem_total name values df :
  length values = nrows df ->
  exists df', setitem name values df = Ok df' /\ nrows df' = nrows df.
Proof.
  intros H. unfold setitem. rewrite H, Nat.eqb_refl. eexists. split; [reflexivity|].
  unfold nrows. cbn [rows]. apply set_cells_length. exact H.
Qed.

(** When the scaler, the projection, the search and the final fit return,
    the projection having two coordinates for each row and the fit one
    label for each row, the Clusterer completes and prints the selected K. *)
Lemma cluster_completes (L : Library) (global : rng L) (p : Prepared)
  X df Xs Xp sc k labels :
  deref (p_store p) (p_X p) = Ok X ->
  deref (p_store p) (p_df p) = Ok df ->
  StandardScaler_fit_transform L X = Ok Xs ->
  PCA_fit_transform L global 2 Xs = Ok Xp ->
  length Xp = nrows df ->
  Forall (fun r => 1 < length r) Xp ->
  select_k L global Xs = Ok (sc, k) ->
  KMeans_fit_predict L (RandomState L 42%Z) k Xs = Ok labels ->
  length labels = nrows df ->
  exists c,
    cluster L global p = ([PrintBestK k], Ok c) /\
    best_k c = k /\ cluster_labels c = labels /\ scores c = sc.
Proof.
  intros HX Hdf Hs Hp Hlen Hwide Hsel Hfit Hlab.
  destruct (setitem_total "cluster" (int_cells labels) df) as [df1 [H1 Hn1]].
  { unfold int_cells. rewrite length_map. exact Hlab. }
  destruct (matrix_col_total 0 Xp) as [pc1 [Hpc1 Hl1]].
  { eapply Forall_impl; [exact Hwide|]. intros r Hr. simpl in Hr. lia. }
  destruct (setitem_total "PC1" (float_cells pc1) df1) as [df2 [H2 Hn2]].
  { unfold float_cells. rewrite length_map. lia. }
  destruct (matrix_col_total 1 Xp Hwide) as [pc2 [Hpc2 Hl2]].
  destruct (setitem_total "PC2" (float_cells pc2) df2) as [df3 [H3 Hn3]].
  { unfold float_cells. rewrite length_map. lia. }
  eexists. split.
  - exact (cluster_intro L global p X Xs Xp sc k labels df df1 pc1 df2 pc2 df3
             HX Hs Hp Hsel Hfit Hdf H1 Hpc1 H2 Hpc2 H3).
  - auto.
Qed.

(** ** Frame of the Clusterer *)





Example sample_columns_after :
  option_map columns
    (c_store (Sample.clustered Sample.raw 0) !! c_df (Sample.clustered Sample.raw 0))
  = Some [ "first"; "last"; "on_base_percent"; "slg_percent"; "isolated_power";
           "k_percent"; "bb_percent"; "exit_velocity_avg"; "sprint_speed"; "wrcplus";
           "f_fielding"; "spd"; "war"; "cluster"; "PC1"; "PC2" ].
Proof. vm_compute. reflexivity. Qed.

(** ** Reporter *)

Lemma unique_from_In l : forall seen x,
  In x (unique_from seen l) <-> In x l /\ ~ In x seen.
Proof.
  induction l as [|y l IH]; intros seen x; simpl; [tauto|].
  destruct (existsb (Z.eqb y) seen) eqn:E.
  - apply existsb_exists in E as [z [Hz Heq]]. apply Z.eqb_eq in Heq. subst z.
    rewrite IH. split.
    + intros [H1 H2]. auto.
    + intros [[->|H1] H2]; [contradiction | auto].
  - assert (Hy : ~ In y seen).
    { intros Hin. assert (existsb (Z.eqb y) seen = true); [|congruence].
      apply existsb_exists. exists y. split; [exact Hin | apply Z.eqb_refl]. }
    simpl. rewrite IH. simpl. split.
    + intros [->|[H1 H2]]; [auto|]. split; [auto|]. intros H. apply H2. right. exact H.
    + intros [[->|H1] H2]; [auto|].
      destruct (Z.eq_dec y x) as [->|Hne]; [auto|].
      right. split; [exact H1|]. intros [H|H]; [congruence | contradiction].
Qed.

Lemma unique_from_NoDup l : forall seen, List.NoDup (unique_from seen l).
Proof.
  induction l as [|y l IH]; intros seen; simpl; [constructor|].
  destruct (existsb (Z.eqb y) seen); [apply IH|].
  constructor; [|apply IH].
  rewrite unique_from_In. simpl. tauto.
Qed.

Lemma keep_mask_map {A} (f : A -> bool) l : keep_mask (map f l) l = List.filter f l.
Proof.
  induction l as [|x l IH]; simpl; [reflexivity|].
  rewrite IH. reflexivity.
Qed.

Lemma as_int_cells col : forall ids,
  res_mapM as_int col = Ok ids -> col = map CInt ids.
Proof.
  induction col as [|x col IH]; intros ids H; simpl in H.
  - injection H as <-. reflexivity.
  - apply res_bind_ok_inv in H as [z [Hz H]].
    apply res_bind_ok_inv in H as [zs [Hzs H]]. injection H as <-.
    destruct x; try discriminate. injection Hz as ->.
    simpl. rewrite (IH zs Hzs). reflexivity.
Qed.

Lemma column_values_pick name df col :
  column_values name df = Ok col ->
  col = map (fun r => hd CNone (pick (columns df) (cells r) name)) (rows df).
Proof.
  unfold column_values, select. intros H.
  destruct (missing_labels (columns df) [name]); [|discriminate].
  cbn [res_bind] in H. unfold series_values in H. cbn [columns rows] in H.
  destruct (pick_all (columns df) (columns df) [name]) as [|x [|]]; try discriminate.
  injection H as <-. rewrite map_map. apply map_ext. intros r.
  cbn [cells]. rewrite app_nil_r. reflexivity.
Qed.

Lemma for_each_outputs {A} (body : A -> Cell unit) (outs : A -> list output) l :
  (forall x, In x l -> body x = (outs x, Ok tt)) ->
  for_each l body = (flat_map outs l, Ok tt).
Proof.
  induction l as [|x l IH]; intros H; [reflexivity|].
  cbn [for_each flat_map]. rewrite (H x (or_introl eq_refl)).
  cbn [bind]. rewrite IH by (intros y Hy; apply H; right; exact Hy).
  reflexivity.
Qed.

Lemma report_cluster_run df col c :
  column_values "cluster" df = Ok col ->
  missing_labels (columns df) report_columns = [] ->
  report_cluster df c = ([PrintClusterTitle c; Display (cluster_sample df c)], Ok tt).
Proof.
  intros Hcol Hmiss. unfold report_cluster.
  rewrite bind_emit, Hcol, bind_lift.
  unfold select. cbn [columns getitem_mask rows]. rewrite Hmiss, bind_lift.
  cbn [fst snd emit]. unfold head, cluster_sample. cbn [columns rows].
  rewrite (column_values_pick _ _ _ Hcol), map_map.
  rewrite (keep_mask_map (fun r => cell_is c (hd CNone (pick (columns df) (cells r) "cluster")))).
  reflexivity.
Qed.

(** C9.  On a table whose ['cluster'] column holds integers and which has
    the six report columns, the Reporter completes.  It goes through the
    cluster ids in ascending order, each id of the table once and no other;
    for each it prints the title and shows the columns ['first'], ['last'],
    ['on_base_percent'], ['slg_percent'], ['wrcplus'], ['war'] of the first
    five rows of that cluster in table order, all of them when the cluster
    has fewer. *)
Theorem reporter_lists_each_cluster_once (s : Clustered) (df : DataFrame) col ids :
  deref (c_store s) (c_df s) = Ok df ->
  column_values "cluster" df = Ok col ->
  res_mapM as_int col = Ok ids ->
  missing_labels (columns df) report_columns = [] ->
  exists cs,
    report s =
      (flat_map (fun c => [PrintClusterTitle c; Display (cluster_sample df c)]) cs, Ok tt) /\
    StronglySorted Z.le cs /\
    List.NoDup cs /\
    (forall c, In c cs <-> exists r, In r (rows df) /\ member (columns df) c r = true) /\
    (forall c, columns (cluster_sample df c) =
               pick_all (columns df) (columns df) report_columns /\
               rows (cluster_sample df c) =
               firstn 5 (map (fun r => mkRow (label r)
                                         (pick_all (columns df) (cells r) report_columns))
                             (List.filter (member (columns df) c) (rows df))) /\
               nrows (cluster_sample df c) =
               Nat.min 5 (length (List.filter (member (columns df) c) (rows df)))).
Proof.
  intros Hdf Hcol Hids Hmiss.
  exists (sorted (unique ids)).
  assert (Hperm : forall c, In c (sorted (unique ids)) <-> In c ids).
  { intros c. unfold sorted. rewrite <- !list_elem_of_In.
    rewrite (merge_sort_Permutation Z.le (unique ids)).
    rewrite !list_elem_of_In. unfold unique. rewrite unique_from_In. simpl. tauto. }
  split; [|split; [|split; [|split]]].
  - unfold report. rewrite Hdf, bind_lift. unfold report_frame.
    rewrite Hcol, bind_lift, Hids, bind_lift.
    apply for_each_outputs. intros c _. apply (report_cluster_run df col c Hcol Hmiss).
  - apply StronglySorted_merge_sort; apply _.
  - unfold sorted. eapply Permutation_NoDup.
    + symmetry. apply merge_sort_Permutation.
    + apply unique_from_NoDup.
  - intros c. rewrite Hperm.
    pose proof (as_int_cells col ids Hids) as Hc.
    rewrite (column_values_pick _ _ _ Hcol) in Hc.
    unfold member. split.
    + intros Hin.
      assert (Hin' : In (CInt c) (map CInt ids)) by (apply in_map; exact Hin).
      rewrite <- Hc in Hin'. apply in_map_iff in Hin' as [r [Hr Hin']].
      exists r. split; [exact Hin'|]. rewrite Hr. simpl. apply Z.eqb_refl.
    + intros [r [Hr Hm]].
      assert (Hin' : In (hd CNone (pick (columns df) (cells r) "cluster")) (map CInt ids)).
      { rewrite <- Hc. apply in_map_iff. exists r. auto. }
      apply in_map_iff in Hin' as [z [Hz Hin']].
      rewrite <- Hz in Hm. simpl in Hm. apply Z.eqb_eq in Hm. subst z. exact Hin'.
  - intros c. split; [reflexivity|]. split; [reflexivity|].
    unfold nrows, cluster_sample. cbn [rows].
    rewrite length_firstn, length_map. reflexivity.
Qed.

Lemma reporter_lists_each_cluster_once_witness :
  let s := Sample.clustered Sample.raw 0 in
  let df := Sample.final_table Sample.raw 0 in
  exists cs,
    report s =
      (flat_map (fun c => [PrintClusterTitle c; Display (cluster_sample df c)]) cs, Ok tt) /\
    StronglySorted Z.le cs /\
    List.NoDup cs /\
    (forall c, In c cs <-> exists r, In r (rows df) /\ member (columns df) c r = true) /\
    (forall c, columns (cluster_sample df c) =
               pick_all (columns df) (columns df) report_columns /\
               rows (cluster_sample df c) =
               firstn 5 (map (fun r => mkRow (label r)
                                         (pick_all (columns df) (cells r) report_columns))
                             (List.filter (member (columns df) c) (rows df))) /\
               nrows (cluster_sample df c) =
               Nat.min 5 (length (List.filter (member (columns df) c) (rows df)))).
Proof.
  apply (reporter_lists_each_cluster_once
           (Sample.clustered Sample.raw 0) (Sample.final_table Sample.raw 0)
           (map CInt [0; 1; 2; 0; 1; 2; 0; 1; 2; 0]%Z)
           [0; 1; 2; 0; 1; 2; 0; 1; 2; 0]%Z).
  - vm_compute. reflexivity.
  - vm_compute. reflexivity.
  - reflexivity.
  - vm_compute. reflexivity.
Defined.

(** On the sample: three titles in ascending order, and cluster 0, which
    has four members, is shown whole with the labels of its rows. *)
Example sample_report_titles :
  flat_map (fun o => match o with PrintClusterTitle c => [c] | _ => [] end)
           (fst (report (Sample.clustered Sample.raw 0)))
  = [0; 1; 2]%Z.
Proof. vm_compute. reflexivity. Qed.

Example sample_report_cluster_0 :
  map label (rows (cluster_sample (Sample.final_table Sample.raw 0) 0)) = [0; 4; 8; 11].
Proof. vm_compute. reflexivity. Qed.

(** A cluster of seven is shown by its first five rows. *)
Example tiny_report :
  map (fun o => match o with
                | PrintClusterTitle c => inl c
                | Display df => inr (map label (rows df))
                | _ => inr []
                end)
      (fst (report_frame Sample.tiny))
  = [inl 0%Z; inr [3]; inl 1%Z; inr [0; 1; 2; 4; 5]].
Proof. vm_compute. reflexivity. Qed.

(** ** Too few rows *)

Lemma filter_none {A} (f : A -> bool) l :
  (forall x, In x l -> f x = false) -> List.filter f l = [].
Proof.
  induction l as [|x l IH]; intros H; simpl; [reflexivity|].
  rewrite (H x (or_introl eq_refl)). apply IH. intros y Hy. apply H. right. exact Hy.
Qed.

Lemma regress_split_raises (L : Library) (global : rng L) (p : Prepared) X y e :
  deref (p_store p) (p_X p) = Ok X ->
  deref (p_store p) (p_y p) = Ok y ->
  train_test_split L (RandomState L 42%Z) test_size X y = Raise e ->
  regress L global p = ([], Raise e).
Proof.
  intros HX Hy Hsplit. unfold regress.
  rewrite HX, bind_lift, Hy, bind_lift. cbn [check_random_state].
  rewrite Hsplit, bind_lift. reflexivity.
Qed.

Lemma select_k_needs_three_rows (L : Library) (global : rng L) (Xs : matrix) :
  silhouette_domain L -> length Xs < 3 ->
  exists e, select_k L global Xs = Raise e.
Proof.
  intros Hdom Hlen. unfold select_k, range. cbn [seq Nat.sub silhouette_search].
  destruct (KMeans_fit_predict L _ 2 Xs) as [labels|e]; [|exists e; reflexivity].
  cbn [res_bind].
  destruct (silhouette_score L Xs labels) as [s|e] eqn:Hs; [|exists e; reflexivity].
  destruct (Hdom _ _ _ Hs) as [H1 H2]. lia.
Qed.

Lemma cluster_needs_three_rows (L : Library) (global : rng L) (p : Prepared) X :
  scaler_keeps_rows L -> silhouette_domain L ->
  deref (p_store p) (p_X p) = Ok X ->
  nrows X < 3 ->
  exists e, cluster L global p = ([], Raise e).
Proof.
  intros Hrows Hdom HX Hn. unfold cluster. rewrite HX, bind_lift.
  destruct (StandardScaler_fit_transform L X) as [Xs|e] eqn:Hs;
    [|exists e; rewrite bind_lift; reflexivity].
  rewrite bind_lift.
  destruct (PCA_fit_transform L _ 2 Xs) as [Xp|e];
    [|exists e; rewrite bind_lift; reflexivity].
  rewrite bind_lift.
  destruct (select_k_needs_three_rows L global Xs Hdom) as [e He].
  { rewrite (Hrows X Xs Hs). exact Hn. }
  exists e. rewrite He, bind_lift. reflexivity.
Qed.

(** C7.  Take a library whose splitter refuses to leave the training part
    empty, whose scaler refuses an empty table and keeps the row count, and
    whose silhouette score needs 2 <= n_labels <= n_samples - 1.  On a
    table that has the eleven columns and in which every row has a missing
    value under one of them, the Feature Preparer completes with an empty
    [X]; the Regressor then stops with the exception of [train_test_split]
    and the Clusterer with that of the scaler, neither printing anything,
    and a run of the whole notebook prints the column names and stops with
    an exception.  More generally the Clusterer stops with an exception
    whenever fewer than three rows remain, three being what a silhouette
    score at K = 2 needs. *)
Theorem no_complete_row_stops_the_run
  (L : Library) (global : rng L) (l : Loaded) (df0 : DataFrame) :
  split_rejects_small L ->
  scaler_rejects_empty L ->
  scaler_keeps_rows L ->
  silhouette_domain L ->
  deref (l_store l) (l_df l) = Ok df0 ->
  missing_labels (columns df0) (features ++ ["war"]) = [] ->
  (forall r, In r (rows df0) -> ~ row_complete (columns df0) (features ++ ["war"]) r) ->
  exists p X y,
    prepare l = ([], Ok p) /\
    deref (p_store p) (p_X p) = Ok X /\
    deref (p_store p) (p_y p) = Ok y /\
    rows X = [] /\ rows y = [] /\
    (exists e, train_test_split L (RandomState L 42%Z) test_size X y = Raise e /\
               regress L global p = ([], Raise e)) /\
    (exists e, StandardScaler_fit_transform L X = Raise e /\
               cluster L global p = ([], Raise e)) /\
    (forall ol, load L = (ol, Ok l) -> exists e, run_all L global = (ol, Raise e)) /\
    (forall p' X', deref (p_store p') (p_X p') = Ok X' -> nrows X' < 3 ->
                   exists e, cluster L global p' = ([], Raise e)).
Proof.
  intros Hsplit Hempty Hrows Hdom Hdf Hmiss Hnone.
  pose proof (prepare_run l df0 Hdf Hmiss) as Hrun.
  destruct (prepare_shape l df0 _ _ Hdf Hrun) as (_ & _ & _ & _ & _ & HX & Hy).
  assert (Hkept : rows (kept_frame df0) = []).
  { unfold kept_frame. cbn [rows]. apply filter_none. intros r Hr.
    destruct (complete (columns df0) (features ++ ["war"]) r) eqn:E; [|reflexivity].
    apply complete_iff in E. destruct (Hnone r Hr E). }
  assert (HXrows : rows (feature_frame df0) = [])
    by (unfold feature_frame; cbn [rows]; rewrite Hkept; reflexivity).
  assert (Hyrows : rows (target_frame df0) = [])
    by (unfold target_frame; cbn [rows]; rewrite Hkept; reflexivity).
  destruct (Hsplit (RandomState L 42%Z) (feature_frame df0) (target_frame df0)) as [e1 He1].
  { unfold nrows. rewrite HXrows. simpl. lia. }
  destruct (Hempty (feature_frame df0)) as [e2 He2].
  { unfold nrows. rewrite HXrows. reflexivity. }
  pose proof (regress_split_raises L global _ _ _ _ HX Hy He1) as Hreg.
  eexists _, (feature_frame df0), (target_frame df0).
  split; [exact Hrun|]. split; [exact HX|]. split; [exact Hy|].
  split; [exact HXrows|]. split; [exact Hyrows|].
  split; [exists e1; split; [exact He1 | exact Hreg]|].
  split; [|split].
  - exists e2. split; [exact He2|].
    unfold cluster. rewrite HX, bind_lift, He2, bind_lift. reflexivity.
  - intros ol Hl. exists e1. unfold run_all. rewrite Hl. cbn [bind].
    rewrite Hrun. cbn [bind]. rewrite Hreg. cbn [bind app].
    rewrite app_nil_r. reflexivity.
  - intros p' X' HX' Hn. exact (cluster_needs_three_rows L global p' X' Hrows Hdom HX' Hn).
Qed.

Lemma no_complete_row_stops_the_run_witness :
  let L := Sample.lib Sample.all_missing in
  let l := Sample.loaded Sample.all_missing in
  exists p X y,
    prepare l = ([], Ok p) /\
    deref (p_store p) (p_X p) = Ok X /\
    deref (p_store p) (p_y p) = Ok y /\
    rows X = [] /\ rows y = [] /\
    (exists e, train_test_split L (RandomState L 42%Z) test_size X y = Raise e /\
               regress L 0%Z p = ([], Raise e)) /\
    (exists e, StandardScaler_fit_transform L X = Raise e /\
               cluster L 0%Z p = ([], Raise e)) /\
    (forall ol, load L = (ol, Ok l) -> exists e, run_all L 0%Z = (ol, Raise e)) /\
    (forall p' X', deref (p_store p') (p_X p') = Ok X' -> nrows X' < 3 ->
                   exists e, cluster L 0%Z p' = ([], Raise e)).
Proof.
  apply (no_complete_row_stops_the_run (Sample.lib Sample.all_missing) 0%Z
           (Sample.loaded Sample.all_missing)
           (mkFrame (map normalize_column Sample.header) (rows Sample.all_missing))).
  - apply toy_split_rejects_small.
  - apply toy_scaler_rejects_empty.
  - apply toy_scaler_keeps_rows.
  - apply toy_silhouette_domain.
  - reflexivity.
  - reflexivity.
  - intros r Hr Hc. apply complete_iff in Hc.
    assert (Hall : forallb (fun r => negb (complete (map normalize_column Sample.header)
                                             (features ++ ["war"]) r))
                           (rows Sample.all_missing) = true)
      by (vm_compute; reflexivity).
    rewrite forallb_forall in Hall. specialize (Hall r Hr).
    cbn [columns] in Hc. rewrite Hc in Hall. discriminate Hall.
Defined.

(** The run on the sample with no complete row: the column names are shown,
    then the splitter raises. *)
Example sample_all_missing_run :
  let r := run_all (Sample.lib Sample.all_missing) 0%Z in
  length (fst r) = 1 /\
  snd r = Raise (ValueError "the resulting train set will be empty").
Proof. vm_compute. split; reflexivity. Qed.

(** ** Regressor *)

Lemma print_coefs_numbers cols : forall v,
  for_each (combine cols (map inl v)) print_coef =
    (map (fun q => PrintCoef (fst q) (snd q)) (combine cols v), Ok tt).
Proof.
  induction cols as [|c cols IH]; intros [|x v]; try reflexivity.
  cbn [map combine for_each]. rewrite IH. reflexivity.
Qed.

Lemma print_coefs (cols : list string) (a : ndarray) :
  for_each (combine cols (items a)) print_coef =
    (coef_lines cols a,
     match a with
     | Array1 _ => Ok tt
     | Array2 m => match combine cols m with [] => Ok tt | _ :: _ => Raise TypeError end
     end).
Proof.
  destruct a as [v|m]; cbn [items coef_lines]; [apply print_coefs_numbers|].
  destruct cols as [|c cols]; [reflexivity|]. destruct m as [|r m]; reflexivity.
Qed.

Lemma regress_run (L : Library) (global : rng L) (p : Prepared)
  X y Xtr Xte ytr yte m pred r2 rmse :
  deref (p_store p) (p_X p) = Ok X ->
  deref (p_store p) (p_y p) = Ok y ->
  train_test_split L (RandomState L 42%Z) test_size X y = Ok (Xtr, Xte, ytr, yte) ->
  LinearRegression_fit L Xtr ytr = Ok m ->
  LinearRegression_predict L m Xte = Ok pred ->
  r2_score L yte pred = Ok r2 ->
  mean_squared_error L yte pred false = Ok rmse ->
  regress L global p =
    ([PrintR2 r2; PrintRMSE rmse; PrintImportancesTitle] ++ coef_lines (columns X) (coef_ m),
     match coef_ m with
     | Array1 _ => Ok (mkRegression Xtr Xte ytr yte m pred)
     | Array2 rows =>
         match combine (columns X) rows with
         | [] => Ok (mkRegression Xtr Xte ytr yte m pred)
         | _ :: _ => Raise TypeError
         end
     end).
Proof.
  intros HX Hy Hs Hf Hp Hr Hm. unfold regress.
  rewrite HX, bind_lift, Hy, bind_lift. cbn [check_random_state].
  rewrite Hs, bind_lift, Hf, bind_lift, Hp, bind_lift, Hr, bind_lift.
  rewrite bind_emit, Hm, bind_lift, !bind_emit, print_coefs.
  destruct (coef_ m) as [v|rows]; cbn [bind ret fst snd coef_lines app];
    [rewrite app_nil_r; reflexivity|].
  destruct (combine (columns X) rows); reflexivity.
Qed.

Lemma toy_split_keeps_columns csv table : split_keeps_columns (Toy.lib csv table).
Proof.
  intros r ts X y Xtr Xte ytr yte. cbn [train_test_split Toy.lib]. unfold Toy.split.
  destruct (Nat.eqb _ 0); [discriminate|]. intros [= <- <- <- <-]. auto.
Qed.

Lemma toy_fit_coef_shape csv table : fit_coef_shape (Toy.lib csv table).
Proof.
  intros X y m. cbn [LinearRegression_fit Toy.lib]. unfold Toy.fit.
  destruct (Nat.eqb (nrows X) 0); [discriminate|]. intros [= <-]. cbn [coef_].
  destruct (columns y) as [|t [|t' ts]].
  - exists []. auto.
  - eexists. split; [reflexivity|]. apply length_map.
  - eexists. split; [reflexivity|]. simpl. rewrite length_map. reflexivity.
Qed.

(** C6, as the code has it.  The Regressor has no check of its own.  Take
    a library whose splitter refuses to leave the training part empty and
    keeps the columns, and whose fit returns one coefficient per feature
    column for a one-column target, and a loaded table with distinct column
    names.  [X] then has the ten feature columns and [y] the column
    ['war'].  With fewer than two prepared rows the Regressor stops with
    the splitter's exception, before printing anything.  Whenever the
    split, the fit, the prediction and the two metrics return, whatever the
    rank of the feature matrix, it completes: it prints R2, RMSE, the title
    and ten lines, the [i]-th pairing the [i]-th feature with the [i]-th
    coefficient. *)
Theorem regressor_relies_on_library_checks
  (L : Library) (global : rng L) (l : Loaded) (df0 : DataFrame) o p :
  split_rejects_small L ->
  split_keeps_columns L ->
  fit_coef_shape L ->
  deref (l_store l) (l_df l) = Ok df0 ->
  List.NoDup (columns df0) ->
  prepare l = (o, Ok p) ->
  exists X y,
    deref (p_store p) (p_X p) = Ok X /\
    deref (p_store p) (p_y p) = Ok y /\
    columns X = features /\ columns y = ["war"] /\
    (nrows X < 2 ->
     exists e, train_test_split L (RandomState L 42%Z) test_size X y = Raise e /\
               regress L global p = ([], Raise e)) /\
    (forall Xtr Xte ytr yte m pred r2 rmse,
       train_test_split L (RandomState L 42%Z) test_size X y = Ok (Xtr, Xte, ytr, yte) ->
       LinearRegression_fit L Xtr ytr = Ok m ->
       LinearRegression_predict L m Xte = Ok pred ->
       r2_score L yte pred = Ok r2 ->
       mean_squared_error L yte pred false = Ok rmse ->
       exists v,
         coef_ m = Array1 v /\ length v = 10 /\
         regress L global p =
           ([PrintR2 r2; PrintRMSE rmse; PrintImportancesTitle]
              ++ map (fun q => PrintCoef (fst q) (snd q)) (combine features v),
            Ok (mkRegression Xtr Xte ytr yte m pred))).
Proof.
  intros Hsmall Hcols Hshape Hdf Hnd Hp.
  destruct (prepare_inv l o p Hp) as [df0' [Hdf' Hmiss]].
  assert (df0' = df0) by congruence. subst df0'.
  destruct (prepare_shape l df0 o p Hdf Hp) as (_ & _ & _ & _ & _ & HX & Hy).
  pose proof Hmiss as Hboth. apply missing_labels_app in Hboth as [Hf Hw].
  assert (HcX : columns (feature_frame df0) = features)
    by apply (pick_all_labels _ _ Hnd Hf).
  assert (Hcy : columns (target_frame df0) = ["war"])
    by apply (pick_all_labels _ _ Hnd Hw).
  exists (feature_frame df0), (target_frame df0).
  split; [exact HX|]. split; [exact Hy|]. split; [exact HcX|]. split; [exact Hcy|].
  split.
  - intros Hn. destruct (Hsmall (RandomState L 42%Z) _ (target_frame df0) Hn) as [e He].
    exists e. split; [exact He|]. exact (regress_split_raises L global p _ _ e HX Hy He).
  - intros Xtr Xte ytr yte m pred r2 rmse Hs Hfit Hpred Hr2 Hrmse.
    destruct (Hcols _ _ _ _ _ _ _ _ Hs) as (HXtr & _ & Hytr & _).
    pose proof (Hshape Xtr ytr m Hfit) as Hm. rewrite Hytr, Hcy, HXtr, HcX in Hm.
    destruct Hm as [v [Hv Hlen]]. exists v. split; [exact Hv|]. split; [exact Hlen|].
    rewrite (regress_run L global p _ _ _ _ _ _ m pred r2 rmse HX Hy Hs Hfit Hpred Hr2 Hrmse).
    rewrite Hv, HcX. reflexivity.
Qed.

(** The theorem on two tables: one complete player, where the splitter
    refuses; ten complete players with a repeated column, where the run
    goes to its end. *)
Lemma regressor_relies_on_library_checks_witness :
  (exists e, regress (Sample.lib Cases.one_player) 0%Z (Sample.prepared Cases.one_player)
             = ([], Raise e)) /\
  (exists v reg,
     length v = 10 /\
     regress (Sample.lib Sample.collinear) 0%Z (Sample.prepared Sample.collinear) =
       ([PrintR2 Toy.zero; PrintRMSE Toy.zero; PrintImportancesTitle]
          ++ map (fun q => PrintCoef (fst q) (snd q)) (combine features v),
        Ok reg)).
Proof.
  split.
  - destruct (regressor_relies_on_library_checks (Sample.lib Cases.one_player) 0%Z
                (Sample.loaded Cases.one_player)
                (mkFrame (map normalize_column Sample.header) (rows Cases.one_player))
                [] (Sample.prepared Cases.one_player))
      as (X & y & HX & _ & _ & _ & Hsmall & _).
    + apply toy_split_rejects_small.
    + apply toy_split_keeps_columns.
    + apply toy_fit_coef_shape.
    + reflexivity.
    + exact sample_labels_NoDup.
    + vm_compute. reflexivity.
    + destruct Hsmall as [e [_ He]].
      * vm_compute in HX. injection HX as <-. vm_compute. lia.
      * exists e. exact He.
  - destruct (regressor_relies_on_library_checks (Sample.lib Sample.collinear) 0%Z
                (Sample.loaded Sample.collinear)
                (mkFrame (map normalize_column Sample.header) (rows Sample.collinear))
                [] (Sample.prepared Sample.collinear))
      as (X & y & HX & Hy & _ & _ & _ & Hrun).
    + apply toy_split_rejects_small.
    + apply toy_split_keeps_columns.
    + apply toy_fit_coef_shape.
    + reflexivity.
    + exact sample_labels_NoDup.
    + vm_compute. reflexivity.
    + vm_compute in HX. injection HX as <-. vm_compute in Hy. injection Hy as <-.
      edestruct Hrun as [v [_ [Hlen Hreg]]]; [vm_compute; reflexivity | vm_compute; reflexivity
        | vm_compute; reflexivity | vm_compute; reflexivity | vm_compute; reflexivity |].
      eexists v, _. split; [exact Hlen | exact Hreg].
Defined.

(** A feature table whose slugging column repeats its on-base column is
    rank-deficient; the Regressor runs to the end on it and prints a
    coefficient for each of the ten features. *)
Lemma regressor_completes_on_collinear_features :
  let L := Sample.lib Sample.collinear in
  let p := Sample.prepared Sample.collinear in
  let X := feature_frame (mkFrame (map normalize_column Sample.header)
                                  (rows Sample.collinear)) in
  deref (p_store p) (p_X p) = Ok X /\
  columns X = features /\
  nrows X = 10 /\
  cells_same (column_at 0 X) (column_at 1 X) = true /\
  duplicate_columns X = true /\
  exists r,
    snd (regress L 0%Z p) = Ok r /\
    nrows (X_train r) = 8 /\ nrows (X_test r) = 2 /\
    coef_ (lr r) = Array1 (map (fun _ => Toy.zero) features) /\
    map (fun o => match o with PrintCoef col _ => col | _ => EmptyString end)
        (skipn 3 (fst (regress L 0%Z p))) = features.
Proof.
  cbv zeta.
  split; [vm_compute; reflexivity|]. split; [vm_compute; reflexivity|].
  split; [vm_compute; reflexivity|]. split; [vm_compute; reflexivity|].
  split; [vm_compute; reflexivity|].
  destruct (snd (regress (Sample.lib Sample.collinear) 0%Z
                   (Sample.prepared Sample.collinear))) as [r|e] eqn:Hr;
    [|vm_compute in Hr; discriminate Hr].
  exists r. split; [reflexivity|].
  vm_compute in Hr. injection Hr as <-.
  repeat split; vm_compute; reflexivity.
Qed.

(* ===================================================================== *)
(** * Further properties of the notebook *)
(* ===================================================================== *)

(** ** Renaming the columns twice *)

(** X1.  Renaming is idempotent on ASCII names: a name that has been
    through the Loader's strip, lower and replace chain is left as it is by
    a second pass, so running the renaming statement again changes no
    column name. *)
Theorem normalize_column_idempotent (name : string) :
  PyStr.isascii name = true ->
  PyStr.isascii (normalize_column name) = true /\
  normalize_column (normalize_column name) = normalize_column name.
Proof.
  intros Hascii. split; [exact (normalize_column_ascii name Hascii)|].
  destruct (normalize_column_clean name) as (Hup & Hsp & Hplus & Hpct).
  destruct (normalize_column_edges name) as [Hs He].
  set (n := normalize_column name) in *.
  unfold normalize_column at 1. unfold PyStr.strip.
  rewrite (lstrip_id n Hs), (rstrip_id n He), (lower_id n Hup).
  rewrite (replace_id " " "_" n Hsp), (replace_id "+" "plus" n Hplus).
  apply (replace_id "%" "percent" n Hpct).
Qed.

Lemma normalize_column_idempotent_witness :
  PyStr.isascii " K % wRC+ " = true /\
  PyStr.isascii (normalize_column " K % wRC+ ") = true /\
  normalize_column (normalize_column " K % wRC+ ") = normalize_column " K % wRC+ ".
Proof.
  split; [reflexivity|].
  apply (normalize_column_idempotent " K % wRC+ "). reflexivity.
Defined.

(** ** A column is absent *)



Example no_war_run :
  snd (run_all (Sample.lib Cases.no_war) 0%Z) = Raise (KeyError ["war"]).
Proof. vm_compute. reflexivity. Qed.

(** ** Preparing again *)

Lemma filter_idem {A} (f : A -> bool) l : List.filter f (List.filter f l) = List.filter f l.
Proof.
  induction l as [|x l IH]; simpl; [reflexivity|].
  destruct (f x) eqn:E; simpl; [rewrite E, IH; reflexivity | exact IH].
Qed.

Lemma kept_frame_idem df0 : kept_frame (kept_frame df0) = kept_frame df0.
Proof. unfold kept_frame. cbn [columns rows]. rewrite filter_idem. reflexivity. Qed.

Lemma feature_frame_kept df0 : feature_frame (kept_frame df0) = feature_frame df0.
Proof. unfold feature_frame. rewrite kept_frame_idem. reflexivity. Qed.

Lemma target_frame_kept df0 : target_frame (kept_frame df0) = target_frame df0.
Proof. unfold target_frame. rewrite kept_frame_idem. reflexivity. Qed.

(** X3.  Running the preparation cell a second time, on the state its first
    run left, completes and drops no further row: [df], [X] and [y] are
    bound to new objects holding the same tables as before, and the objects
    of the first run stay in the store unchanged. *)
Theorem prepare_again_changes_nothing (l : Loaded) (df0 : DataFrame) o p :
  deref (l_store l) (l_df l) = Ok df0 ->
  prepare l = (o, Ok p) ->
  exists p',
    prepare (mkLoaded (p_store p) (p_df p)) = ([], Ok p') /\
    deref (p_store p') (p_df p') = deref (p_store p) (p_df p) /\
    deref (p_store p') (p_X p') = deref (p_store p) (p_X p) /\
    deref (p_store p') (p_y p') = deref (p_store p) (p_y p) /\
    (forall r, r < length (p_store p) -> p_store p' !! r = p_store p !! r).
Proof.
  intros Hdf Hp.
  destruct (prepare_inv l o p Hp) as [df0' [Hdf' Hmiss]].
  assert (df0' = df0) by congruence. subst df0'.
  destruct (prepare_shape l df0 o p Hdf Hp) as (_ & _ & _ & _ & Hd & HX & Hy).
  set (l2 := mkLoaded (p_store p) (p_df p)).
  assert (Hdf2 : deref (l_store l2) (l_df l2) = Ok (kept_frame df0)) by exact Hd.
  assert (Hmiss2 : missing_labels (columns (kept_frame df0)) (features ++ ["war"]) = [])
    by exact Hmiss.
  pose proof (prepare_run l2 (kept_frame df0) Hdf2 Hmiss2) as Hrun.
  match type of Hrun with _ = (_, Ok ?q) => set (p' := q) in * end.
  destruct (prepare_shape l2 (kept_frame df0) _ p' Hdf2 Hrun)
    as (Hst & _ & _ & _ & Hd2 & HX2 & Hy2).
  exists p'. split; [exact Hrun|].
  rewrite Hd2, HX2, Hy2, Hd, HX, Hy.
  rewrite kept_frame_idem, feature_frame_kept, target_frame_kept.
  split; [reflexivity|]. split; [reflexivity|]. split; [reflexivity|].
  intros r Hr. rewrite Hst. cbn [l_store l2]. apply lookup_app_l. exact Hr.
Qed.

Lemma prepare_again_changes_nothing_witness :
  let p := Sample.prepared Sample.raw in
  exists p',
    prepare (mkLoaded (p_store p) (p_df p)) = ([], Ok p') /\
    deref (p_store p') (p_df p') = deref (p_store p) (p_df p) /\
    deref (p_store p') (p_X p') = deref (p_store p) (p_X p) /\
    deref (p_store p') (p_y p') = deref (p_store p) (p_y p) /\
    (forall r, r < length (p_store p) -> p_store p' !! r = p_store p !! r).
Proof.
  apply (prepare_again_changes_nothing (Sample.loaded Sample.raw)
           (mkFrame (map normalize_column Sample.header) (rows Sample.raw))
           [] (Sample.prepared Sample.raw)).
  - reflexivity.
  - vm_compute. reflexivity.
Defined.

(** ** The shape of [X] and [y] *)

Lemma pick_single {A} cols (xs : list A) name :
  List.NoDup cols -> In name cols -> length xs = length cols ->
  exists x, pick cols xs name = [x].
Proof.
  intros Hnd Hin Hlen.
  pose proof (pick_length cols xs name Hlen) as H.
  rewrite (pick_label_unique cols name Hnd Hin) in H.
  destruct (pick cols xs name) as [|x [|]]; try discriminate. eauto.
Qed.

(** Projecting on unique labels, then reading a label of the projection,
    gives the cell that sat under that label. *)
Lemma pick_of_pick_all {A} cols (xs : list A) names n :
  List.NoDup cols -> length xs = length cols ->
  missing_labels cols names = [] ->
  List.NoDup names -> In n names ->
  pick names (pick_all cols xs names) n = pick cols xs n /\
  length (pick_all cols xs names) = length names.
Proof.
  intros Hnd Hlen. revert n.
  induction names as [|m names IH]; intros n Hmiss Hnames Hn; [contradiction|].
  change (m :: names) with ([m] ++ names) in Hmiss.
  apply missing_labels_app in Hmiss as [Hm Hrest].
  apply NoDup_cons_iff in Hnames as [Hm_new Hnames].
  assert (Hmin : In m cols)
    by (apply (missing_labels_nil_In cols [m] m Hm); left; reflexivity).
  destruct (pick_single cols xs m Hnd Hmin Hlen) as [x Hx].
  unfold pick_all in *. cbn [flat_map]. rewrite Hx. cbn [app].
  assert (Hlen' : length (flat_map (pick cols xs) names) = length names).
  { destruct names as [|m' names']; [reflexivity|].
    exact (proj2 (IH m' Hrest Hnames (or_introl eq_refl))). }
  split; [|simpl; rewrite Hlen'; reflexivity].
  rewrite pick_cons. destruct (String.eqb_spec m n) as [->|Hne].
  - rewrite pick_no_column; [rewrite Hx; reflexivity|].
    destruct (has_column names n) eqn:E; [|reflexivity].
    apply has_column_In in E. contradiction.
  - destruct Hn as [->|Hn]; [contradiction|].
    exact (proj1 (IH n Hrest Hnames Hn)).
Qed.

Lemma features_NoDup : List.NoDup features.
Proof.
  unfold features.
  repeat (apply List.NoDup_cons; [simpl; intuition discriminate|]). apply List.NoDup_nil.
Qed.

(** X4.  On a rectangular table with distinct column labels, whatever the
    order of its columns, the prepared [X] has exactly the ten feature
    columns in the order of the [features] list and [y] the single column
    ['war']; every row of [X] has ten cells and the cell read under a
    feature label in [X] is the cell that the retained row of [df] has under
    that label; the row of [y] holds the row's ['war'] cell; [X], [y] and
    [df] carry the same index label at each position. *)
Theorem feature_matrix_has_the_ten_features (l : Loaded) (df0 : DataFrame) o p :
  deref (l_store l) (l_df l) = Ok df0 ->
  frame_ok df0 ->
  List.NoDup (columns df0) ->
  prepare l = (o, Ok p) ->
  exists df X y,
    deref (p_store p) (p_df p) = Ok df /\
    deref (p_store p) (p_X p) = Ok X /\
    deref (p_store p) (p_y p) = Ok y /\
    columns X = features /\
    columns y = ["war"] /\
    Forall (fun r => length (cells r) = 10) (rows X) /\
    Forall (fun r => length (cells r) = 1) (rows y) /\
    (forall i r0, rows df !! i = Some r0 ->
       exists rX ry,
         rows X !! i = Some rX /\ rows y !! i = Some ry /\
         label rX = label r0 /\ label ry = label r0 /\
         (forall n, In n features ->
            pick (columns X) (cells rX) n = pick (columns df) (cells r0) n) /\
         cells ry = pick (columns df) (cells r0) "war").
Proof.
  intros Hdf Hok Hnd Hp.
  destruct (prepare_inv l o p Hp) as [df0' [Hdf' Hmiss]].
  assert (df0' = df0) by congruence. subst df0'.
  destruct (prepare_shape l df0 o p Hdf Hp) as (_ & _ & _ & _ & Hd & HX & Hy).
  pose proof Hmiss as Hboth. apply missing_labels_app in Hboth as [Hf Hw].
  assert (Hkept : forall r, In r (rows (kept_frame df0)) ->
                            length (cells r) = length (columns df0)).
  { intros r Hr. pose proof (frame_ok_kept df0 Hok) as H.
    unfold frame_ok in H. rewrite List.Forall_forall in H. exact (H r Hr). }
  exists (kept_frame df0), (feature_frame df0), (target_frame df0).
  split; [exact Hd|]. split; [exact HX|]. split; [exact Hy|].
  split; [apply (pick_all_labels _ _ Hnd Hf)|].
  split; [apply (pick_all_labels _ _ Hnd Hw)|].
  split; [|split].
  - apply List.Forall_forall. intros r Hr. unfold feature_frame in Hr. cbn [rows] in Hr.
    apply in_map_iff in Hr as [r0 [<- Hr0]]. cbn [cells].
    apply (pick_of_pick_all (columns df0) (cells r0) features "spd" Hnd
             (Hkept r0 Hr0) Hf features_NoDup).
    simpl. intuition.
  - apply List.Forall_forall. intros r Hr. unfold target_frame in Hr. cbn [rows] in Hr.
    apply in_map_iff in Hr as [r0 [<- Hr0]]. cbn [cells].
    apply (pick_of_pick_all (columns df0) (cells r0) ["war"] "war" Hnd (Hkept r0 Hr0) Hw).
    + repeat constructor. simpl. tauto.
    + left. reflexivity.
  - intros i r0 Hi.
    assert (Hr0 : In r0 (rows (kept_frame df0)))
      by (apply list_elem_of_In; eapply list_elem_of_lookup_2; exact Hi).
    eexists _, _.
    split; [unfold feature_frame; cbn [rows]; apply map_lookup; exact Hi|].
    split; [unfold target_frame; cbn [rows]; apply map_lookup; exact Hi|].
    cbn [label cells]. split; [reflexivity|]. split; [reflexivity|].
    split.
    + intros n Hn.
      change (columns (feature_frame df0))
        with (pick_all (columns df0) (columns df0) features).
      change (columns (kept_frame df0)) with (columns df0).
      rewrite (pick_all_labels _ _ Hnd Hf).
      apply (pick_of_pick_all (columns df0) (cells r0) features n Hnd
               (Hkept r0 Hr0) Hf features_NoDup Hn).
    + apply pick_all_single.
Qed.

Lemma feature_matrix_has_the_ten_features_witness :
  let p := Sample.prepared Sample.raw in
  exists df X y,
    deref (p_store p) (p_df p) = Ok df /\
    deref (p_store p) (p_X p) = Ok X /\
    deref (p_store p) (p_y p) = Ok y /\
    columns X = features /\
    columns y = ["war"] /\
    Forall (fun r => length (cells r) = 10) (rows X) /\
    Forall (fun r => length (cells r) = 1) (rows y) /\
    (forall i r0, rows df !! i = Some r0 ->
       exists rX ry,
         rows X !! i = Some rX /\ rows y !! i = Some ry /\
         label rX = label r0 /\ label ry = label r0 /\
         (forall n, In n features ->
            pick (columns X) (cells rX) n = pick (columns df) (cells r0) n) /\
         cells ry = pick (columns df) (cells r0) "war").
Proof.
  apply (feature_matrix_has_the_ten_features (Sample.loaded Sample.raw)
           (mkFrame (map normalize_column Sample.header) (rows Sample.raw))
           [] (Sample.prepared Sample.raw)).
  - reflexivity.
  - exact sample_frame_ok.
  - exact sample_labels_NoDup.
  - vm_compute. reflexivity.
Defined.

(** ** Writing a column and reading it back *)

Lemma column_values_unique name df :
  List.NoDup (columns df) -> In name (columns df) ->
  column_values name df =
    Ok (map (fun r => hd CNone (pick (columns df) (cells r) name)) (rows df)).
Proof.
  intros Hnd Hin. unfold column_values, select.
  assert (Hmiss : missing_labels (columns df) [name] = []).
  { unfold missing_labels. simpl.
    apply has_column_In in Hin. rewrite Hin. reflexivity. }
  rewrite Hmiss. cbn [res_bind]. unfold series_values. cbn [columns rows].
  rewrite pick_all_single, (pick_label_unique _ _ Hnd Hin).
  rewrite map_map. f_equal. apply map_ext. intros r. cbn [cells].
  rewrite pick_all_single. reflexivity.
Qed.

Lemma column_values_absent name df :
  ~ In name (columns df) -> column_values name df = Raise (KeyError [name]).
Proof.
  intros Hin. unfold column_values, select, missing_labels. simpl.
  destruct (has_column (columns df) name) eqn:E; [|reflexivity].
  apply has_column_In in E. contradiction.
Qed.

Lemma add_column_NoDup cols name : List.NoDup cols -> List.NoDup (add_column cols name).
Proof.
  intros Hnd. unfold add_column. destruct (has_column cols name) eqn:E; [exact Hnd|].
  assert (Hnew : ~ In name cols).
  { intros H. apply has_column_In in H. congruence. }
  clear E. induction cols as [|c cols IH]; simpl.
  - constructor; [intros [] | constructor].
  - apply NoDup_cons_iff in Hnd as [Hc Hnd]. constructor.
    + rewrite in_app_iff. simpl. intros [H|[H|[]]]; [contradiction|].
      apply Hnew. left. symmetry. exact H.
    + apply IH; [exact Hnd|]. intros H. apply Hnew. right. exact H.
Qed.

Lemma set_cells_read cols name : forall rs vs,
  length vs = length rs ->
  Forall (fun r => length (cells r) = length cols) rs ->
  map (fun r => hd CNone (pick (add_column cols name) (cells r) name))
      (set_cells cols name rs vs) = vs /\
  forall other, other <> name ->
    map (fun r => hd CNone (pick (add_column cols name) (cells r) other))
        (set_cells cols name rs vs)
    = map (fun r => hd CNone (pick cols (cells r) other)) rs.
Proof.
  induction rs as [|r rs IH]; intros [|v vs] Hlen Hok; simpl in Hlen; try discriminate.
  - split; [reflexivity | intros; reflexivity].
  - apply Forall_cons in Hok as [Hr Hrs].
    destruct (IH vs ltac:(lia) Hrs) as [IH1 IH2].
    destruct (set_cell_spec cols name r v Hr) as (_ & _ & Hne & Hall & Hoth).
    cbv zeta in Hne, Hall, Hoth. cbn [set_cells map]. split.
    + rewrite IH1. f_equal.
      destruct (pick (add_column cols name) (cells (set_cell cols name r v)) name)
        as [|x xs]; [contradiction|].
      apply Forall_cons in Hall as [<- _]. reflexivity.
    + intros other Hother. rewrite (IH2 other Hother), (Hoth other Hother). reflexivity.
Qed.

(** [df[name] = values] followed by [df[name]] on a table with distinct
    labels. *)
Lemma setitem_readback name values df df' :
  frame_ok df -> List.NoDup (columns df) ->
  setitem name values df = Ok df' ->
  frame_ok df' /\ List.NoDup (columns df') /\
  columns df' = add_column (columns df) name /\
  nrows df' = nrows df /\
  column_values name df' = Ok values /\
  (forall other, other <> name -> column_values other df' = column_values other df).
Proof.
  intros Hok Hnd Hset.
  destruct (setitem_spec name values df df' Hok Hset)
    as (Hok' & Hlen & Hn & _ & Hcols & Hhas & _).
  assert (Hnd' : List.NoDup (columns df'))
    by (rewrite Hcols; apply add_column_NoDup; exact Hnd).
  unfold setitem in Hset. rewrite Hlen, Nat.eqb_refl in Hset. injection Hset as <-.
  cbn [columns rows] in *.
  destruct (set_cells_read (columns df) name (rows df) values Hlen Hok) as [Hread Hoth].
  split; [exact Hok'|]. split; [exact Hnd'|]. split; [reflexivity|]. split; [exact Hn|].
  split.
  - rewrite column_values_unique; [|exact Hnd' | apply has_column_In; exact Hhas].
    cbn [columns rows]. rewrite Hread. reflexivity.
  - intros other Hother.
    destruct (in_dec string_dec other (columns df)) as [Hin|Hnin].
    + rewrite column_values_unique;
        [|exact Hnd' | cbn [columns]; apply add_column_In; left; exact Hin].
      rewrite (column_values_unique other df Hnd Hin). cbn [columns rows].
      rewrite (Hoth other Hother). reflexivity.
    + rewrite (column_values_absent other df Hnin).
      apply column_values_absent. cbn [columns]. rewrite add_column_In.
      intros [H|H]; [contradiction | congruence].
Qed.

Lemma overwrite_same cols : forall cs name,
  List.NoDup cols -> length cs = length cols ->
  overwrite cols cs name (hd CNone (pick cols cs name)) = cs.
Proof.
  induction cols as [|c cols IH]; intros [|x cs] name Hnd Hlen; simpl in Hlen;
    try discriminate; [reflexivity|].
  apply NoDup_cons_iff in Hnd as [Hc Hnd].
  cbn [overwrite]. rewrite pick_cons.
  destruct (String.eqb_spec c name) as [->|Hne].
  - cbn [app hd]. f_equal.
    assert (Hno : has_column cols name = false).
    { destruct (has_column cols name) eqn:E; [|reflexivity].
      apply has_column_In in E. contradiction. }
    clear IH. revert cs Hlen. clear Hnd Hc.
    induction cols as [|c' cols IH']; intros [|y cs] Hlen; simpl in Hlen;
      try discriminate; [reflexivity|].
    unfold has_column in Hno. simpl in Hno. apply orb_false_iff in Hno as [Hc' Hno].
    cbn [overwrite]. rewrite String.eqb_sym, Hc'. f_equal.
    apply IH'; [exact Hno | lia].
  - cbn [app]. f_equal. apply IH; [exact Hnd | lia].
Qed.

(** Assigning to a column the values it already holds changes nothing. *)
Lemma setitem_same name values df :
  frame_ok df -> List.NoDup (columns df) ->
  column_values name df = Ok values ->
  setitem name values df = Ok df.
Proof.
  intros Hok Hnd Hcol.
  assert (Hin : In name (columns df)).
  { destruct (in_dec string_dec name (columns df)) as [H|H]; [exact H|].
    rewrite (column_values_absent name df H) in Hcol. discriminate. }
  rewrite (column_values_unique name df Hnd Hin) in Hcol. injection Hcol as <-.
  unfold setitem, nrows. rewrite length_map, Nat.eqb_refl.
  unfold add_column. rewrite (proj2 (has_column_In _ _) Hin).
  destruct df as [cols rs]. cbn [columns rows] in *. do 2 f_equal.
  unfold frame_ok in Hok. cbn [columns rows] in Hok.
  induction rs as [|r rs IH]; [reflexivity|].
  apply Forall_cons in Hok as [Hr Hrs]. cbn [map set_cells]. rewrite (IH Hrs). f_equal.
  unfold set_cell. rewrite (proj2 (has_column_In _ _) Hin).
  rewrite (overwrite_same cols (cells r) name Hnd Hr). destruct r; reflexivity.
Qed.

(** X5.  On a rectangular table with distinct labels, after
    [df[name] = values] the table is still rectangular with distinct
    labels and as many rows, [df[name]] reads back exactly [values], every
    other label reads what it read before (or is absent as before), and
    assigning the same values once more leaves the table as it is. *)
Theorem assigned_column_reads_back (name : string) (values : list cell) (df df' : DataFrame) :
  frame_ok df ->
  List.NoDup (columns df) ->
  setitem name values df = Ok df' ->
  frame_ok df' /\ List.NoDup (columns df') /\ nrows df' = nrows df /\
  column_values name df' = Ok values /\
  (forall other, other <> name -> column_values other df' = column_values other df) /\
  setitem name values df' = Ok df'.
Proof.
  intros Hok Hnd Hset.
  destruct (setitem_readback name values df df' Hok Hnd Hset)
    as (Hok' & Hnd' & _ & Hn & Hread & Hoth).
  repeat (split; [assumption|]).
  exact (setitem_same name values df' Hok' Hnd' Hread).
Qed.

Lemma assigned_column_reads_back_witness :
  let df := Sample.tiny in
  let values := map CInt [7; 7; 7; 7; 8; 8; 8; 8]%Z in
  exists df',
    setitem "PC1" values df = Ok df' /\
    frame_ok df' /\ List.NoDup (columns df') /\ nrows df' = nrows df /\
    column_values "PC1" df' = Ok values /\
    (forall other, other <> "PC1" -> column_values other df' = column_values other df) /\
    setitem "PC1" values df' = Ok df'.
Proof.
  cbv zeta.
  destruct (setitem "PC1" (map CInt [7; 7; 7; 7; 8; 8; 8; 8]%Z) Sample.tiny) as [df'|e] eqn:E;
    [|vm_compute in E; discriminate E].
  exists df'. split; [reflexivity|].
  apply (assigned_column_reads_back "PC1" (map CInt [7; 7; 7; 7; 8; 8; 8; 8]%Z)
           Sample.tiny df').
  - unfold frame_ok. vm_compute. repeat constructor.
  - vm_compute. repeat (apply List.NoDup_cons; [simpl; intuition discriminate|]).
    apply List.NoDup_nil.
  - exact E.
Defined.

(** ** The three new columns, read back *)

Lemma matrix_col_length j (m : matrix) col : matrix_col j m = Ok col -> length col = length m.
Proof. unfold matrix_col. apply res_mapM_length. Qed.

Lemma cluster_columns (L : Library) (global : rng L) (p : Prepared) o c df :
  deref (p_store p) (p_df p) = Ok df ->
  frame_ok df -> List.NoDup (columns df) ->
  cluster L global p = (o, Ok c) ->
  exists df3 pc1 pc2,
    deref (c_store c) (c_df c) = Ok df3 /\
    frame_ok df3 /\ List.NoDup (columns df3) /\
    columns df3 = add_column (add_column (add_column (columns df) "cluster") "PC1") "PC2" /\
    nrows df3 = nrows df /\
    matrix_col 0 (X_pca c) = Ok pc1 /\ matrix_col 1 (X_pca c) = Ok pc2 /\
    column_values "cluster" df3 = Ok (int_cells (cluster_labels c)) /\
    column_values "PC1" df3 = Ok (float_cells pc1) /\
    column_values "PC2" df3 = Ok (float_cells pc2) /\
    length (cluster_labels c) = nrows df /\
    length pc1 = nrows df /\ length pc2 = nrows df /\
    (forall other, ~ In other ["cluster"; "PC1"; "PC2"] ->
       column_values other df3 = column_values other df).
Proof.
  intros Hdf Hok Hnd Hc.
  destruct (cluster_inv L global p o c Hc)
    as (X & df0 & df1 & pc1 & df2 & pc2 & df3 & _ & _ & _ & _ & _ & Hdf0 & H1 & Hp1 & H2 & Hp2 & H3
        & Hstore & Hcdf & _ & _ & _).
  assert (df0 = df) by congruence. subst df0.
  assert (Hlt : p_df p < length (p_store p)).
  { apply deref_Some in Hdf. eapply lookup_lt_Some. exact Hdf. }
  destruct (setitem_readback _ _ _ _ Hok Hnd H1) as (Hok1 & Hnd1 & Hc1 & Hn1 & Hr1 & Ho1).
  destruct (setitem_readback _ _ _ _ Hok1 Hnd1 H2) as (Hok2 & Hnd2 & Hc2 & Hn2 & Hr2 & Ho2).
  destruct (setitem_readback _ _ _ _ Hok2 Hnd2 H3) as (Hok3 & Hnd3 & Hc3 & Hn3 & Hr3 & Ho3).
  destruct (setitem_spec _ _ _ _ Hok H1) as (_ & Hl1 & _).
  destruct (setitem_spec _ _ _ _ Hok1 H2) as (_ & Hl2 & _).
  destruct (setitem_spec _ _ _ _ Hok2 H3) as (_ & Hl3 & _).
  unfold int_cells in Hl1. unfold float_cells in Hl2, Hl3. rewrite length_map in Hl1, Hl2, Hl3.
  exists df3, pc1, pc2. rewrite Hstore, Hcdf.
  split; [apply deref_assign_same; unfold assign; rewrite !length_insert; exact Hlt|].
  split; [exact Hok3|]. split; [exact Hnd3|].
  split; [congruence|]. split; [congruence|].
  split; [exact Hp1|]. split; [exact Hp2|].
  split; [rewrite Ho3, Ho2 by discriminate; exact Hr1|].
  split; [rewrite Ho3 by discriminate; exact Hr2|].
  split; [exact Hr3|].
  split; [exact Hl1|]. split; [congruence|]. split; [congruence|].
  intros other Hother. simpl in Hother.
  rewrite Ho3, Ho2, Ho1; [reflexivity| | |]; intros ->; tauto.
Qed.

(** X6.  After a completed Clusterer run on a rectangular table with
    distinct labels, the plotting cell completes and draws one point per
    retained row: the abscissas are the first column of the projection, the
    ordinates its second column, and the hue of the i-th point is the label
    that K-Means gave the i-th row. *)
Theorem plot_draws_one_point_per_row
  (L : Library) (global : rng L) (p : Prepared) (df : DataFrame) o c :
  deref (p_store p) (p_df p) = Ok df ->
  frame_ok df ->
  List.NoDup (columns df) ->
  cluster L global p = (o, Ok c) ->
  exists pc1 pc2,
    matrix_col 0 (X_pca c) = Ok pc1 /\
    matrix_col 1 (X_pca c) = Ok pc2 /\
    plot c = ([ShowScatter (map CFloat pc1) (map CFloat pc2)
                 (map (fun n => CInt (Z.of_nat n)) (cluster_labels c))], Ok tt) /\
    length pc1 = nrows df /\ length pc2 = nrows df /\
    length (cluster_labels c) = nrows df.
Proof.
  intros Hdf Hok Hnd Hc.
  destruct (cluster_columns L global p o c df Hdf Hok Hnd Hc)
    as (df3 & pc1 & pc2 & Hd3 & _ & _ & _ & _ & Hp1 & Hp2 & Hcl & Hc1 & Hc2 & Hl & Hl1 & Hl2 & _).
  exists pc1, pc2. split; [exact Hp1|]. split; [exact Hp2|].
  split; [|auto].
  unfold plot, plot_variable.
    rewrite Hd3, bind_lift, Hc1, bind_lift, Hc2, bind_lift, Hcl, bind_lift.
  reflexivity.
Qed.

Lemma sample_prepared_frame :
  deref (p_store (Sample.prepared Sample.raw)) (p_df (Sample.prepared Sample.raw))
  = Ok (kept_frame (mkFrame (map normalize_column Sample.header) (rows Sample.raw))).
Proof. vm_compute. reflexivity. Qed.

Lemma plot_draws_one_point_per_row_witness :
  let c := Sample.clustered Sample.raw 0 in
  let df := kept_frame (mkFrame (map normalize_column Sample.header) (rows Sample.raw)) in
  exists pc1 pc2,
    matrix_col 0 (X_pca c) = Ok pc1 /\
    matrix_col 1 (X_pca c) = Ok pc2 /\
    plot c = ([ShowScatter (map CFloat pc1) (map CFloat pc2)
                 (map (fun n => CInt (Z.of_nat n)) (cluster_labels c))], Ok tt) /\
    length pc1 = nrows df /\ length pc2 = nrows df /\
    length (cluster_labels c) = nrows df.
Proof.
  apply (plot_draws_one_point_per_row (Sample.lib Sample.raw) 0%Z
           (Sample.prepared Sample.raw)
           (kept_frame (mkFrame (map normalize_column Sample.header) (rows Sample.raw)))
           [PrintBestK 3] (Sample.clustered Sample.raw 0)).
  - exact sample_prepared_frame.
  - apply frame_ok_kept. exact sample_frame_ok.
  - exact sample_labels_NoDup.
  - vm_compute. reflexivity.
Defined.

(** ** Clustering, then reporting *)

Lemma sorted_unique_spec ids :
  StronglySorted Z.le (sorted (unique ids)) /\
  List.NoDup (sorted (unique ids)) /\
  (forall z, In z (sorted (unique ids)) <-> In z ids).
Proof.
  split; [apply StronglySorted_merge_sort; apply _|]. split.
  - unfold sorted. eapply Permutation_NoDup.
    + symmetry. apply merge_sort_Permutation.
    + apply unique_from_NoDup.
  - intros z. unfold sorted. rewrite <- !list_elem_of_In.
    rewrite (merge_sort_Permutation Z.le (unique ids)).
    rewrite !list_elem_of_In. unfold unique. rewrite unique_from_In. simpl. tauto.
Qed.

Lemma missing_labels_mono cols cols' names :
  (forall n, In n cols -> In n cols') ->
  missing_labels cols names = [] -> missing_labels cols' names = [].
Proof.
  intros Hsub Hmiss.
  destruct (missing_labels cols' names) as [|n ns] eqn:E; [reflexivity|].
  assert (Hin : In n (missing_labels cols' names)) by (rewrite E; left; reflexivity).
  apply missing_labels_In in Hin as [Hn Hnot].
  exfalso. apply Hnot, Hsub. exact (missing_labels_nil_In cols names n Hmiss Hn).
Qed.

Lemma as_int_int_cells labels :
  res_mapM as_int (int_cells labels) = Ok (map Z.of_nat labels).
Proof.
  induction labels as [|n labels IH]; [reflexivity|].
  cbn [int_cells map res_mapM as_int res_bind].
  unfold int_cells in IH. rewrite IH. reflexivity.
Qed.

(** The listing that the Reporter prints for a table with the six report
    columns whose ['cluster'] column holds the integers [ids]. *)
Lemma report_frame_run df ids :
  column_values "cluster" df = Ok (map CInt ids) ->
  missing_labels (columns df) report_columns = [] ->
  report_frame df =
    (flat_map (fun z => [PrintClusterTitle z; Display (cluster_sample df z)])
              (sorted (unique ids)), Ok tt).
Proof.
  intros Hcol Hmiss. unfold report_frame. rewrite Hcol, bind_lift.
  assert (Hids : res_mapM as_int (map CInt ids) = Ok ids).
  { clear. induction ids as [|z ids IH]; [reflexivity|].
    cbn [map res_mapM as_int res_bind]. rewrite IH. reflexivity. }
  rewrite Hids, bind_lift.
  apply for_each_outputs. intros z _.
  exact (report_cluster_run df (map CInt ids) z Hcol Hmiss).
Qed.

(** X7.  After a completed Clusterer run on a rectangular table with
    distinct labels that has the six report columns, and with K-Means
    labels below K, the Reporter completes.  The cluster ids it lists, in
    ascending order and each once, are exactly the labels that K-Means
    assigned to some row; each lies in 0 .. [best_k] - 1, so at most
    [best_k] clusters are listed (fewer when a cluster is empty). *)
Theorem report_lists_the_assigned_labels
  (L : Library) (global : rng L) (p : Prepared) (df : DataFrame) o c :
  kmeans_labels_in_range L ->
  deref (p_store p) (p_df p) = Ok df ->
  frame_ok df ->
  List.NoDup (columns df) ->
  missing_labels (columns df) report_columns = [] ->
  cluster L global p = (o, Ok c) ->
  exists df3 cs,
    deref (c_store c) (c_df c) = Ok df3 /\
    report c =
      (flat_map (fun z => [PrintClusterTitle z; Display (cluster_sample df3 z)]) cs, Ok tt) /\
    StronglySorted Z.le cs /\ List.NoDup cs /\
    (forall z, In z cs <-> exists n, In n (cluster_labels c) /\ z = Z.of_nat n) /\
    (forall z, In z cs -> (0 <= z < Z.of_nat (best_k c))%Z) /\
    length cs <= best_k c.
Proof.
  intros Hkm Hdf Hok Hnd Hmiss Hc.
  destruct (cluster_columns L global p o c df Hdf Hok Hnd Hc)
    as (df3 & pc1 & pc2 & Hd3 & _ & _ & Hcols & _ & _ & _ & Hcl & _).
  destruct (cluster_inv L global p o c Hc)
    as (? & ? & ? & ? & ? & ? & ? & _ & _ & _ & _ & Hfit & _).
  destruct (Hkm _ _ _ _ Hfit) as [_ Hrange]. rewrite List.Forall_forall in Hrange.
  set (ids := map Z.of_nat (cluster_labels c)).
  assert (Hcl' : column_values "cluster" df3 = Ok (map CInt ids)).
  { rewrite Hcl. unfold int_cells, ids. rewrite map_map. reflexivity. }
  assert (Hmiss3 : missing_labels (columns df3) report_columns = []).
  { apply (missing_labels_mono (columns df)); [|exact Hmiss].
    intros n Hn. rewrite Hcols, !add_column_In. auto. }
  destruct (sorted_unique_spec ids) as (Hsorted & Hnodup & Hin).
  assert (Hlab : forall z, In z (sorted (unique ids)) <->
                           exists n, In n (cluster_labels c) /\ z = Z.of_nat n).
  { intros z. rewrite Hin. unfold ids. rewrite in_map_iff. split.
    - intros [n [<- Hn]]. eauto.
    - intros [n [Hn ->]]. eauto. }
  assert (Hbound : forall z, In z (sorted (unique ids)) -> (0 <= z < Z.of_nat (best_k c))%Z).
  { intros z Hz. apply Hlab in Hz as [n [Hn ->]]. specialize (Hrange n Hn). lia. }
  exists df3, (sorted (unique ids)).
  split; [exact Hd3|]. split.
  { unfold report. rewrite Hd3, bind_lift. exact (report_frame_run df3 ids Hcl' Hmiss3). }
  split; [exact Hsorted|]. split; [exact Hnodup|]. split; [exact Hlab|].
  split; [exact Hbound|].
  replace (best_k c) with (length (map Z.of_nat (seq 0 (best_k c))))
    by (rewrite length_map, length_seq; reflexivity).
  apply NoDup_incl_length; [exact Hnodup|].
  intros z Hz. apply Hlab in Hz as [n [Hn ->]].
  apply in_map, in_seq. specialize (Hrange n Hn). lia.
Qed.

Lemma report_lists_the_assigned_labels_witness :
  let c := Sample.clustered Sample.raw 0 in
  exists df3 cs,
    deref (c_store c) (c_df c) = Ok df3 /\
    report c =
      (flat_map (fun z => [PrintClusterTitle z; Display (cluster_sample df3 z)]) cs, Ok tt) /\
    StronglySorted Z.le cs /\ List.NoDup cs /\
    (forall z, In z cs <-> exists n, In n (cluster_labels c) /\ z = Z.of_nat n) /\
    (forall z, In z cs -> (0 <= z < Z.of_nat (best_k c))%Z) /\
    length cs <= best_k c.
Proof.
  apply (report_lists_the_assigned_labels (Sample.lib Sample.raw) 0%Z
           (Sample.prepared Sample.raw)
           (kept_frame (mkFrame (map normalize_column Sample.header) (rows Sample.raw)))
           [PrintBestK 3] (Sample.clustered Sample.raw 0)).
  - apply toy_kmeans_labels_in_range.
  - exact sample_prepared_frame.
  - apply frame_ok_kept. exact sample_frame_ok.
  - exact sample_labels_NoDup.
  - reflexivity.
  - vm_compute. reflexivity.
Defined.

(** ** Clustering again *)

Lemma assign_same (h : store) r df : deref h r = Ok df -> assign h r df = h.
Proof. intros H. apply deref_Some in H. unfold assign. apply list_insert_id. exact H. Qed.

(** X8.  Run the clustering cell a second time, on the state its first run
    left, with numpy's global generator in any state.  When the projection
    of the second run returns, with the shape of the first one, the run
    completes and prints the same line; K, the scores, the labels and the
    scaled matrix are those of the first run; no column is appended and
    every column other than ['PC1'] and ['PC2'] reads as before, those two
    holding the coordinates computed by the second run; no other object
    changes.  If the second projection equals the first, the state is
    unchanged. *)
Theorem cluster_again_keeps_the_clusters
  (L : Library) (g1 g2 : rng L) (l : Loaded) (df0 : DataFrame) o1 p o2 c (Xp2 : matrix) :
  deref (l_store l) (l_df l) = Ok df0 ->
  frame_ok df0 ->
  List.NoDup (columns df0) ->
  prepare l = (o1, Ok p) ->
  cluster L g1 p = (o2, Ok c) ->
  PCA_fit_transform L g2 2 (X_scaled c) = Ok Xp2 ->
  length Xp2 = length (X_pca c) ->
  Forall (fun r => 1 < length r) Xp2 ->
  exists c' df3 df3' pc1 pc2,
    cluster L g2 (mkPrepared (c_store c) (c_df c) (c_X c) (c_y c)) = (o2, Ok c') /\
    best_k c' = best_k c /\ scores c' = scores c /\
    cluster_labels c' = cluster_labels c /\
    X_scaled c' = X_scaled c /\ X_pca c' = Xp2 /\
    deref (c_store c) (c_df c) = Ok df3 /\
    deref (c_store c') (c_df c') = Ok df3' /\
    (forall r, r <> c_df c -> c_store c' !! r = c_store c !! r) /\
    columns df3' = columns df3 /\ nrows df3' = nrows df3 /\
    matrix_col 0 Xp2 = Ok pc1 /\ matrix_col 1 Xp2 = Ok pc2 /\
    column_values "PC1" df3' = Ok (float_cells pc1) /\
    column_values "PC2" df3' = Ok (float_cells pc2) /\
    (forall other, other <> "PC1" -> other <> "PC2" ->
       column_values other df3' = column_values other df3) /\
    (Xp2 = X_pca c -> c' = c).
Proof.
  intros Hdf0 Hok Hnd Hp Hc Hpca2 Hlen2 Hwide2.
  destruct (prepare_shape l df0 o1 p Hdf0 Hp) as (_ & Hrdf & HrX & _ & Hdf & HX & _).
  destruct (cluster_inv L g1 p o2 c Hc)
    as (X & df & df1 & pc1' & df2 & pc2' & df3' & HX' & Hscale & Hpca & Hsel & Hfit & _ & _ & _ & _
        & _ & _ & Hstore & Hcdf & HcX & Hcy & Ho).
  assert (X = feature_frame df0) by congruence. subst X.
  destruct (cluster_columns L g1 p o2 c (kept_frame df0) Hdf (frame_ok_kept df0 Hok) Hnd Hc)
    as (df3 & pc1 & pc2 & Hd3 & Hok3 & Hnd3 & Hcols3 & Hn3 & Hp1 & Hp2 & Hcl & Hc1 & Hc2
        & _ & Hl1 & _ & _).
  assert (HX2 : deref (c_store c) (c_X c) = Ok (feature_frame df0)).
  { rewrite Hstore, HcX. unfold deref, assign.
    rewrite !list_lookup_insert_ne by lia. exact HX. }
  assert (Hlt : c_df c < length (c_store c)).
  { apply deref_Some in Hd3. eapply lookup_lt_Some. exact Hd3. }
  assert (Hrows : length Xp2 = nrows df3).
  { rewrite Hlen2, <- (matrix_col_length 0 _ _ Hp1), Hl1, Hn3. reflexivity. }
  pose proof (setitem_same "cluster" _ df3 Hok3 Hnd3 Hcl) as H1.
  destruct (matrix_col_total 0 Xp2) as [q1 [Hq1 Hlq1]].
  { eapply Forall_impl; [exact Hwide2|]. intros r Hr. simpl in Hr. lia. }
  destruct (matrix_col_total 1 Xp2 Hwide2) as [q2 [Hq2 Hlq2]].
  destruct (setitem_total "PC1" (float_cells q1) df3) as [df4 [H2 Hn4]].
  { unfold float_cells. rewrite length_map. lia. }
  destruct (setitem_total "PC2" (float_cells q2) df4) as [df5 [H3 Hn5]].
  { unfold float_cells. rewrite length_map. lia. }
  destruct (setitem_readback _ _ _ _ Hok3 Hnd3 H2) as (Hok4 & Hnd4 & Hcols4 & _ & Hr4 & Ho4).
  destruct (setitem_readback _ _ _ _ Hok4 Hnd4 H3) as (_ & _ & Hcols5 & _ & Hr5 & Ho5).
  assert (Hin : forall name, In name ["cluster"; "PC1"; "PC2"] -> In name (columns df3)).
  { intros name Hname. rewrite Hcols3, !add_column_In. simpl in Hname. intuition. }
  assert (Hkeep : forall cols name, In name cols -> add_column cols name = cols).
  { intros cols name H. unfold add_column.
    rewrite (proj2 (has_column_In cols name) H). reflexivity. }
  pose proof (cluster_intro L g2 (mkPrepared (c_store c) (c_df c) (c_X c) (c_y c))
                (feature_frame df0) (X_scaled c) Xp2 (scores c) (best_k c)
                (cluster_labels c) df3 df3 q1 df4 q2 df5
                HX2 Hscale Hpca2 Hsel Hfit Hd3 H1 Hq1 H2 Hq2 H3) as Hrun.
  cbn [p_store p_df p_X p_y] in Hrun. rewrite <- Ho in Hrun.
  eexists _, df3, df5, q1, q2.
  split; [exact Hrun|]. cbn [best_k scores cluster_labels X_scaled X_pca c_store c_df].
  repeat (split; [reflexivity|]).
  split; [exact Hd3|].
  split; [apply deref_assign_same; unfold assign; rewrite !length_insert; exact Hlt|].
  split; [intros r Hr; unfold assign; rewrite !list_lookup_insert_ne by congruence;
          reflexivity|].
  split.
  { rewrite Hcols5, Hcols4.
    rewrite (Hkeep (columns df3) "PC1") by (apply Hin; simpl; tauto).
    apply Hkeep. apply Hin. simpl. tauto. }
  split; [lia|]. split; [exact Hq1|]. split; [exact Hq2|].
  split; [rewrite Ho5 by discriminate; exact Hr4|].
  split; [exact Hr5|].
  split; [intros other N1 N2; rewrite Ho5, Ho4 by assumption; reflexivity|].
  intros ->.
  assert (q1 = pc1) by congruence. assert (q2 = pc2) by congruence. subst q1 q2.
  assert (df4 = df3).
  { pose proof (setitem_same "PC1" _ df3 Hok3 Hnd3 Hc1). congruence. }
  subst df4.
  assert (df5 = df3).
  { pose proof (setitem_same "PC2" _ df3 Hok3 Hnd3 Hc2). congruence. }
  subst df5.
  rewrite !(assign_same (c_store c) (c_df c) df3 Hd3).
  destruct c. reflexivity.
Qed.

Lemma cluster_again_keeps_the_clusters_witness :
  let L := Sample.lib Sample.raw in
  let c := Sample.clustered Sample.raw 0 in
  let o2 := [PrintBestK 3] in
  let Xp2 := X_pca (Sample.clustered Sample.raw 1) in
  exists c' df3 df3' pc1 pc2,
    cluster L 1%Z (mkPrepared (c_store c) (c_df c) (c_X c) (c_y c)) = (o2, Ok c') /\
    best_k c' = best_k c /\ scores c' = scores c /\
    cluster_labels c' = cluster_labels c /\
    X_scaled c' = X_scaled c /\ X_pca c' = Xp2 /\
    deref (c_store c) (c_df c) = Ok df3 /\
    deref (c_store c') (c_df c') = Ok df3' /\
    (forall r, r <> c_df c -> c_store c' !! r = c_store c !! r) /\
    columns df3' = columns df3 /\ nrows df3' = nrows df3 /\
    matrix_col 0 Xp2 = Ok pc1 /\ matrix_col 1 Xp2 = Ok pc2 /\
    column_values "PC1" df3' = Ok (float_cells pc1) /\
    column_values "PC2" df3' = Ok (float_cells pc2) /\
    (forall other, other <> "PC1" -> other <> "PC2" ->
       column_values other df3' = column_values other df3) /\
    (Xp2 = X_pca c -> c' = c).
Proof.
  apply (cluster_again_keeps_the_clusters (Sample.lib Sample.raw) 0%Z 1%Z
           (Sample.loaded Sample.raw)
           (mkFrame (map normalize_column Sample.header) (rows Sample.raw))
           [] (Sample.prepared Sample.raw) [PrintBestK 3] (Sample.clustered Sample.raw 0)
           (X_pca (Sample.clustered Sample.raw 1))).
  - reflexivity.
  - exact sample_frame_ok.
  - exact sample_labels_NoDup.
  - vm_compute. reflexivity.
  - vm_compute. reflexivity.
  - vm_compute. reflexivity.
  - vm_compute. reflexivity.
  - vm_compute. repeat constructor.
Defined.

(** On the sample, a second run with the generator in another state mirrors
    the projection and keeps the clusters. *)
Example sample_second_run :
  let c := Sample.clustered Sample.raw 0 in
  match snd (cluster (Sample.lib Sample.raw) 1%Z
               (mkPrepared (c_store c) (c_df c) (c_X c) (c_y c))) with
  | Ok c' =>
      cluster_labels c' = cluster_labels c /\ X_pca c' <> X_pca c /\
      option_map columns (c_store c' !! c_df c') = option_map columns (c_store c !! c_df c)
  | Raise _ => False
  end.
Proof. vm_compute. repeat split; discriminate. Qed.

(** ** The Reporter on a table without a report column *)

Lemma report_cluster_absent df ids z :
  column_values "cluster" df = Ok (map CInt ids) ->
  missing_labels (columns df) report_columns <> [] ->
  report_cluster df z =
    ([PrintClusterTitle z],
     Raise (KeyError (missing_labels (columns df) report_columns))).
Proof.
  intros Hcol Hmiss. unfold report_cluster.
  rewrite bind_emit, Hcol, bind_lift. unfold select. cbn [columns getitem_mask].
  destruct (missing_labels (columns df) report_columns) as [|m ms]; [contradiction|].
  rewrite bind_lift. reflexivity.
Qed.

(** X9.  Take a table whose ['cluster'] column holds integers and which
    lacks some of the six report columns.  With no row, the Reporter
    completes without printing anything.  With at least one row, it prints
    the title of the smallest cluster id and then stops with a [KeyError]
    listing the absent report columns: no row is shown and no other title is
    printed. *)
Theorem reporter_stops_after_first_title (df : DataFrame) (ids : list Z) :
  column_values "cluster" df = Ok (map CInt ids) ->
  missing_labels (columns df) report_columns <> [] ->
  (ids = [] -> report_frame df = ([], Ok tt)) /\
  (ids <> [] ->
   exists z,
     In z ids /\ (forall z', In z' ids -> (z <= z')%Z) /\
     report_frame df =
       ([PrintClusterTitle z],
        Raise (KeyError (missing_labels (columns df) report_columns)))).
Proof.
  intros Hcol Hmiss.
  assert (Hids : res_mapM as_int (map CInt ids) = Ok ids).
  { clear. induction ids as [|z ids IH]; [reflexivity|].
    cbn [map res_mapM as_int res_bind]. rewrite IH. reflexivity. }
  assert (Hrun : report_frame df = for_each (sorted (unique ids)) (report_cluster df)).
  { unfold report_frame. rewrite Hcol, bind_lift, Hids, bind_lift. reflexivity. }
  split.
  - intros ->. rewrite Hrun. reflexivity.
  - intros Hne.
    destruct (sorted_unique_spec ids) as (Hsorted & _ & Hin).
    destruct (sorted (unique ids)) as [|z rest] eqn:E.
    + destruct ids as [|x ids']; [contradiction|].
      destruct (proj2 (Hin x) (or_introl eq_refl)).
    + exists z. split; [apply Hin; left; reflexivity|]. split.
      * intros z' Hz'. apply Hin in Hz' as [<-|Hz']; [lia|].
        apply StronglySorted_inv in Hsorted as [_ Hall].
        rewrite List.Forall_forall in Hall. exact (Hall z' Hz').
      * rewrite Hrun. cbn [for_each].
        rewrite (report_cluster_absent df ids z Hcol Hmiss). reflexivity.
Qed.

Lemma reporter_stops_after_first_title_witness :
  let df := Cases.no_names in
  let ids := [1; 0; 1; 0]%Z in
  (ids = [] -> report_frame df = ([], Ok tt)) /\
  (ids <> [] ->
   exists z,
     In z ids /\ (forall z', In z' ids -> (z <= z')%Z) /\
     report_frame df =
       ([PrintClusterTitle z],
        Raise (KeyError (missing_labels (columns df) report_columns)))).
Proof.
  apply (reporter_stops_after_first_title Cases.no_names [1; 0; 1; 0]%Z).
  - vm_compute. reflexivity.
  - vm_compute. discriminate.
Defined.

Example no_names_report :
  report_frame Cases.no_names = ([PrintClusterTitle 0], Raise (KeyError ["first"; "last"])).
Proof. vm_compute. reflexivity. Qed.

(** ** What the Regressor prints *)

(** X10.  Whatever the library calls do, a Regressor run ends in one of
    four ways.  It stops with an exception having printed nothing.  It
    stops with an exception having printed the R2 line only (the RMSE call
    raised).  It stops with a [TypeError] having printed R2, RMSE and the
    title: the fit returned a two-axis [coef_] (several targets) with at
    least one row, and the first coefficient line cannot be formatted.  Or
    it completes, having printed R2, RMSE, the title and then, for a one-axis
    [coef_], one line for each pair of the i-th column of [X] and the i-th
    coefficient, as many lines as the shorter of the two lists.  No
    coefficient is printed unless both metrics were. *)
Theorem regressor_output_shape (L : Library) (global : rng L) (p : Prepared) :
  (exists e, snd (regress L global p) = Raise e /\
             (fst (regress L global p) = [] \/
              exists v, fst (regress L global p) = [PrintR2 v])) \/
  (exists X y Xtr Xte ytr yte m c cols row others v1 v2,
     deref (p_store p) (p_X p) = Ok X /\
     deref (p_store p) (p_y p) = Ok y /\
     train_test_split L (RandomState L 42%Z) test_size X y = Ok (Xtr, Xte, ytr, yte) /\
     LinearRegression_fit L Xtr ytr = Ok m /\
     coef_ m = Array2 (row :: others) /\
     columns X = c :: cols /\
     regress L global p =
       ([PrintR2 v1; PrintRMSE v2; PrintImportancesTitle], Raise TypeError)) \/
  (exists reg X v1 v2,
     snd (regress L global p) = Ok reg /\
     deref (p_store p) (p_X p) = Ok X /\
     match coef_ (lr reg) with
     | Array1 v =>
         fst (regress L global p) =
           [PrintR2 v1; PrintRMSE v2; PrintImportancesTitle]
             ++ map (fun q => PrintCoef (fst q) (snd q)) (combine (columns X) v) /\
         length (fst (regress L global p)) = 3 + Nat.min (length (columns X)) (length v)
     | Array2 rows =>
         (columns X = [] \/ rows = []) /\
         fst (regress L global p) = [PrintR2 v1; PrintRMSE v2; PrintImportancesTitle]
     end).
Proof.
  destruct (deref (p_store p) (p_X p)) as [X|e] eqn:HX;
    [|left; exists e; unfold regress; rewrite HX, bind_lift; auto].
  destruct (deref (p_store p) (p_y p)) as [y|e] eqn:Hy;
    [|left; exists e; unfold regress; rewrite HX, bind_lift, Hy, bind_lift; auto].
  destruct (train_test_split L (RandomState L 42%Z) test_size X y)
    as [[[[Xtr Xte] ytr] yte]|e] eqn:Hs;
    [|left; exists e; rewrite (regress_split_raises L global p X y e HX Hy Hs); auto].
  destruct (LinearRegression_fit L Xtr ytr) as [m|e] eqn:Hf;
    [|left; exists e; unfold regress; rewrite HX, bind_lift, Hy, bind_lift;
      cbn [check_random_state]; rewrite Hs, bind_lift, Hf, bind_lift; auto].
  destruct (LinearRegression_predict L m Xte) as [pred|e] eqn:Hp;
    [|left; exists e; unfold regress; rewrite HX, bind_lift, Hy, bind_lift;
      cbn [check_random_state]; rewrite Hs, bind_lift, Hf, bind_lift, Hp, bind_lift; auto].
  destruct (r2_score L yte pred) as [r2|e] eqn:Hr;
    [|left; exists e; unfold regress; rewrite HX, bind_lift, Hy, bind_lift;
      cbn [check_random_state];
      rewrite Hs, bind_lift, Hf, bind_lift, Hp, bind_lift, Hr, bind_lift; auto].
  destruct (mean_squared_error L yte pred false) as [rmse|e] eqn:Hm.
  - rewrite (regress_run L global p X y Xtr Xte ytr yte m pred r2 rmse HX Hy Hs Hf Hp Hr Hm).
    cbn [fst snd]. destruct (coef_ m) as [v|rows] eqn:Hc.
    + right. right. exists (mkRegression Xtr Xte ytr yte m pred), X, r2, rmse.
      split; [reflexivity|]. split; [reflexivity|]. cbn [lr]. rewrite Hc.
      cbn [coef_lines]. split; [reflexivity|].
      cbn [app length]. rewrite length_map, length_combine. reflexivity.
    + destruct (columns X) as [|c cols] eqn:HcX.
      * right. right. exists (mkRegression Xtr Xte ytr yte m pred), X, r2, rmse.
        split; [reflexivity|]. split; [reflexivity|]. cbn [lr]. rewrite Hc, HcX. auto.
      * destruct rows as [|row others].
        -- right. right. exists (mkRegression Xtr Xte ytr yte m pred), X, r2, rmse.
           split; [reflexivity|]. split; [reflexivity|]. cbn [lr]. rewrite Hc. auto.
        -- right. left. exists X, y, Xtr, Xte, ytr, yte, m, c, cols, row, others, r2, rmse.
           repeat (split; [assumption || reflexivity|]). reflexivity.
  - left. exists e. unfold regress. rewrite HX, bind_lift, Hy, bind_lift.
    cbn [check_random_state].
    rewrite Hs, bind_lift, Hf, bind_lift, Hp, bind_lift, Hr, bind_lift, bind_emit, Hm, bind_lift.
    cbn [fst snd]. split; [reflexivity|]. right. exists r2. reflexivity.
Qed.

(** Two columns named ['war'] after renaming: [y] is a table of two targets
    and the run stops at the first coefficient line. *)
Example two_targets_run :
  regress (Sample.lib Cases.two_targets) 0%Z (Sample.prepared Cases.two_targets) =
    ([PrintR2 Toy.zero; PrintRMSE Toy.zero; PrintImportancesTitle], Raise TypeError).
Proof. vm_compute. reflexivity. Qed.

(** ** NaN scores *)

Lemma float_gt_not_nan a b :
  float_gt a b = true -> float_isnan a = false /\ float_isnan b = false.
Proof.
  unfold float_gt, SFltb.
  destruct a as [| | |]; destruct b as [| | |]; simpl; try discriminate; auto.
Qed.

Lemma max_from_nan_stays key items : forall best vb,
  (forall x, In x items -> exists v, key x = Some v) ->
  float_isnan vb = true ->
  max_from key best (Some vb) items = Ok best.
Proof.
  induction items as [|x items IH]; intros best vb Hall Hnan; [reflexivity|].
  destruct (Hall x (or_introl eq_refl)) as [vx Hx].
  cbn [max_from]. rewrite Hx. cbn [py_gt res_bind].
  destruct (float_gt vx vb) eqn:E.
  - apply float_gt_not_nan in E as [_ E]. congruence.
  - apply IH; [|exact Hnan]. intros y Hy. apply Hall. right. exact Hy.
Qed.

Lemma max_from_winner key items : forall best bk r,
  max_from key best bk items = Ok r ->
  r = best \/ exists v, key r = Some v /\ float_isnan v = false.
Proof.
  induction items as [|x items IH]; intros best bk r H.
  - injection H as <-. left. reflexivity.
  - cbn [max_from] in H. apply res_bind_ok_inv in H as [gt [Hgt H]].
    destruct gt.
    + destruct (IH _ _ _ H) as [->|Hr]; [|right; exact Hr].
      right. unfold py_gt in Hgt.
      destruct (key x) as [vx|]; [|discriminate].
      destruct bk as [vb|]; [|discriminate].
      injection Hgt as Hgt. apply float_gt_not_nan in Hgt as [Hvx _]. eauto.
    + exact (IH _ _ _ H).
Qed.

(** X11.  In a completed search, a NaN silhouette score is never preferred
    to anything, and nothing is preferred to it: when the score at K = 2 is
    NaN, K = 2 is selected whatever the other scores are; and a selected K
    other than 2 always has a score that is not NaN. *)
Theorem nan_score_and_best_k (L : Library) (global : rng L) (Xs : matrix) sc best :
  select_k L global Xs = Ok (sc, best) ->
  (forall s2, dict_get sc 2 = Some s2 -> float_isnan s2 = true -> best = 2) /\
  (best <> 2 -> exists sb, dict_get sc best = Some sb /\ float_isnan sb = false).
Proof.
  intros Hsel.
  destruct (select_k_inv L global Xs sc best Hsel) as [t [Ht [Hsc _]]].
  destruct (scores_of_trace L global Xs t Ht) as [Hsearch [Hkeys Hnd]].
  rewrite <- Hsc in Hsearch, Hkeys, Hnd.
  unfold select_k in Hsel. rewrite Hsearch in Hsel. cbn [res_bind] in Hsel.
  apply res_bind_ok_inv in Hsel as [k [Hmax Hk]].
  assert (k = best) by congruence. subst k. clear Hk.
  rewrite Hkeys in Hmax. unfold range in Hmax. cbn [seq Nat.sub py_max] in Hmax.
  assert (Hget : forall x, In x (dict_keys sc) -> exists v, dict_get sc x = Some v).
  { intros x Hx. apply in_map_iff in Hx as [[k' v] [<- Hin]].
    exists v. apply In_dict_get; assumption. }
  rewrite Hkeys in Hget. unfold range in Hget. cbn [seq Nat.sub] in Hget.
  split.
  - intros s2 Hs2 Hnan. rewrite Hs2 in Hmax.
    rewrite max_from_nan_stays in Hmax; [congruence| |exact Hnan].
    intros x Hx. apply Hget. right. exact Hx.
  - intros Hne. destruct (max_from_winner _ _ _ _ _ Hmax) as [->|Hr];
      [contradiction | exact Hr].
Qed.

Lemma nan_score_and_best_k_witness :
  exists sc best,
    select_k (Toy.lib (Ok Sample.raw) Cases.nan_first) 0%Z Sample.points = Ok (sc, best) /\
    (forall s2, dict_get sc 2 = Some s2 -> float_isnan s2 = true -> best = 2) /\
    (best <> 2 -> exists sb, dict_get sc best = Some sb /\ float_isnan sb = false).
Proof.
  destruct (select_k (Toy.lib (Ok Sample.raw) Cases.nan_first) 0%Z Sample.points)
    as [[sc best]|e] eqn:E; [|vm_compute in E; discriminate E].
  exists sc, best. split; [reflexivity|].
  exact (nan_score_and_best_k (Toy.lib (Ok Sample.raw) Cases.nan_first) 0%Z
           Sample.points sc best E).
Defined.

(** With a NaN at K = 2 and larger scores from K = 3 on, K = 2 is selected. *)
Example nan_first_selects_2 :
  res_map snd (select_k (Toy.lib (Ok Sample.raw) Cases.nan_first) 0%Z Sample.points) = Ok 2.
Proof. vm_compute. reflexivity. Qed.

(** ** The search stops at the first K that fails *)

Lemma silhouette_search_stops (L : Library) (global : rng L) (Xs : matrix) k post e :
  (KMeans_fit_predict L (RandomState L 42%Z) k Xs = Raise e \/
   exists labels, KMeans_fit_predict L (RandomState L 42%Z) k Xs = Ok labels /\
                  silhouette_score L Xs labels = Raise e) ->
  forall pre d,
    (forall j, In j pre -> exists labels s,
        KMeans_fit_predict L (RandomState L 42%Z) j Xs = Ok labels /\
        silhouette_score L Xs labels = Ok s) ->
    silhouette_search L global Xs (pre ++ k :: post) d = Raise e.
Proof.
  intros Hk. induction pre as [|j pre IH]; intros d Hpre.
  - cbn [app silhouette_search check_random_state].
    destruct Hk as [Hk|[labels [Hk Hs]]]; rewrite Hk; cbn [res_bind]; [reflexivity|].
    rewrite Hs. reflexivity.
  - destruct (Hpre j (or_introl eq_refl)) as [labels [s [Hj Hs]]].
    cbn [app silhouette_search check_random_state]. rewrite Hj. cbn [res_bind].
    rewrite Hs. cbn [res_bind]. apply IH. intros j' Hj'. apply Hpre. right. exact Hj'.
Qed.

(** X12.  If the fit and the score return for every candidate below some K
    of 2, ..., 9 and the fit or the score at that K raises, the search stops
    there with that exception, whatever the later candidates would do; a
    Clusterer run that got through scaling and projection stops with the
    same exception, without printing a selected K. *)
Theorem search_stops_at_first_failing_k
  (L : Library) (global : rng L) (Xs : matrix) (k : nat) (e : exn) :
  In k [2; 3; 4; 5; 6; 7; 8; 9] ->
  (forall j, 2 <= j < k -> exists labels s,
      KMeans_fit_predict L (RandomState L 42%Z) j Xs = Ok labels /\
      silhouette_score L Xs labels = Ok s) ->
  (KMeans_fit_predict L (RandomState L 42%Z) k Xs = Raise e \/
   exists labels, KMeans_fit_predict L (RandomState L 42%Z) k Xs = Ok labels /\
                  silhouette_score L Xs labels = Raise e) ->
  select_k L global Xs = Raise e /\
  (forall p X Xp,
     deref (p_store p) (p_X p) = Ok X ->
     StandardScaler_fit_transform L X = Ok Xs ->
     PCA_fit_transform L global 2 Xs = Ok Xp ->
     cluster L global p = ([], Raise e)).
Proof.
  intros Hk Hbelow Hfail.
  assert (Hsel : select_k L global Xs = Raise e).
  { unfold select_k.
    assert (Hsplit : range 2 10 = seq 2 (k - 2) ++ k :: seq (S k) (9 - k)).
    { change [2; 3; 4; 5; 6; 7; 8; 9] with (seq 2 8) in Hk. apply in_seq in Hk.
      unfold range. replace (10 - 2) with ((k - 2) + S (9 - k)) by lia.
      rewrite seq_app. cbn [seq]. replace (2 + (k - 2)) with k by lia. reflexivity. }
    rewrite Hsplit, (silhouette_search_stops L global Xs k _ e Hfail); [reflexivity|].
    intros j Hj. apply in_seq in Hj. apply Hbelow. lia. }
  split; [exact Hsel|].
  intros p X Xp HX Hscale Hpca. unfold cluster.
  rewrite HX, bind_lift, Hscale, bind_lift. cbn [check_random_state].
  rewrite Hpca, bind_lift, Hsel, bind_lift. reflexivity.
Qed.

Lemma search_stops_at_first_failing_k_witness :
  let L := Sample.lib Sample.raw in
  let e := ValueError "Number of labels is invalid" in
  select_k L 0%Z Cases.five_points = Raise e /\
  (forall p X Xp,
     deref (p_store p) (p_X p) = Ok X ->
     StandardScaler_fit_transform L X = Ok Cases.five_points ->
     PCA_fit_transform L 0%Z 2 Cases.five_points = Ok Xp ->
     cluster L 0%Z p = ([], Raise e)).
Proof.
  apply (search_stops_at_first_failing_k (Sample.lib Sample.raw) 0%Z Cases.five_points 5
           (ValueError "Number of labels is invalid")).
  - simpl. tauto.
  - intros j Hj.
    assert (Hcases : j = 2 \/ j = 3 \/ j = 4) by lia.
    destruct Hcases as [-> | [-> | ->]]; eexists; eexists; split; vm_compute; reflexivity.
  - right. eexists. split; vm_compute; reflexivity.
Defined.

(** ** Tables stay rectangular *)

Lemma pick_all_length {A} cols (xs : list A) names :
  length xs = length cols ->
  length (pick_all cols xs names) = length (pick_all cols cols names).
Proof.
  intros Hlen. unfold pick_all. induction names as [|n names IH]; [reflexivity|].
  cbn [flat_map]. rewrite !length_app, IH, (pick_length cols xs n Hlen). reflexivity.
Qed.

Lemma frame_ok_feature df0 : frame_ok df0 -> frame_ok (feature_frame df0).
Proof.
  intros Hok. pose proof (frame_ok_kept df0 Hok) as Hk.
  unfold frame_ok in *. rewrite List.Forall_forall in Hk.
  unfold feature_frame. cbn [columns rows]. apply List.Forall_forall. intros r Hr.
  apply in_map_iff in Hr as [r0 [<- Hr0]]. cbn [cells].
  apply pick_all_length. exact (Hk r0 Hr0).
Qed.

Lemma frame_ok_target df0 : frame_ok df0 -> frame_ok (target_frame df0).
Proof.
  intros Hok. pose proof (frame_ok_kept df0 Hok) as Hk.
  unfold frame_ok in *. rewrite List.Forall_forall in Hk.
  unfold target_frame. cbn [columns rows]. apply List.Forall_forall. intros r Hr.
  apply in_map_iff in Hr as [r0 [<- Hr0]]. cbn [cells].
  apply pick_all_length. exact (Hk r0 Hr0).
Qed.

(** X13.  Every table held in the store is rectangular (each row has one
    cell per column) after each of the three cells that create or change
    tables, provided it was so before: the Loader on a rectangular table
    read from the file, the Feature Preparer, and the Clusterer. *)
Theorem tables_stay_rectangular (L : Library) (global : rng L) :
  (forall raw o l,
     read_csv L "WAR Stats.csv" = Ok raw -> frame_ok raw ->
     load L = (o, Ok l) -> Forall frame_ok (l_store l)) /\
  (forall l o p,
     Forall frame_ok (l_store l) -> prepare l = (o, Ok p) ->
     Forall frame_ok (p_store p)) /\
  (forall p o c,
     Forall frame_ok (p_store p) -> cluster L global p = (o, Ok c) ->
     Forall frame_ok (c_store c)).
Proof.
  split; [|split].
  - intros raw o l Hcsv Hok Hl. unfold load in Hl.
    rewrite Hcsv, bind_lift in Hl. cbn [alloc app] in Hl.
    rewrite set_columns_same_length in Hl by (rewrite length_map; reflexivity).
    rewrite bind_lift in Hl. injection Hl as _ <-. cbn [l_store].
    constructor; [|constructor].
    unfold frame_ok in *. cbn [columns rows]. rewrite length_map. exact Hok.
  - intros l o p Hall Hp.
    destruct (prepare_inv l o p Hp) as [df0 [Hdf Hmiss]].
    destruct (prepare_shape l df0 o p Hdf Hp) as (Hst & _).
    assert (Hok : frame_ok df0).
    { apply deref_Some in Hdf. rewrite Forall_lookup in Hall. exact (Hall _ _ Hdf). }
    rewrite Hst. apply Forall_app. split; [exact Hall|].
    repeat constructor;
      [apply frame_ok_kept | apply frame_ok_feature | apply frame_ok_target]; exact Hok.
  - intros p o c Hall Hc.
    destruct (cluster_inv L global p o c Hc)
      as (? & df & ? & ? & ? & ? & ? & _ & _ & _ & _ & _ & Hdf & _).
    assert (Hok : frame_ok df).
    { apply deref_Some in Hdf. rewrite Forall_lookup in Hall. exact (Hall _ _ Hdf). }
    destruct (cluster_table L global p o c df Hdf Hok Hc)
      as (df3 & Hd3 & _ & Hother & Hok3 & _).
    destruct (cluster_inv L global p o c Hc)
      as (? & ? & ? & ? & ? & ? & ? & _ & _ & _ & _ & _ & _ & _ & _ & _ & _ & _ & _ & Hcdf & _).
    apply Forall_lookup. intros i t Hi.
    destruct (Nat.eq_dec i (p_df p)) as [->|Hne].
    + apply deref_Some in Hd3. rewrite Hcdf in Hd3.
      assert (t = df3) by congruence. subst t. exact Hok3.
    + rewrite (Hother i Hne) in Hi. rewrite Forall_lookup in Hall. exact (Hall _ _ Hi).
Qed.

(** ** The whole notebook *)

Lemma load_run (L : Library) raw :
  read_csv L "WAR Stats.csv" = Ok raw ->
  load L = ([ShowColumns (map normalize_column (columns raw))],
            Ok (mkLoaded [mkFrame (map normalize_column (columns raw)) (rows raw)] 0)).
Proof.
  intros Hcsv. unfold load. rewrite Hcsv, bind_lift. cbn [alloc app].
  rewrite set_columns_same_length by (rewrite length_map; reflexivity).
  rewrite bind_lift. reflexivity.
Qed.

(** X14.  Let the file hold a rectangular table whose renamed labels are
    distinct and include the ten features, ['war'], ['first'] and ['last'].
    Then the Loader and the Feature Preparer complete, and the run of the
    whole notebook completes exactly when the Regressor and the Clusterer
    do: the plotting and reporting cells cannot fail after them.  The output
    of a completed run is the column list, the Regressor's lines, the
    selected K, one scatter plot and the per-cluster listing, in that
    order. *)
Theorem notebook_completes_with_its_models (L : Library) (global : rng L) (raw : DataFrame) :
  read_csv L "WAR Stats.csv" = Ok raw ->
  frame_ok raw ->
  List.NoDup (map normalize_column (columns raw)) ->
  missing_labels (map normalize_column (columns raw)) (features ++ ["war"]) = [] ->
  missing_labels (map normalize_column (columns raw)) report_columns = [] ->
  exists l p,
    load L = ([ShowColumns (map normalize_column (columns raw))], Ok l) /\
    prepare l = ([], Ok p) /\
    (forall o c, run_all L global = (o, Ok c) ->
       is_ok (snd (regress L global p)) = true /\
       exists oc, cluster L global p = (oc, Ok c)) /\
    (forall o_reg reg o_clu c,
       regress L global p = (o_reg, Ok reg) ->
       cluster L global p = (o_clu, Ok c) ->
       exists scatter listing,
         plot c = ([scatter], Ok tt) /\
         report c = (listing, Ok tt) /\
         run_all L global =
           (ShowColumns (map normalize_column (columns raw))
              :: o_reg ++ o_clu ++ scatter :: listing, Ok c)).
Proof.
  intros Hcsv Hok Hnd Hmiss Hrep.
  set (df0 := mkFrame (map normalize_column (columns raw)) (rows raw)).
  set (l := mkLoaded [df0] 0).
  pose proof (load_run L raw Hcsv) as Hload. fold df0 l in Hload.
  assert (Hdf0 : deref (l_store l) (l_df l) = Ok df0) by reflexivity.
  assert (Hok0 : frame_ok df0).
  { unfold frame_ok, df0 in *. cbn [columns rows]. rewrite length_map. exact Hok. }
  pose proof (prepare_run l df0 Hdf0 Hmiss) as Hprep.
  match type of Hprep with _ = (_, Ok ?q) => set (p := q) in * end.
  destruct (prepare_shape l df0 [] p Hdf0 Hprep) as (_ & _ & _ & _ & Hdf & _).
  exists l, p. split; [exact Hload|]. split; [exact Hprep|]. split.
  - intros o c Hrun.
    apply run_all_inv in Hrun as (ol & l' & op & p' & oc & Hl' & Hp' & Hreg & Hc).
    assert (l' = l) by congruence. subst l'.
    assert (p' = p) by congruence. subst p'. eauto.
  - intros o_reg reg o_clu c Hreg Hc.
    destruct (cluster_columns L global p o_clu c (kept_frame df0) Hdf
                (frame_ok_kept df0 Hok0) Hnd Hc)
      as (df3 & pc1 & pc2 & Hd3 & _ & _ & Hcols & _ & _ & _ & Hcl & Hc1 & Hc2 & _).
    assert (Hplot : plot c = ([ShowScatter (float_cells pc1) (float_cells pc2)
                                 (int_cells (cluster_labels c))], Ok tt)).
    { unfold plot, plot_variable.
    rewrite Hd3, bind_lift, Hc1, bind_lift, Hc2, bind_lift, Hcl, bind_lift.
      reflexivity. }
    assert (Hreport : report c =
              (flat_map (fun z => [PrintClusterTitle z; Display (cluster_sample df3 z)])
                 (sorted (unique (map Z.of_nat (cluster_labels c)))), Ok tt)).
    { unfold report. rewrite Hd3, bind_lift. apply report_frame_run.
      - rewrite Hcl. unfold int_cells. rewrite map_map. reflexivity.
      - apply (missing_labels_mono (columns (kept_frame df0))); [|exact Hrep].
        intros n Hn. rewrite Hcols, !add_column_In. auto. }
    eexists _, _. split; [exact Hplot|]. split; [exact Hreport|].
    unfold run_all. rewrite Hload. cbn [bind]. rewrite Hprep. cbn [bind].
    rewrite Hreg. cbn [bind]. rewrite Hc. cbn [bind]. rewrite Hplot. cbn [bind].
    rewrite Hreport. cbn [bind ret app]. rewrite app_nil_r. reflexivity.
Qed.

Lemma notebook_completes_with_its_models_witness :
  let L := Sample.lib Sample.raw in
  let raw := Sample.raw in
  exists l p,
    load L = ([ShowColumns (map normalize_column (columns raw))], Ok l) /\
    prepare l = ([], Ok p) /\
    (forall o c, run_all L 0%Z = (o, Ok c) ->
       is_ok (snd (regress L 0%Z p)) = true /\
       exists oc, cluster L 0%Z p = (oc, Ok c)) /\
    (forall o_reg reg o_clu c,
       regress L 0%Z p = (o_reg, Ok reg) ->
       cluster L 0%Z p = (o_clu, Ok c) ->
       exists scatter listing,
         plot c = ([scatter], Ok tt) /\
         report c = (listing, Ok tt) /\
         run_all L 0%Z =
           (ShowColumns (map normalize_column (columns raw))
              :: o_reg ++ o_clu ++ scatter :: listing, Ok c)).
Proof.
  apply (notebook_completes_with_its_models (Sample.lib Sample.raw) 0%Z Sample.raw).
  - reflexivity.
  - unfold frame_ok. vm_compute. repeat constructor.
  - exact sample_labels_NoDup.
  - reflexivity.
  - reflexivity.
Defined.

(** The sample run prints 1 + 13 + 1 + 1 + 6 items. *)
Example sample_run_output_length :
  length (fst (run_all (Sample.lib Sample.raw) 0%Z)) = 22.
Proof. vm_compute. reflexivity. Qed.
